(** * Course-brochure extraction pipeline: text cleaner, section extractor,
      document builder

    A shallow embedding of
      - [backend/src/document_processing/text_cleaner.py]  ([TextCleaner]),
      - [src/document_processing/course_extractor.py]      ([CourseInfoExtractor]),
      - [src/document_processing/pdf_loader.py]            ([PDFLoader.load_pdf_file]),
    and the properties stated about them.

    Python strings are sequences of Unicode code points: a text is a
    [list N].  The program is written almost entirely with the [re]
    module, so the development contains a backtracking matcher for the
    fragment of [re] the program uses; every pattern is written as in
    the source and parsed by [re_compile]. *)

From Stdlib Require Import NArith List String Ascii Lia Bool.
From stdpp Require Import gmap strings.

Local Open Scope nat_scope.

(** ** Texts *)

(** A character is its code point, a text the list of its characters. *)
Abbreviation char := N.
Abbreviation str := (list N).

(** Decoding of the UTF-8 bytes of a Rocq string literal into code
    points, so that patterns and texts can be written as in the source
    files (which are UTF-8, in composed normal form). *)
Definition byte_of (a : ascii) : N := N_of_ascii a.

Fixpoint utf8 (s : string) : str :=
  match s with
  | EmptyString => []
  | String a s1 =>
    let b := byte_of a in
    if (b <? 128)%N then b :: utf8 s1
    else match s1 with
    | EmptyString => [b]
    | String a2 s2 =>
      let c2 := (byte_of a2 mod 64)%N in
      if (b <? 224)%N then ((b mod 32) * 64 + c2)%N :: utf8 s2
      else match s2 with
      | EmptyString => [b]
      | String a3 s3 =>
        let c3 := (byte_of a3 mod 64)%N in
        if (b <? 240)%N then ((b mod 16) * 4096 + c2 * 64 + c3)%N :: utf8 s3
        else match s3 with
        | EmptyString => [b]
        | String a4 s4 =>
          ((b mod 8) * 262144 + c2 * 4096 + c3 * 64 + byte_of a4 mod 64)%N
            :: utf8 s4
        end
      end
    end
  end.
Arguments utf8 _%_string.

Definition nl : char := 10%N.

Definition ch (s : string) : char :=
  match utf8 s with c :: _ => c | [] => 0%N end.
Arguments ch _%_string.

Definition str_eqb (a b : str) : bool := bool_decide (a = b).

(** [s.startswith(p)] *)
Fixpoint startswith (p s : str) : bool :=
  match p, s with
  | [], _ => true
  | a :: p1, b :: s1 => (a =? b)%N && startswith p1 s1
  | _ :: _, [] => false
  end.

(** [p in s] *)
Fixpoint contains (p s : str) : bool :=
  startswith p s || match s with [] => false | _ :: s1 => contains p s1 end.

(** [s.endswith(p)] *)
Definition endswith (p s : str) : bool := startswith (rev p) (rev s).

(** [s.replace(old, new)] for a non-empty [old]: occurrences are
    replaced from left to right and do not overlap.  [skip] counts the
    characters of the occurrence being replaced that are still to pass. *)
Fixpoint replace_loop (old new : str) (skip : nat) (s : str) : str :=
  match s with
  | [] => []
  | c :: s1 =>
    match skip with
    | S n => replace_loop old new n s1
    | O =>
      if startswith old s
      then new ++ replace_loop old new (length old - 1) s1
      else c :: replace_loop old new 0 s1
    end
  end.

Definition replace (old new s : str) : str := replace_loop old new 0 s.

(** [s.split('\n')] and ['\n'.join(l)] *)
Fixpoint split_lines_acc (cur : str) (s : str) : list str :=
  match s with
  | [] => [rev cur]
  | c :: s1 =>
    if (c =? nl)%N then rev cur :: split_lines_acc [] s1
    else split_lines_acc (c :: cur) s1
  end.

Definition split_lines (s : str) : list str := split_lines_acc [] s.

Fixpoint join (sep : str) (l : list str) : str :=
  match l with
  | [] => []
  | [x] => x
  | x :: l1 => x ++ sep ++ join sep l1
  end.

(** [s[a:b]] for [0 <= a], [0 <= b] *)
Definition slice (a b : nat) (s : str) : str := take (b - a) (drop a s).

(** [s.find(c)] and [s.rfind(c)] for a single character [c]: the first
    and the last index of [c] in [s], or -1. *)
Fixpoint str_find (c : char) (s : str) : Z :=
  match s with
  | [] => -1
  | d :: s1 =>
    if (d =? c)%N then 0
    else let r := str_find c s1 in if (r <? 0)%Z then -1 else r + 1
  end%Z.

Fixpoint str_rfind (c : char) (s : str) : Z :=
  match s with
  | [] => -1
  | d :: s1 =>
    let r := str_rfind c s1 in
    if (r <? 0)%Z then (if (d =? c)%N then 0 else -1) else r + 1
  end%Z.

(** [s[a:b]] for Python integers [a] and [b] that are not negative. *)
Definition zslice (a b : Z) (s : str) : str :=
  slice (Z.to_nat a) (Z.to_nat b) s.

(** ** The Unicode tables of the Python runtime

    The program relies on the interpreter's character database:
    [str.strip], [\s], [\d], [\w], [re.IGNORECASE] and [str.lower].
    The tables are an interface; the general theorems below hold for
    every instance.  [py_unicode] further down is the instance used to
    run the program on concrete texts. *)
Class UnicodeDB := {
  isspace : char -> bool;      (* str.isspace, \s *)
  isdecimal : char -> bool;    (* \d *)
  isalnum : char -> bool;      (* \w is isalnum or '_' *)
  tolower : char -> char;      (* simple lower-case mapping used by re *)
  toupper : char -> char;      (* simple upper-case mapping used by re *)
  str_lower : str -> str       (* str.lower(), the full mapping *)
}.

Definition in_rng (lo hi c : N) : bool := ((lo <=? c) && (c <=? hi))%N.

Definition py_isspace (c : char) : bool :=
  in_rng 9 13 c || in_rng 28 32 c || (c =? 133)%N || (c =? 160)%N
  || (c =? 5760)%N || in_rng 8192 8202 c || (c =? 8232)%N || (c =? 8233)%N
  || (c =? 8239)%N || (c =? 8287)%N || (c =? 12288)%N.

(** Decimal digits (category Nd): first code point and length of each run. *)
Definition decimal_runs : list (N * N) :=
  [(48, 10); (1632, 10); (1776, 10); (1984, 10); (2406, 10); (2534, 10);
   (2662, 10); (2790, 10); (2918, 10); (3046, 10); (3174, 10); (3302, 10);
   (3430, 10); (3558, 10); (3664, 10); (3792, 10); (3872, 10); (4160, 10);
   (4240, 10); (6112, 10); (6160, 10); (6470, 10); (6608, 10); (6784, 10);
   (6800, 10); (6992, 10); (7088, 10); (7232, 10); (7248, 10); (42528, 10);
   (43216, 10); (43264, 10); (43472, 10); (43504, 10); (43600, 10);
   (44016, 10); (65296, 10); (66720, 10); (68912, 10); (69734, 10);
   (69872, 10); (69942, 10); (70096, 10); (70384, 10); (70736, 10);
   (70864, 10); (71248, 10); (71360, 10); (71472, 10); (71904, 10);
   (72016, 10); (72784, 10); (73040, 10); (73120, 10); (92768, 10);
   (92864, 10); (93008, 10); (120782, 50); (123200, 10); (123632, 10);
   (125264, 10); (130032, 10)]%N.

Definition py_isdecimal (c : char) : bool :=
  existsb (fun r => in_rng (fst r) (fst r + snd r - 1) c) decimal_runs.

(** Case mappings of Basic Latin, Latin-1 Supplement, Latin Extended-A,
    the horn letters of Latin Extended-B and Latin Extended Additional
    (all the letters of Vietnamese and English text).  Characters of
    other blocks are left unchanged by this instance. *)
Definition py_tolower (c : char) : char :=
  if in_rng 65 90 c then (c + 32)%N
  else if in_rng 192 222 c && negb (c =? 215)%N then (c + 32)%N
  else if (c =? 304)%N then 105%N
  else if (c =? 376)%N then 255%N
  else if (in_rng 256 303 c || in_rng 306 311 c || in_rng 330 375 c)
          && N.even c then (c + 1)%N
  else if (in_rng 313 328 c || in_rng 377 382 c) && N.odd c then (c + 1)%N
  else if (c =? 416)%N || (c =? 431)%N then (c + 1)%N
  else if (c =? 7838)%N then 223%N
  else if (in_rng 7680 7829 c || in_rng 7840 7935 c) && N.even c
       then (c + 1)%N
  else c.

Definition py_toupper (c : char) : char :=
  if in_rng 97 122 c then (c - 32)%N
  else if (c =? 181)%N then 924%N
  else if in_rng 224 254 c && negb (c =? 247)%N then (c - 32)%N
  else if (c =? 255)%N then 376%N
  else if (c =? 305)%N then 73%N
  else if (c =? 383)%N then 83%N
  else if (in_rng 256 303 c || in_rng 306 311 c || in_rng 330 375 c)
          && N.odd c then (c - 1)%N
  else if (in_rng 313 328 c || in_rng 377 382 c) && N.even c then (c - 1)%N
  else if (c =? 417)%N || (c =? 432)%N then (c - 1)%N
  else if (c =? 7835)%N then 7776%N
  else if (in_rng 7680 7829 c || in_rng 7840 7935 c) && N.odd c
       then (c - 1)%N
  else c.

(** [\w] below U+00C0 (the program only uses [\w] next to the range
    [À-ỹ]); above, the letters of the blocks listed for [py_tolower]. *)
Definition py_isalnum (c : char) : bool :=
  in_rng 48 57 c || in_rng 65 90 c || in_rng 97 122 c
  || existsb (N.eqb c) [170; 178; 179; 181; 185; 186; 188; 189; 190]%N
  || (in_rng 192 591 c && negb (c =? 215)%N && negb (c =? 247)%N)
  || in_rng 7680 7935 c.

(** [str.lower()] maps every character to its lower case; U+0130 (capital
    I with dot above) is the one character whose lower case has two code
    points, [i] followed by U+0307. *)
Definition py_str_lower (s : str) : str :=
  flat_map (fun c => if (c =? 304)%N then [105; 775]%N else [py_tolower c]) s.

#[export] Instance py_unicode : UnicodeDB := {|
  isspace := py_isspace;
  isdecimal := py_isdecimal;
  isalnum := py_isalnum;
  tolower := py_tolower;
  toupper := py_toupper;
  str_lower := py_str_lower
|}.

Section Strings.
Context {U : UnicodeDB}.

(** [s.strip()] *)
Fixpoint lstrip (s : str) : str :=
  match s with
  | c :: s1 => if isspace c then lstrip s1 else s
  | [] => []
  end.

Definition rstrip (s : str) : str := rev (lstrip (rev s)).

Definition strip (s : str) : str := rstrip (lstrip s).

End Strings.

(** ** Regular expressions: the fragment of Python's [re] used by the program *)

Inductive cset_item :=
| CChar (c : char)
| CRange (lo hi : char)
| CSpace                              (* \s *)
| CDigit                              (* \d *)
| CWord.                              (* \w *)

Inductive regex :=
| REmpty
| RChar (c : char)
| RAny                                (* .  *)
| RSet (neg : bool) (items : list cset_item)
| RBol                                (* ^  *)
| REol                                (* $  *)
| RSeq (r1 r2 : regex)
| RAlt (r1 r2 : regex)
| RStar (greedy : bool) (r : regex)   (* r* and r*? *)
| RGroup (i : nat) (r : regex)        (* capturing group number i *)
| RLook (r : regex).                  (* (?=r) *)

(** IGNORECASE, MULTILINE, DOTALL *)
Record re_flags := Flags { f_i : bool; f_m : bool; f_s : bool }.

Definition NOFLAGS := Flags false false false.
Definition IGNORECASE := Flags true false false.
Definition DOTALL := Flags false false true.
Definition flags_or (a b : re_flags) : re_flags :=
  Flags (f_i a || f_i b) (f_m a || f_m b) (f_s a || f_s b).
Definition MULTILINE := Flags false true false.
Infix "|||" := flags_or (at level 50, left associativity).

(** *** Parsing of pattern strings *)

Definition is_ch (s : string) (c : char) : bool := (c =? ch s)%N.
Arguments is_ch _%_string _.

Definition digit_val (c : char) : option nat :=
  if in_rng 48 57 c then Some (N.to_nat (c - 48)) else None.

Fixpoint repeat_re (n : nat) (r : regex) : regex :=
  match n with
  | O => REmpty
  | 1 => r
  | S m => RSeq r (repeat_re m r)
  end.

(** An escape [\c] outside or inside a character class. *)
Definition escape_item (c : char) : cset_item :=
  if is_ch "s" c then CSpace
  else if is_ch "d" c then CDigit
  else if is_ch "w" c then CWord
  else if is_ch "n" c then CChar nl
  else if is_ch "t" c then CChar 9%N
  else CChar c.

Definition item_regex (it : cset_item) : regex :=
  match it with
  | CChar c => RChar c
  | _ => RSet false [it]
  end.

(** The items of a class up to the closing bracket. *)
Fixpoint parse_set (fuel : nat) (inp : str) : option (list cset_item * str) :=
  match fuel with
  | O => None
  | S f =>
    match inp with
    | [] => None
    | c :: rest =>
      if is_ch "]" c then Some ([], rest)
      else if is_ch "\" c then
        match rest with
        | e :: rest1 =>
          match parse_set f rest1 with
          | Some (its, rest2) => Some (escape_item e :: its, rest2)
          | None => None
          end
        | [] => None
        end
      else
        match rest with
        | d :: hi :: rest1 =>
          if is_ch "-" d && negb (is_ch "]" hi) then
            match parse_set f rest1 with
            | Some (its, rest2) => Some (CRange c hi :: its, rest2)
            | None => None
            end
          else
            match parse_set f rest with
            | Some (its, rest2) => Some (CChar c :: its, rest2)
            | None => None
            end
        | _ =>
          match parse_set f rest with
          | Some (its, rest2) => Some (CChar c :: its, rest2)
          | None => None
          end
        end
    end
  end.

(** A quantifier after an atom: [*], [+], [?], their lazy forms, [{n}]. *)
Definition parse_quant (a : regex) (inp : str) : regex * str :=
  match inp with
  | q :: rest =>
    let lazy := match rest with l :: _ => is_ch "?" l | [] => false end in
    let rest1 := if lazy then drop 1 rest else rest in
    if is_ch "*" q then (RStar (negb lazy) a, rest1)
    else if is_ch "+" q then (RSeq a (RStar (negb lazy) a), rest1)
    else if is_ch "?" q then
      (if lazy then RAlt REmpty a else RAlt a REmpty, rest1)
    else if is_ch "{" q then
      match rest with
      | d :: b :: rest2 =>
        match digit_val d with
        | Some n => if is_ch "}" b then (repeat_re n a, rest2) else (a, inp)
        | None => (a, inp)
        end
      | _ => (a, inp)
      end
    else (a, inp)
  | [] => (a, inp)
  end.

Definition expect_close (res : option (regex * nat * str))
    (wrap : regex -> regex) : option (regex * nat * str) :=
  match res with
  | Some (r, g, c :: rest) =>
    if is_ch ")" c then Some (wrap r, g, rest) else None
  | _ => None
  end.

(** Alternation, sequence, atom.  [g] is the number of capturing groups
    opened so far. *)
Fixpoint parse_alt (fuel : nat) (g : nat) (inp : str)
    : option (regex * nat * str) :=
  match fuel with
  | O => None
  | S f =>
    match parse_seq f g inp with
    | Some (r1, g1, c :: rest) =>
      if is_ch "|" c then
        match parse_alt f g1 rest with
        | Some (r2, g2, rest2) => Some (RAlt r1 r2, g2, rest2)
        | None => None
        end
      else Some (r1, g1, c :: rest)
    | other => other
    end
  end
with parse_seq (fuel : nat) (g : nat) (inp : str)
    : option (regex * nat * str) :=
  match fuel with
  | O => None
  | S f =>
    match inp with
    | [] => Some (REmpty, g, [])
    | c :: _ =>
      if is_ch "|" c || is_ch ")" c then Some (REmpty, g, inp)
      else
        match parse_atom f g inp with
        | Some (a, g1, rest1) =>
          let (a1, rest2) := parse_quant a rest1 in
          match parse_seq f g1 rest2 with
          | Some (REmpty, g2, rest3) => Some (a1, g2, rest3)
          | Some (r, g2, rest3) => Some (RSeq a1 r, g2, rest3)
          | None => None
          end
        | None => None
        end
    end
  end
with parse_atom (fuel : nat) (g : nat) (inp : str)
    : option (regex * nat * str) :=
  match fuel with
  | O => None
  | S f =>
    match inp with
    | [] => None
    | c :: rest =>
      if is_ch "(" c then
        match rest with
        | q :: k :: rest1 =>
          if is_ch "?" q && is_ch ":" k then
            expect_close (parse_alt f g rest1) (fun r => r)
          else if is_ch "?" q && is_ch "=" k then
            expect_close (parse_alt f g rest1) RLook
          else expect_close (parse_alt f (S g) rest) (RGroup (S g))
        | _ => expect_close (parse_alt f (S g) rest) (RGroup (S g))
        end
      else if is_ch "[" c then
        match rest with
        | n :: rest1 =>
          let neg := is_ch "^" n in
          match parse_set f (if neg then rest1 else rest) with
          | Some (its, rest2) => Some (RSet neg its, g, rest2)
          | None => None
          end
        | [] => None
        end
      else if is_ch "\" c then
        match rest with
        | e :: rest1 => Some (item_regex (escape_item e), g, rest1)
        | [] => None
        end
      else if is_ch "." c then Some (RAny, g, rest)
      else if is_ch "^" c then Some (RBol, g, rest)
      else if is_ch "$" c then Some (REol, g, rest)
      else if is_ch "*" c || is_ch "+" c || is_ch "?" c then None
      else Some (RChar c, g, rest)
    end
  end.

(** A compiled pattern; [pat_i] records an inline [(?i)] at its start. *)
Record pattern := Pattern { pat_i : bool; pat_re : regex }.

Definition re_parse (p : str) : option pattern :=
  let inline := startswith (utf8 "(?i)") p in
  let body := if inline then drop 4 p else p in
  match parse_alt (2 * length body + 4) 0 body with
  | Some (r, _, []) => Some (Pattern inline r)
  | _ => None
  end.

(** [re.compile]; a pattern that does not parse would raise [re.error]
    in Python.  All patterns of the program parse ([patterns_compile]
    below), so the never-matching default is not reached. *)
Definition re_compile (p : str) : pattern :=
  match re_parse p with
  | Some c => c
  | None => Pattern false (RSet false [])
  end.

(** [re.escape]: a backslash before every special character. *)
Definition re_special (c : char) : bool :=
  existsb (N.eqb c)
    (utf8 "()[]{}?*+-|^$\.&~# " ++ [9; 10; 13; 11; 12]%N).

Definition re_escape (s : str) : str :=
  flat_map (fun c => if re_special c then [ch "\"; c] else [c]) s.

(** *** The backtracking matcher *)

(** A position in the subject: its offset, the character before it (for
    [^]), the characters from it on, and the capture groups closed so
    far (start and end offsets). *)
Record mstate := MState {
  ms_pos : N;
  ms_prev : option char;
  ms_rest : str;
  ms_caps : list (nat * (N * N))
}.

Definition advance (s : mstate) (c : char) (rest : str) : mstate :=
  MState (N.succ (ms_pos s)) (Some c) rest (ms_caps s).

Definition set_cap (i : nat) (span : N * N) (s : mstate) : mstate :=
  MState (ms_pos s) (ms_prev s) (ms_rest s) ((i, span) :: ms_caps s).

Definition at_bol (multiline : bool) (s : mstate) : bool :=
  match ms_prev s with
  | None => true
  | Some c => multiline && (c =? nl)%N
  end.

(** [$] matches at the end and before a final newline; with MULTILINE
    before every newline. *)
Definition at_eol (multiline : bool) (s : mstate) : bool :=
  match ms_rest s with
  | [] => true
  | c :: rest =>
    (c =? nl)%N && (multiline || match rest with [] => true | _ => false end)
  end.

(** The loop of a repetition: [body] matches one iteration, [k] is
    what follows the repetition, [n] bounds the number of iterations
    left.  A greedy repetition tries one more iteration before [k], a
    lazy one tries [k] first.  An iteration has to consume a character. *)
Fixpoint star_loop (greedy : bool)
    (body : mstate -> (mstate -> option mstate) -> option mstate)
    (k : mstate -> option mstate) (n : nat) (s0 : mstate)
    {struct n} : option mstate :=
  let again (_ : unit) :=
    match n with
    | O => None
    | S n1 =>
      body s0 (fun s1 =>
        if (ms_pos s0 <? ms_pos s1)%N then star_loop greedy body k n1 s1
        else None)
    end in
  if greedy then
    match again tt with Some res => Some res | None => k s0 end
  else
    match k s0 with Some res => Some res | None => again tt end.

Section Matcher.
Context {U : UnicodeDB}.
Variable fl : re_flags.

Definition item_has (it : cset_item) (t : char) : bool :=
  match it with
  | CChar c => (t =? c)%N
  | CRange lo hi => in_rng lo hi t
  | CSpace => isspace t
  | CDigit => isdecimal t
  | CWord => isalnum t || (t =? 95)%N
  end.

Definition set_has (items : list cset_item) (t : char) : bool :=
  existsb (fun it => item_has it t) items.

(** Under IGNORECASE a literal matches a character with the same lower
    case, and a class matches a character when it contains the character
    or its other case.  ([re] further equates a few characters that
    share an upper case, such as i with U+0131 and s with U+017F: texts
    with these characters are outside what is modelled here.) *)
Definition lit_matches (c t : char) : bool :=
  if f_i fl then (tolower t =? tolower c)%N else (t =? c)%N.

Definition set_matches (neg : bool) (items : list cset_item) (t : char) : bool :=
  xorb neg
    (if f_i fl
     then set_has items t || set_has items (tolower t)
          || set_has items (toupper (tolower t))
     else set_has items t).

Definition any_matches (t : char) : bool := f_s fl || negb (t =? nl)%N.

Definition step_char (ok : char -> bool) (s : mstate)
    (k : mstate -> option mstate) : option mstate :=
  match ms_rest s with
  | t :: rest => if ok t then k (advance s t rest) else None
  | [] => None
  end.

(** [rmatch r s k]: match [r] at [s], then continue with [k]; the first
    success in priority order is returned (leftmost alternative first,
    greedy repetition longest first, lazy repetition shortest first).
    The number of characters left bounds the iterations of a repetition. *)
Fixpoint rmatch (r : regex) (s : mstate) (k : mstate -> option mstate)
    {struct r} : option mstate :=
  match r with
  | REmpty => k s
  | RChar c => step_char (lit_matches c) s k
  | RAny => step_char any_matches s k
  | RSet neg items => step_char (set_matches neg items) s k
  | RBol => if at_bol (f_m fl) s then k s else None
  | REol => if at_eol (f_m fl) s then k s else None
  | RSeq r1 r2 => rmatch r1 s (fun s1 => rmatch r2 s1 k)
  | RAlt r1 r2 =>
    match rmatch r1 s k with
    | Some res => Some res
    | None => rmatch r2 s k
    end
  | RStar greedy r1 =>
    star_loop greedy (rmatch r1) k (length (ms_rest s)) s
  | RGroup i r1 =>
    rmatch r1 s (fun s1 => k (set_cap i (ms_pos s, ms_pos s1) s1))
  | RLook r1 =>
    match rmatch r1 s Some with
    | Some _ => k s
    | None => None
    end
  end.

End Matcher.

(** A match object: [m.start()], [m.end()] and the groups. *)
Record rematch := Match {
  m_start : nat;
  m_end : nat;
  m_caps : list (nat * (N * N))
}.

Section Re.
Context {U : UnicodeDB}.

Definition pat_flags (fl : re_flags) (p : pattern) : re_flags :=
  Flags (f_i fl || pat_i p) (f_m fl) (f_s fl).

Definition match_here (fl : re_flags) (p : pattern) (pos : nat)
    (prev : option char) (rest : str) : option rematch :=
  match rmatch (pat_flags fl p) (pat_re p)
          (MState (N.of_nat pos) prev rest []) Some with
  | Some s => Some (Match pos (N.to_nat (ms_pos s)) (ms_caps s))
  | None => None
  end.

Fixpoint search_from (fl : re_flags) (p : pattern) (pos : nat)
    (prev : option char) (rest : str) : option rematch :=
  match match_here fl p pos prev rest with
  | Some m => Some m
  | None =>
    match rest with
    | [] => None
    | c :: rest1 => search_from fl p (S pos) (Some c) rest1
    end
  end.

(** [re.search(pattern, text, flags)] *)
Definition re_search (fl : re_flags) (p : str) (text : str) : option rematch :=
  search_from fl (re_compile p) 0 None text.

(** [re.match(pattern, text, flags)] *)
Definition re_match (fl : re_flags) (p : str) (text : str) : option rematch :=
  match_here fl (re_compile p) 0 None text.

(** [m.group()] and [m.group(i)] *)
Definition group0 (text : str) (m : rematch) : str :=
  slice (m_start m) (m_end m) text.

Fixpoint cap_lookup (i : nat) (caps : list (nat * (N * N)))
    : option (N * N) :=
  match caps with
  | [] => None
  | (j, span) :: caps1 => if (i =? j)%nat then Some span else cap_lookup i caps1
  end.

Definition group (text : str) (m : rematch) (i : nat) : str :=
  match cap_lookup i (m_caps m) with
  | Some (a, b) => slice (N.to_nat a) (N.to_nat b) text
  | None => []
  end.

(** [re.sub(pattern, repl, text, flags)] with a function [repl]; matches
    are replaced from left to right.  [skip] counts the characters of the
    current match still to pass.  After an empty match the next
    character is copied. *)
Fixpoint sub_loop (fl : re_flags) (p : pattern) (repl : rematch -> str)
    (skip : nat) (pos : nat) (prev : option char) (rest : str) : str :=
  match skip, rest with
  | S n, c :: rest1 => sub_loop fl p repl n (S pos) (Some c) rest1
  | S _, [] => []
  | O, _ =>
    match match_here fl p pos prev rest with
    | Some m =>
      repl m ++
      match m_end m - pos, rest with
      | _, [] => []
      | O, c :: rest1 => c :: sub_loop fl p repl 0 (S pos) (Some c) rest1
      | S n, c :: rest1 => sub_loop fl p repl n (S pos) (Some c) rest1
      end
    | None =>
      match rest with
      | [] => []
      | c :: rest1 => c :: sub_loop fl p repl 0 (S pos) (Some c) rest1
      end
    end
  end.

Definition re_sub_fn (fl : re_flags) (p : str) (repl : rematch -> str)
    (text : str) : str :=
  sub_loop fl (re_compile p) repl 0 0 None text.

(** [re.findall(pattern, text, flags)] for a pattern without groups: the
    matched texts, from left to right. *)
Fixpoint findall_loop (fl : re_flags) (p : pattern) (text : str)
    (skip : nat) (pos : nat) (prev : option char) (rest : str) : list str :=
  match skip, rest with
  | S n, c :: rest1 => findall_loop fl p text n (S pos) (Some c) rest1
  | S _, [] => []
  | O, _ =>
    match match_here fl p pos prev rest with
    | Some m =>
      group0 text m ::
      match m_end m - pos, rest with
      | _, [] => []
      | O, c :: rest1 => findall_loop fl p text 0 (S pos) (Some c) rest1
      | S n, c :: rest1 => findall_loop fl p text n (S pos) (Some c) rest1
      end
    | None =>
      match rest with
      | [] => []
      | c :: rest1 => findall_loop fl p text 0 (S pos) (Some c) rest1
      end
    end
  end.

Definition re_findall (fl : re_flags) (p : str) (text : str) : list str :=
  findall_loop fl (re_compile p) text 0 0 None text.

(** Replacement templates: [\1] is a group reference, [\n] a newline. *)
Inductive titem := TLit (c : char) | TGroup (i : nat).

Fixpoint parse_template (t : str) : list titem :=
  match t with
  | [] => []
  | c :: t1 =>
    if is_ch "\" c then
      match t1 with
      | e :: t2 =>
        match digit_val e with
        | Some i => TGroup i :: parse_template t2
        | None =>
          (if is_ch "n" e then TLit nl else TLit e) :: parse_template t2
        end
      | [] => [TLit c]
      end
    else TLit c :: parse_template t1
  end.

Definition expand (tpl : list titem) (text : str) (m : rematch) : str :=
  flat_map (fun it =>
    match it with
    | TLit c => [c]
    | TGroup i => group text m i
    end) tpl.

(** [re.sub(pattern, repl, text, flags)] with a template string [repl] *)
Definition re_sub (fl : re_flags) (p : str) (repl : str) (text : str) : str :=
  re_sub_fn fl p (expand (parse_template repl) text) text.

End Re.

(** ** [TextCleaner]  (text_cleaner.py) *)

Module TextCleaner.
Section TextCleaner.
Context {U : UnicodeDB}.

(** [self.company_noise_patterns] *)
Definition company_noise_patterns : list str := map utf8 [
  (* Company headers and footers *)
  "Trụ sở chính.*?(?=\n[A-ZÀÁẢÃẠ]|\n\n|$)";
  "Chi nhánh.*?(?=\n[A-ZÀÁẢÃẠ]|\n\n|$)";
  "Head Office.*?(?=\n[A-ZÀÁẢÃẠ]|\n\n|$)";
  "Hanoi Office.*?(?=\n[A-ZÀÁẢÃẠ]|\n\n|$)";
  (* Address patterns *)
  "Lầu \d+.*?(?=\n[A-ZÀÁẢÃẠ]|\n\n|$)";
  "Tầng \d+.*?(?=\n[A-ZÀÁẢÃẠ]|\n\n|$)";
  "\d+-\d+-\d+\s+.*?Quận.*?(?=\n|$)";
  "Quận \d+.*?Tp\.?\s*Hồ Chí Minh.*?(?=\n|$)";
  "P\.\s*.*?Q\.\s*.*?Hà Nội.*?(?=\n|$)";
  "Dist\.\s*\d+.*?HCM.*?(?=\n|$)";
  "Dong Da Dist.*?Hanoi.*?(?=\n|$)";
  (* Contact info *)
  "Website:.*?(?=\n|$)";
  "Email:.*?(?=\n|$)";
  "Hotline:.*?(?=\n|$)";
  "Tel:.*?(?=\n|$)";
  "Phone:.*?(?=\n|$)";
  "\|\s*Hotline:.*?(?=\n|$)";
  "\+84.*?\d{3}.*?\d{3}.*?(?=\n|$)";
  "www\.Robusta\.vn.*?(?=\n|$)";
  "Learn@Robusta\.vn.*?(?=\n|$)";
  (* Page numbers and metadata *)
  "Page \d+ of \d+.*?(?=\n|$)";
  "www\.Robusta\.vn\s+Page.*?(?=\n|$)";
  "Trang \d+.*?(?=\n|$)";
  "©.*?(?=\n|$)";
  (* Multi-line company blocks *)
  "Trụ sở chính.*?www\.Robusta\.vn";
  "Chi nhánh.*?Learn@Robusta\.vn";
  (* Company name mentions *)
  "ROBUSTA.*?(?=\n|$)";
  "Robusta.*?Technology.*?(?=\n|$)"
]%string.

(** The table [fixes] of [fix_vietnamese_encoding], in the order of the
    dictionary (the key written twice in the source keeps its first
    place). *)
Definition fixes : list (str * str) :=
  map (fun p : string * string => (utf8 (fst p), utf8 (snd p)))
  [("h ọc", "học"); ("gi ảng", "giảng"); ("vi ện", "viện");
   ("cơ b ản", "cơ bản"); ("đào t ạo", "đào tạo"); ("hệ th ống", "hệ thống");
   ("công ngh ệ", "công nghệ"); ("ki ến th ức", "kiến thức");
   ("ứng d ụng", "ứng dụng"); ("quản tr ị", "quản trị");
   ("th ực hiện", "thực hiện"); ("phát tri ển", "phát triển");
   ("ngư ời", "người"); ("d ự án", "dự án"); ("đ ể", "để"); ("c ần", "cần");
   ("gi ờ", "giờ"); ("đ ề", "đề"); ("c ấp", "cấp"); ("c ách", "cách");
   ("c ó th ể", "có thể"); ("c ung c ấp", "cung cấp");
   ("ph ương pháp", "phương pháp"); ("c ông c ụ", "công cụ");
   ("ph ân tích", "phân tích"); ("d ữ liệu", "dữ liệu");
   ("b ằng c ách", "bằng cách"); ("gi ải quy ết", "giải quyết");
   ("yêu c ầu", "yêu cầu"); ("liên quan đ ến", "liên quan đến");
   ("ki nh doanh", "kinh doanh"); ("nh ững", "những");
   ("căn b ản", "căn bản"); ("g ồm", "gồm"); ("đư ợc", "được");
   ("c ách th ức", "cách thức"); ("áp d ụng", "áp dụng");
   ("th ực t ế", "thực tế"); ("môi trư ờng", "môi trường");
   ("k ỹ thu ật", "kỹ thuật"); ("cu ối", "cuối"); ("v ới", "với");
   ("ch ứng ch ỉ", "chứng chỉ"); ("c ài đ ặt", "cài đặt");
   ("tri ển khai", "triển khai"); ("c ấu hình", "cấu hình");
   ("ph ục v ụ", "phục vụ"); ("ph át tri ển", "phát triển")]%string.

(** The generic rules for a letter, spaces and a vowel with a diacritic. *)
Definition generic_fixes : list str := map utf8 [
  "([a-zA-ZÀ-ỹ])\s+([ọệấởảắằẳẵặ])";
  "([a-zA-ZÀ-ỹ])\s+([ụũúùűùử])";
  "([a-zA-ZÀ-ỹ])\s+([ịĩíìỉ])";
  "([a-zA-ZÀ-ỹ])\s+([ỗốồổộ])";
  "([a-zA-ZÀ-ỹ])\s+([ỹýỳỷỵ])"
]%string.

Definition fix_vietnamese_encoding (text : str) : str :=
  match text with
  | [] => []
  | _ =>
    let fixed_text :=
      fold_left (fun t wc => replace (fst wc) (snd wc) t) fixes text in
    fold_left (fun t p => re_sub NOFLAGS p (utf8 "\1\2") t)
      generic_fixes fixed_text
  end.

Definition company_blocks : list str := map utf8 [
  "Ho Chi Minh.*?City Head Office.*?www\.Robusta\.vn";
  "Trụ sở chính.*?www\.Robusta\.vn";
  "Chi nhánh.*?Learn@Robusta\.vn";
  "Hanoi\s+Office.*?www\.Robusta\.vn"
]%string.

Definition course_keywords : list str := map utf8 [
  "khóa học"; "course"; "mục tiêu"; "objectives"; "giới thiệu";
  "nội dung"; "content"; "học viên"; "students"; "yêu cầu";
  "VMware"; "NSX"; "BigData"; "Cloud"; "thời lượng"; "duration"
]%string.

(** The replacement function of the third pass: the matched text is
    kept when it contains a course keyword, and removed otherwise. *)
Definition replace_if_not_course (cleaned : str) (m : rematch) : str :=
  let matched_text := group0 cleaned m in
  if existsb (fun keyword =>
       contains (str_lower keyword) (str_lower matched_text)) course_keywords
  then matched_text
  else [].

Definition course_structure_keywords : list str := map utf8 [
  "I\.\s*Giới thiệu"; "II\.\s*Thời lượng"; "III\.\s*Mục tiêu";
  "IV\.\s*Đối tượng"; "V\.\s*Yêu cầu"; "VI\.\s*Nội dung";
  "Khóa học"; "Course"; "Module\s*\d+"; "Chương\s*\d+";
  "VMware"; "NSX"; "BigData"; "Cloud"; "OpenStack"
]%string.

Definition isolated_patterns : list str := map utf8 [
  "^.*?(?:Head Office|Chi nhánh|Trụ sở).*?$";
  "^.*?(?:\+84|\(\+84\)).*?$";
  "^.*?(?:Tel:|Phone:|Hotline:).*?$";
  "^.*?(?:Website:|Email:).*?$";
  "^.*?(?:www\.Robusta|Learn@Robusta).*?$";
  "^.*?(?:97-99-101|Lane 167|Tây Sơn).*?$";
  "^.*?(?:Dist\.|Quận|HCM City|Hà Nội).*?$"
]%string.

Definition has_course_content (line : str) : bool :=
  existsb (fun p => bool_decide (is_Some (re_search IGNORECASE p line)))
    course_structure_keywords.

Definition skip_line (line : str) : bool :=
  existsb (fun p => bool_decide (is_Some (re_match IGNORECASE p line)))
    isolated_patterns.

(** The fourth pass: the loop over the lines.  A line is stripped; an
    empty line is dropped, a line with a course-structure keyword is
    kept, any other line is kept unless an isolated pattern matches. *)
Fixpoint filter_lines (lines : list str) : list str :=
  match lines with
  | [] => []
  | l :: rest =>
    let line := strip l in
    match line with
    | [] => filter_lines rest
    | _ =>
      if has_course_content line then line :: filter_lines rest
      else if skip_line line then filter_lines rest
      else line :: filter_lines rest
    end
  end.

(** The first step of [remove_company_noise] collects the course
    content found in the text. *)
Definition course_content_patterns : list str := map utf8 [
  "I\.\s*Giới thiệu.*?(?=Trụ sở|Chi nhánh|$)";
  "II\.\s*Thời lượng.*?(?=Trụ sở|Chi nhánh|$)";
  "III\.\s*Mục tiêu.*?(?=Trụ sở|Chi nhánh|$)";
  "IV\.\s*Đối tượng.*?(?=Trụ sở|Chi nhánh|$)";
  "V\.\s*Yêu cầu.*?(?=Trụ sở|Chi nhánh|$)";
  "VI\.\s*Nội dung.*?(?=Trụ sở|Chi nhánh|$)";
  "Khóa học.*?(?=Trụ sở|Chi nhánh|$)";
  "(?:Module|Chương)\s*\d+.*?(?=Trụ sở|Chi nhánh|$)"
]%string.

Definition preserved_content (text : str) : list str :=
  flat_map (fun p => re_findall (DOTALL ||| IGNORECASE) p text)
    course_content_patterns.

(** [remove_company_noise].  The source fills [preserved_content] first
    and never reads it afterwards: the removal passes below do not
    depend on it. *)
Definition remove_company_noise (text : str) : str :=
  let cleaned :=
    fold_left (fun t p => re_sub (DOTALL ||| IGNORECASE) p [] t)
      company_blocks text in
  let cleaned :=
    fold_left (fun t p =>
      re_sub_fn (IGNORECASE ||| MULTILINE) p (replace_if_not_course t) t)
      company_noise_patterns cleaned in
  join [nl] (filter_lines (split_lines cleaned)).

Definition normalize_whitespace (text : str) : str :=
  let text := re_sub NOFLAGS (utf8 "\s+") (utf8 " ") text in
  let text := re_sub NOFLAGS (utf8 "\n\s*\n\s*\n+") [nl; nl] text in
  re_sub NOFLAGS (utf8 "\n\s+") [nl] text.

Definition standardize_formatting (text : str) : str :=
  let text := re_sub NOFLAGS (utf8 "•\s*") (utf8 "• ") text in
  re_sub NOFLAGS (utf8 "(\d+)\.\s*") (utf8 "\1. ") text.

(** The loop of [remove_incomplete_lines]. *)
Fixpoint complete_lines (lines : list str) : list str :=
  match lines with
  | [] => []
  | l :: rest =>
    let line := strip l in
    match line with
    | [] => complete_lines rest
    | _ =>
      if length line <? 10 then complete_lines rest
      else if (20 <? length line)
              && negb (bool_decide (is_Some
                   (re_search NOFLAGS (utf8 "[\.!?\)\:]$") line)))
              && endswith (utf8 "...") line
      then complete_lines rest
      else line :: complete_lines rest
    end
  end.

Definition remove_incomplete_lines (text : str) : str :=
  join [nl] (complete_lines (split_lines text)).

Definition clean_text (text : str) : str :=
  match text with
  | [] => []
  | _ =>
    (* Step 1: fix encoding issues *)
    let text := fix_vietnamese_encoding text in
    (* Step 2: remove company noise *)
    let text := remove_company_noise text in
    (* Step 3: remove non-text characters *)
    let text :=
      re_sub NOFLAGS (utf8 "[^\w\sÀ-ỹ\n\.\,\!\?\-\•\:\(\)]") (utf8 " ") text in
    (* Step 4: normalize whitespace *)
    let text := normalize_whitespace text in
    (* Step 5: standardize formatting *)
    let text := standardize_formatting text in
    (* Step 6: remove incomplete lines *)
    let text := remove_incomplete_lines text in
    strip text
  end.

End TextCleaner.
End TextCleaner.

(** ** Exceptions

    The one operation of the program that can raise is the dictionary
    lookup [self.section_configs[section_name]]. *)
Inductive exn := KeyError (key : string).

Inductive result (A : Type) :=
| Ok (a : A)
| Raise (e : exn).
Arguments Ok {A} a.
Arguments Raise {A} e.

Definition bind {A B : Type} (x : result A) (f : A -> result B) : result B :=
  match x with
  | Ok a => f a
  | Raise e => Raise e
  end.

Notation "x <- e1 ;; e2" := (bind e1 (fun x => e2))
  (at level 100, e1 at next level, right associativity).

(** The first element of a list on which [f] succeeds: a [for] loop
    left with [break] at the first match. *)
Fixpoint first_some {A B : Type} (f : A -> option B) (l : list A) : option B :=
  match l with
  | [] => None
  | x :: l1 =>
    match f x with
    | Some y => Some y
    | None => first_some f l1
    end
  end.

(** ** [CourseInfoExtractor]  (course_extractor.py) *)

Module CourseInfoExtractor.

Record section_config := SectionConfig {
  title : str;
  patterns : list str;
  keywords : list str;
  stop_patterns : list str
}.

(** [self.section_configs], in the order of the dictionary *)
Definition section_configs : list (string * section_config) := [
  ("overview", SectionConfig
     (utf8 "Giới thiệu/Tổng quan khóa học")
     (map utf8 ["i+\.\s*tổng quan"; "i+\.\s*giới thiệu"; "tổng quan\s*$";
                "giới thiệu về khóa học"])
     (map utf8 ["tổng quan"; "giới thiệu khóa học"; "mô tả khóa học"])
     (map utf8 ["ii+\.\s*thời lượng"; "thời lượng\s*\d+"]));
  ("duration", SectionConfig
     (utf8 "Thời lượng & Hình thức đào tạo")
     (map utf8 ["ii+\.\s*thời lượng"; "thời lượng\s*\d+"; "thời lượng.*giờ"])
     (map utf8 ["thời lượng"; "hình thức đào tạo"; "thời gian học"])
     (map utf8 ["iii+\.\s*mục tiêu"; "mục tiêu khóa học"]));
  ("objectives", SectionConfig
     (utf8 "Mục tiêu khóa học")
     (map utf8 ["iii+\.\s*mục tiêu khóa học"; "mục tiêu khóa học";
                "mục tiêu\s*$"])
     (map utf8 ["mục tiêu khóa học"; "mục tiêu"; "sau khóa học"])
     (map utf8 ["iv+\.\s*đối tượng"; "đối tượng tham gia"]));
  ("audience", SectionConfig
     (utf8 "Đối tượng tham gia")
     (map utf8 ["iv+\.\s*đối tượng tham gia"; "đối tượng tham gia";
                "đối tượng\s*$"])
     (map utf8 ["đối tượng tham gia"; "đối tượng"; "học viên"])
     (map utf8 ["v+\.\s*nội dung"; "nội dung khóa học"; "chương trình"]));
  ("content", SectionConfig
     (utf8 "Nội dung khóa học")
     (map utf8 ["v+\.\s*nội dung khóa học"; "nội dung khóa học";
                "chương trình học"; "module\s*\d+"])
     (map utf8 ["nội dung khóa học"; "chương trình"; "module";
                "nội dung đào tạo"])
     [])
]%string.

(** [self.section_configs[section_name]] *)
Fixpoint lookup_config (name : string)
    (l : list (string * section_config)) : result section_config :=
  match l with
  | [] => Raise (KeyError name)
  | (k, c) :: l1 => if String.eqb k name then Ok c else lookup_config name l1
  end.

Section Extractor.
Context {U : UnicodeDB}.

Definition keyword_pattern (keyword : str) : str :=
  utf8 "(?:^|\n)\s*[•\-\*]?\s*" ++ re_escape keyword.

Definition generic_stops : list str := map utf8 [
  "\n\s*[ivx]+\.\s*[a-zA-ZÀ-ỹ]";       (* Roman numerals *)
  "\n\s*\d+\.\s*[A-ZÀÁẢÃẠ]"            (* Numbered sections *)
]%string.

(** The start of a section: the first pattern that matches the
    lower-cased text, else the first keyword that does. *)
Definition find_start (config : section_config) (text_lower : str)
    : option nat :=
  match first_some (fun p =>
          re_search (IGNORECASE ||| MULTILINE) p text_lower)
          (patterns config) with
  | Some m => Some (m_start m)
  | None =>
    match first_some (fun kw =>
            re_search IGNORECASE (keyword_pattern kw) text_lower)
            (keywords config) with
    | Some m => Some (m_start m)
    | None => None
    end
  end.

(** One round of a stop loop: [end_pos = min(end_pos, start_pos + off +
    stop_match.start())] when the stop pattern is found in
    [text[start_pos + off:]]. *)
Definition tighten (fl : re_flags) (text : str) (start_pos off : nat)
    (end_pos : nat) (stop_pattern : str) : nat :=
  match re_search fl stop_pattern (drop (start_pos + off) text) with
  | Some stop_match => Nat.min end_pos (start_pos + off + m_start stop_match)
  | None => end_pos
  end.

Definition find_section_boundaries (text : str) (section_name : string)
    : result (option (nat * nat)) :=
  config <- lookup_config section_name section_configs ;;
  let text_lower := str_lower text in
  match find_start config text_lower with
  | None => Ok None
  | Some start_pos =>
    let end_pos := length text in
    let end_pos :=
      fold_left (tighten (IGNORECASE ||| MULTILINE) text start_pos 50)
        (stop_patterns config) end_pos in
    let end_pos :=
      fold_left (tighten IGNORECASE text start_pos 100)
        generic_stops end_pos in
    Ok (Some (start_pos, end_pos))
  end.

Definition post_process_section (content : str) (section_type : string)
    : str :=
  match content with
  | [] => []
  | _ =>
    let content :=
      if String.eqb section_type "duration" then
        re_sub IGNORECASE (utf8 "(\d+)\s*(giờ|ngày|tuần|tháng)")
          (utf8 "\1 \2") content
      else if String.eqb section_type "content" then
        let content :=
          re_sub IGNORECASE (utf8 "Module\s*(\d+)") (utf8 "\nModule \1")
            content in
        re_sub IGNORECASE (utf8 "Chương\s*(\d+)") (utf8 "\nChương \1") content
      else if String.eqb section_type "objectives" then
        re_sub NOFLAGS (utf8 "(?:^|\n)([^•\n])") (utf8 "\n• \1") content
      else content in
    let content :=
      re_sub NOFLAGS (utf8 "\n\s*\n\s*\n+") [nl; nl] content in
    strip content
  end.

Definition extract_section_content (text : str) (section_name : string)
    : result str :=
  boundaries <- find_section_boundaries text section_name ;;
  match boundaries with
  | None => Ok []
  | Some (start_pos, end_pos) =>
    let section_text := slice start_pos end_pos text in
    let cleaned_text := TextCleaner.clean_text section_text in
    config <- lookup_config section_name section_configs ;;
    let header_patterns :=
      [re_escape (title config) ++ utf8 ":?";
       utf8 "^[ivx]+\.\s*";
       utf8 "^\d+\.\s*"] in
    let cleaned_text :=
      fold_left (fun t p => re_sub (IGNORECASE ||| MULTILINE) p [] t)
        header_patterns cleaned_text in
    let cleaned_text := post_process_section cleaned_text section_name in
    Ok (strip cleaned_text)
  end.

(** [for pattern in ps: match = re.search(...); if match: ...; break] *)
Definition search_first (fl : re_flags) (ps : list string) (text : str)
    : option rematch :=
  first_some (fun p => re_search fl (utf8 p) text) ps.

Definition sub_all (fl : re_flags) (ps : list string) (text : str) : str :=
  fold_left (fun t p => re_sub fl (utf8 p) [] t) ps text.

Definition SI := DOTALL ||| IGNORECASE.

(** [if not result or len(result.strip()) < 50] *)
Definition too_short (result : str) (n : nat) : bool :=
  match result with
  | [] => true
  | _ => length (strip result) <? n
  end.

Definition labelled (label : string) (body : str) : list str :=
  match body with
  | [] => []
  | _ => [utf8 label ++ [nl] ++ body]
  end.

Definition or_default (result : str) (default : string) : str :=
  match result with
  | [] => utf8 default
  | _ => result
  end.

Definition intro_patterns : list string := [
  "I\.\s*(?:Giới thiệu|Tổng quan).*?(?=II\.|III\.|Thời lượng|$)";
  "(?:Giới thiệu|Tổng quan)(?:\s+về)?\s+(?:khóa học|khoá học).*?(?=II\.|Thời lượng|Mục tiêu|$)";
  "OpenStack là.*?(?=II\.|Thời lượng|$)";
  "Khóa học.*?cung cấp.*?(?=II\.|Thời lượng|Mục tiêu|$)";
  "Trong bối cảnh.*?(?=II\.|Thời lượng|Mục tiêu|$)"
]%string.

Definition duration_patterns : list string := [
  "II\.\s*Thời lượng.*?(?=III\.|IV\.|Hình thức|Mục tiêu|$)";
  "Thời lượng(?:\s+khóa học)?:.*?(?:giờ|ngày|tuần).*?(?=III\.|IV\.|Hình thức|Mục tiêu|Đối tượng|$)"
]%string.

Definition meaningful_patterns : list string := [
  "(?:khóa học|khoá học).*?(?:cung cấp|giúp|trang bị).*?(?=Mục tiêu|Đối tượng|\d+\.|$)";
  "[A-Z][a-z]+ là.*?(?=Mục tiêu|Đối tượng|\d+\.|$)";
  "Trong bối cảnh.*?(?=Mục tiêu|Đối tượng|\d+\.|$)"
]%string.

(** Section 1: introduction and duration, without the training format.
    The argument [raw_sections] of the source is not read by any of the
    three [_extract_precise_section] functions. *)
Definition _extract_precise_section1 (text : str) : str :=
  (* 1. the introduction *)
  let intro_text :=
    match search_first SI intro_patterns text with
    | Some m =>
      sub_all IGNORECASE
        ["^I\.\s*(?:Giới thiệu|Tổng quan).*?:\s*";
         "^(?:Giới thiệu|Tổng quan).*?:\s*"]%string
        (strip (group0 text m))
    | None => []
    end in
  (* 2. the duration, without the training format *)
  let duration_text :=
    match search_first SI duration_patterns text with
    | Some m =>
      let d :=
        sub_all IGNORECASE
          ["^II\.\s*Thời lượng.*?:\s*"; "^Thời lượng.*?:\s*"]%string
          (strip (group0 text m)) in
      sub_all SI ["III\.\s*Hình thức.*"; "Hình thức đào tạo.*"]%string d
    | None => []
    end in
  let parts :=
    labelled "Tổng quan khóa học:" intro_text
    ++ labelled "Thời lượng:" duration_text in
  let result := join [nl; nl] parts in
  let result :=
    if too_short result 50 then
      match search_first SI meaningful_patterns text with
      | Some m => utf8 "Tổng quan khóa học:" ++ [nl] ++ strip (group0 text m)
      | None => result
      end
    else result in
  or_default result "Thông tin giới thiệu và thời lượng khóa học.".

Definition objectives_patterns : list string := [
  "IV\.\s*Mục tiêu.*?(?=V\.|VI\.|Đối tượng|$)";
  "Mục tiêu khóa học.*?(?=V\.|Đối tượng|Điều kiện|$)";
  "Kết thúc khóa học.*?(?=V\.|Đối tượng|$)";
  (* Fallback: any text about objectives *)
  ".*?học viên.*?(?:nắm|hiểu|có thể|sẽ).*?(?=Đối tượng|Điều kiện|Nội dung|$)"
]%string.

Definition audience_patterns : list string := [
  "III\.\s*Đối tượng.*?(?=IV\.|V\.|Yêu cầu|Điều kiện|Nội dung|$)";
  "V\.\s*Đối tượng.*?(?=VI\.|VII\.|Điều kiện|Nội dung|$)";
  "Đối tượng(?:\s+tham gia|\s+học)?.*?(?=IV\.|V\.|VI\.|Yêu cầu|Điều kiện|Nội dung|$)";
  "Đối tượng học\s*:.*?(?=IV\.|V\.|Yêu cầu|Điều kiện|Nội dung|$)"
]%string.

Definition prereq_patterns : list string := [
  "IV\.\s*(?:Yêu cầu|Điều kiện).*?(?=V\.|VI\.|Nội dung|$)";
  "VI\.\s*Điều kiện.*?(?=VII\.|VIII\.|Nội dung|$)";
  "(?:Điều kiện tiên quyết|Yêu cầu trước khóa học).*?(?=V\.|VI\.|VII\.|Nội dung|$)"
]%string.

Definition fallback_patterns : list string := [
  ".*?(?:Quản trị|Admin|Developer|Kỹ sư|Chuyên viên).*?(?=Nội dung|\d+\.|$)";
  ".*?(?:kiến thức|kinh nghiệm|yêu cầu).*?(?:Linux|cơ bản|nền tảng).*?(?=Nội dung|\d+\.|$)"
]%string.

(** One part of section 2: the first candidate that matches, stripped,
    with its header removed. *)
Definition located (ps headers : list string) (text : str) : str :=
  match search_first SI ps text with
  | Some m => sub_all IGNORECASE headers (strip (group0 text m))
  | None => []
  end.

(** Section 2: objectives, audience and prerequisites *)
Definition _extract_precise_section2 (text : str) : str :=
  let objectives_text :=
    located objectives_patterns
      ["^IV\.\s*Mục tiêu.*?:\s*"; "^Mục tiêu.*?:\s*"]%string text in
  let audience_text :=
    located audience_patterns
      ["^(?:III\.|V\.)\s*Đối tượng.*?:\s*"; "^Đối tượng.*?:\s*"]%string
      text in
  let prereq_text :=
    located prereq_patterns
      ["^(?:IV\.|VI\.)\s*(?:Điều kiện|Yêu cầu).*?:\s*";
       "^(?:Điều kiện|Yêu cầu).*?:\s*"]%string text in
  let parts :=
    labelled "Mục tiêu khóa học:" objectives_text
    ++ labelled "Đối tượng tham gia:" audience_text
    ++ labelled "Điều kiện tiên quyết:" prereq_text in
  let result := join [nl; nl] parts in
  let result :=
    if too_short result 50 then
      match search_first SI fallback_patterns text with
      | Some m => utf8 "Đối tượng và yêu cầu:" ++ [nl] ++ strip (group0 text m)
      | None => result
      end
    else result in
  or_default result "Thông tin mục tiêu và đối tượng khóa học.".

Definition content_patterns : list string := [
  "V\.\s*Nội dung.*";
  "VI\.\s*Nội dung.*";
  "VII\.\s*Nội dung.*";
  "Nội dung khóa học.*";
  "\d+\.\s*(?:Introduction|Tổng quan|Overview).*";
  "Module\s*1.*";
  "Chương\s*1.*"
]%string.

Definition module_patterns : list string := [
  "1\.\s*.*?(?:\n2\.|$)";
  "Module.*?1.*";
  "Introduction to.*";
  "Hadoop.*Installation.*";
  "HDFS.*Components.*"
]%string.

(** Section 3: the course content *)
Definition _extract_precise_section3 (text : str) : str :=
  let content_text :=
    match search_first SI content_patterns text with
    | Some m =>
      sub_all IGNORECASE
        ["^(?:V\.|VI\.|VII\.)\s*Nội dung.*?:\s*";
         "^Nội dung khóa học\s*:\s*"]%string
        (strip (group0 text m))
    | None => []
    end in
  let content_text :=
    if too_short content_text 100 then
      match search_first SI module_patterns text with
      | Some m => take 1000 (drop (m_start m) text)
      | None => content_text
      end
    else content_text in
  match content_text with
  | [] => utf8 "Nội dung khóa học: Thông tin chi tiết về chương trình học."
  | _ => utf8 "Nội dung khóa học:" ++ [nl] ++ content_text
  end.

(** The three [_extract_fallback_section] methods.  No method of the
    class calls them. *)
Definition fallback_part (label : string) (ps : list string) (text : str)
    : list str :=
  match search_first DOTALL ps text with
  | Some m => [utf8 label ++ strip (group0 text m)]
  | None => []
  end.

Definition joined_or (parts : list str) (default : string) : str :=
  match parts with
  | [] => utf8 default
  | _ => join [nl; nl] parts
  end.

Definition _extract_fallback_section1 (text : str) : str :=
  let content_parts :=
    fallback_part "Tổng quan: "
      ["(?i)(?:tổng quan|giới thiệu|mô tả).*?(?=(?:thời lượng|mục tiêu|\n\n))";
       "(?i)trong bối cảnh.*?(?=(?:thời lượng|mục tiêu|\n\n))"]%string text
    ++ fallback_part "Thời lượng: "
      ["(?i)thời lượng.*?(?:giờ|ngày|tuần).*?(?=(?:mục tiêu|\n\n))";
       "(?i)\d+\s*(?:giờ|ngày|tuần)"]%string text in
  joined_or content_parts "Thông tin giới thiệu và thời lượng khóa học.".

Definition _extract_fallback_section2 (text : str) : str :=
  let content_parts :=
    fallback_part "Mục tiêu: "
      ["(?i)mục tiêu.*?(?=(?:đối tượng|nội dung|\n\n))";
       "(?i)sau khóa học.*?(?=(?:đối tượng|nội dung|\n\n))"]%string text
    ++ fallback_part "Đối tượng: "
      ["(?i)đối tượng.*?(?=(?:nội dung|điều kiện|\n\n))";
       "(?i)học viên.*?(?=(?:nội dung|điều kiện|\n\n))"]%string text in
  joined_or content_parts "Thông tin mục tiêu và đối tượng khóa học.".

Definition _extract_fallback_section3 (text : str) : str :=
  match search_first DOTALL
          ["(?i)nội dung.*?(?:module|chương).*"; "(?i)chương trình.*";
           "(?i)module\s*\d+.*"]%string text with
  | Some m => utf8 "Nội dung khóa học:" ++ [nl] ++ strip (group0 text m)
  | None => utf8 "Nội dung khóa học: Thông tin chi tiết về chương trình học."
  end.

(** [_create_fixed_sections]: the three fixed sections, from the text
    cleaned once more. *)
Definition _create_fixed_sections (full_text : str) : gmap string str :=
  let cleaned_full_text := TextCleaner.clean_text full_text in
  let fixed_sections : gmap string str := ∅ in
  let fixed_sections :=
    <["section1_intro_duration" :=
        _extract_precise_section1 cleaned_full_text]> fixed_sections in
  let fixed_sections :=
    <["section2_objectives_audience" :=
        _extract_precise_section2 cleaned_full_text]> fixed_sections in
  <["section3_content" :=
      _extract_precise_section3 cleaned_full_text]> fixed_sections.

(** The loop of [extract_course_info] over [self.section_configs.keys()]:
    a raw section is kept when it has more than 30 characters. *)
Fixpoint raw_sections_loop (cleaned_text : str) (names : list string)
    (raw_sections : gmap string str) : result (gmap string str) :=
  match names with
  | [] => Ok raw_sections
  | section_name :: rest =>
    content <- extract_section_content cleaned_text section_name ;;
    let raw_sections :=
      match content with
      | [] => raw_sections
      | _ =>
        if 30 <? length (strip content)
        then <[section_name := content]> raw_sections
        else raw_sections
      end in
    raw_sections_loop cleaned_text rest raw_sections
  end.

Definition extract_course_info (text : str) : result (gmap string str) :=
  match text with
  | [] => Ok ∅
  | _ =>
    if length (strip text) <? 100 then Ok ∅
    else
      let cleaned_text := TextCleaner.clean_text text in
      raw_sections <-
        raw_sections_loop cleaned_text (map fst section_configs) ∅ ;;
      Ok (_create_fixed_sections cleaned_text)
  end.

End Extractor.
End CourseInfoExtractor.

(** ** [PDFLoader.load_pdf_file]  (pdf_loader.py) *)

Module PDFLoader.

Record Document := Doc {
  page_content : str;
  metadata : gmap string str
}.

(** The local table [section_configs] of [load_pdf_file]: section key,
    title and type, in the order of the dictionary. *)
Definition section_configs : list (string * (string * string)) := [
  ("section1_intro_duration", ("Giới thiệu và Thời lượng", "intro_duration"));
  ("section2_objectives_audience",
     ("Mục tiêu và Đối tượng", "objectives_audience"));
  ("section3_content", ("Nội dung Khóa học", "course_content"))
]%string.

Section Loader.
Context {U : UnicodeDB}.

(** One round of the loop over [section_configs.items()]. *)
Definition section_document (source course_name : str)
    (course_info : gmap string str)
    (entry : string * (string * string)) : Document :=
  let '(section_key, (title, type)) := entry in
  let content :=
    default (utf8 "Thông tin " ++ utf8 title ++ utf8 " của khóa học.")
      (course_info !! section_key) in
  Doc content
    (<["section_type" := utf8 type]>
     (<["section_title" := utf8 title]>
     (<["section" := utf8 section_key]>
     (<["course_name" := course_name]>
     (<["source" := source]> ∅))))).

(** The documents made from the result of the extraction.  [chunks] is
    what [fallback_chunking] (the text splitter of an external library)
    returns for the pages. *)
Definition build_documents (source course_name : str)
    (course_info : gmap string str) (chunks : list Document)
    : list Document :=
  if bool_decide (course_info ≠ ∅) && (2 <=? size course_info)
  then map (section_document source course_name course_info) section_configs
  else chunks.

(** [load_pdf_file] after the pages have been read: [source] is the base
    name of the file and [course_name] the base name without extension.
    Any exception is caught and gives the empty list. *)
Definition load_pdf_file (source course_name : str) (pages : list str)
    (chunks : list Document) : list Document :=
  let full_text := join [nl] pages in
  match CourseInfoExtractor.extract_course_info full_text with
  | Ok course_info => build_documents source course_name course_info chunks
  | Raise _ => []
  end.

(** [create_course_summary]  (pdf_loader.py) *)

Definition priority_sections : list string :=
  ["overview"; "objectives"; "duration"; "audience"; "prerequisites";
   "content"]%string.

(** The text of one section in the summary: the first 200 characters,
    cut after the last sentence end when that is beyond index 100, else
    followed by an ellipsis. *)
Definition summary_text (content : str) : str :=
  let summary_text := take 200 content in
  if 200 <? length content then
    let last_period := str_rfind (ch ".") summary_text in
    let last_exclaim := str_rfind (ch "!") summary_text in
    let last_question := str_rfind (ch "?") summary_text in
    let sentence_end :=
      Z.max (Z.max last_period last_exclaim) last_question in
    if (100 <? sentence_end)%Z
    then zslice 0 (sentence_end + 1) summary_text
    else summary_text ++ utf8 "..."
  else summary_text.

(** The loop of [create_course_summary] over [priority_sections]. *)
Fixpoint summary_loop (course_info : gmap string str) (names : list string)
    (summary_lines : list str) : result (list str) :=
  match names with
  | [] => Ok summary_lines
  | section_name :: rest =>
    match course_info !! section_name with
    | Some content =>
      section_config <-
        CourseInfoExtractor.lookup_config section_name
          CourseInfoExtractor.section_configs ;;
      let section_title := CourseInfoExtractor.title section_config in
      summary_loop course_info rest
        (summary_lines
         ++ [section_title ++ utf8 ": " ++ summary_text content ++ [nl]])
    | None => summary_loop course_info rest summary_lines
    end
  end.

Definition create_course_summary (course_name : str)
    (course_info : gmap string str) : result str :=
  summary_lines <-
    summary_loop course_info priority_sections
      [utf8 "Khóa học: " ++ course_name ++ [nl]] ;;
  Ok (strip (join [nl] summary_lines)).

End Loader.
End PDFLoader.

(** ** [AICourseProcessor]  (ai_course_processor.py) *)

Module AICourseProcessor.

(** The dictionary with the keys language_detected and course_sections. *)
Record processed := Processed {
  language_detected : str;
  course_sections : gmap string str
}.

(** [_fallback_processing]: the content cut into three parts. *)
Definition _fallback_processing (content : str) : processed :=
  let content_length := length content in
  let third := content_length / 3 in
  Processed (utf8 "vi")
    (<["detailed_content" := drop (2 * third) content]>
     (<["objectives_audience" := slice third (2 * third) content]>
     (<["overview" := take third content]> ∅))).

Section Parse.
(** [json.loads] is the parser of the standard library: [None] stands
    for its [JSONDecodeError]. *)
Variable json : Type.
Variable json_loads : str -> option json.

(** What [_parse_ai_response] returns: the parsed value, or the
    dictionary built from the text of the response. *)
Inductive parsed :=
| Parsed (value : json)
| Sliced (d : processed).

Definition _parse_ai_response (response_text : str) : parsed :=
  let fallback :=
    Sliced (Processed (utf8 "vi")
      (<["detailed_content" := drop 1000 response_text]>
       (<["objectives_audience" := slice 500 1000 response_text]>
       (<["overview" := take 500 response_text]> ∅)))) in
  let start_idx := str_find (ch "{") response_text in
  let end_idx := (str_rfind (ch "}") response_text + 1)%Z in
  if negb (start_idx =? -1)%Z && negb (end_idx =? -1)%Z then
    let json_str := zslice start_idx end_idx response_text in
    match json_loads json_str with
    | Some value => Parsed value
    | None => fallback
    end
  else fallback.

End Parse.
End AICourseProcessor.

(** ** [TopicVectorDB]  (topic_vectordb.py) *)

Module TopicVectorDB.
Import PDFLoader.
Section Fallback.
Context {U : UnicodeDB}.



(** The quality check of [_process_topic_folder] on the documents of a
    file: [(has_meaningful_content, short_sections)] after the loop. *)
Definition quality_step (acc : bool * nat) (doc : Document) : bool * nat :=
  let '(has_meaningful_content, short_sections) := acc in
  let content := strip (page_content doc) in
  if 50 <? length content then
    if startswith (utf8 "Thông tin") content && (length content <? 200)
    then (has_meaningful_content, S short_sections)
    else (true, short_sections)
  else acc.

Definition should_process (documents : list Document) : bool :=
  let '(has_meaningful_content, short_sections) :=
    fold_left quality_step documents (false, 0) in
  has_meaningful_content
  || ((length documents =? 3) && (short_sections <=? 3)).

End Fallback.
End TopicVectorDB.

(** * Properties *)

Import CourseInfoExtractor.

(** ** Vocabulary of the statements *)

Definition section_keys : gset string :=
  {[ "section1_intro_duration"; "section2_objectives_audience";
     "section3_content" ]}%string.

(** Exactly the three section keys, each with a non-empty text. *)
Definition three_sections (m : gmap string str) : Prop :=
  dom m = section_keys /\ forall k s, m !! k = Some s -> s <> [].

(** The three placeholder texts. *)
Definition placeholder_sections : gmap string str :=
  <["section3_content" :=
      utf8 "Nội dung khóa học: Thông tin chi tiết về chương trình học."]>
  (<["section2_objectives_audience" :=
      utf8 "Thông tin mục tiêu và đối tượng khóa học."]>
  (<["section1_intro_duration" :=
      utf8 "Thông tin giới thiệu và thời lượng khóa học."]> ∅)).

(** The texts of the three sections, one after the other. *)
Definition sections_concat (m : gmap string str) : str :=
  default [] (m !! "section1_intro_duration"%string)
  ++ default [] (m !! "section2_objectives_audience"%string)
  ++ default [] (m !! "section3_content"%string).

(** No candidate pattern of the three slot extractors matches [t]. *)
Definition no_headers {U : UnicodeDB} (t : str) : bool :=
  forallb (fun ps => bool_decide (search_first SI ps t = None))
    [intro_patterns; duration_patterns; meaningful_patterns;
     objectives_patterns; audience_patterns; prereq_patterns;
     fallback_patterns; content_patterns; module_patterns].

Definition metadata_keys : gset string :=
  {[ "source"; "course_name"; "section"; "section_title";
     "section_type" ]}%string.

(** The section key and the title recorded in the metadata of a document. *)
Definition section_of (d : PDFLoader.Document) : option str :=
  PDFLoader.metadata d !! "section"%string.

Definition title_of (d : PDFLoader.Document) : option str :=
  PDFLoader.metadata d !! "section_title"%string.

(** ** Concrete texts *)

(** Plain prose without any section header, 111 characters. *)
Definition prose : str :=
  utf8 "The quick brown fox jumps over the lazy dog and keeps running through the quiet forest until the sun goes down.".

(** One hundred spaces. *)
Definition blank : str := repeat (ch " ") 100.

(** A text of 23 characters. *)
Definition short_text : str := utf8 "Khóa học Cloud: 40 giờ.".

(** The line of the example: a module reference and an address. *)
Definition module_address_line : str := utf8 "Module 3 — Tầng 5, Quận 1".

(** An address followed by a module reference, on one line. *)
Definition address_then_module : str := utf8 "Tầng 5 Module 3 nâng cao".

(** A duration statement, a training-format heading with its body, and
    the objectives. *)
Definition training_format_body : str :=
  utf8 "Khóa học được giảng dạy trực tuyến, giúp học viên chủ động thời gian.".

Definition duration_then_format : str :=
  utf8 "Thời lượng: 40 giờ. " ++ utf8 "Hình thức đào tạo: "
  ++ training_format_body ++ utf8 " Mục tiêu khóa học: nắm vững kiến thức.".

(** "II. Thời lượng" at offset 0 and "III. Hình thức" at offset 40. *)
Definition duration_format_headings : str :=
  utf8 "II. Thời lượng: 40 giờ trong 5 ngày học.III. Hình thức: trực tuyến".

(** Twenty capital I with dot above (U+0130), then a header. *)
Definition dotted_capitals : str := repeat 304%N 20 ++ utf8 "tổng quan".

(** A split syllable with two spaces: one space is left after the first
    normalization, and the table of fixes then applies. *)
Definition split_syllable : str := utf8 "gi  ờ abcdefghijk".
(** ** Normalized texts

    The vocabulary of the statements about texts that [clean_text] has
    already normalized. *)

(** What the proofs use of the character tables. *)
Record unicode_laws (U : UnicodeDB) : Prop := {
  law_space : isspace 32 = true;
  law_newline : isspace 10 = true;
  law_space_digit : forall c, isspace c = true -> isdecimal c = false;
  law_dot_space : isspace 46 = false;
  law_dot_digit : isdecimal 46 = false;
  law_bullet_space : isspace 8226 = false;
  law_bullet_digit : isdecimal 8226 = false
}.

Section Shapes.
Context {U : UnicodeDB}.

(** The length of the longest prefix of [s] whose characters satisfy [ok]. *)
Fixpoint span (ok : char -> bool) (s : str) : nat :=
  match s with
  | c :: s1 => if ok c then S (span ok s1) else 0
  | [] => 0
  end.

(** The state [n] characters further. *)
Fixpoint eat (n : nat) (s : mstate) : mstate :=
  match n with
  | O => s
  | S n1 =>
    match ms_rest s with
    | c :: rest => eat n1 (advance s c rest)
    | [] => s
    end
  end.

(** No flag: the flags of every [re.sub] of steps 3 to 5. *)
Definition F0 : re_flags := Flags false false false.

(** The classes [\s] and [\d]. *)
Definition cls_space : regex := RSet false [CSpace].
Definition cls_digit : regex := RSet false [CDigit].

(** The state in which [match_here] starts the matcher. *)
Definition init (pos : nat) (prev : option char) (rest : str) : mstate :=
  MState (N.of_nat pos) prev rest [].

(** The result of [match_here] from the final state of the matcher. *)
Definition found (pos : nat) (s : mstate) : rematch :=
  Match pos (N.to_nat (ms_pos s)) (ms_caps s).

(** The pattern [(\d+)\.\s*], parsed. *)
Definition number_re : regex :=
  RSeq (RGroup 1 (RSeq cls_digit (RStar true cls_digit)))
       (RSeq (RChar 46) (RStar true cls_space)).

(** What follows the digits of [(\d+)\.\s*]: the group is closed, then
    the dot and the spaces. *)
Definition after_digits (p0 : N) (sd : mstate) : option mstate :=
  rmatch F0 (RSeq (RChar 46) (RStar true cls_space))
    (set_cap 1 (p0, ms_pos sd) sd) Some.

(** The text is empty or begins with a character that is not a space. *)
Definition nonspace_head (s : str) : Prop :=
  match s with c :: _ => isspace c = false | [] => True end.

(** The text is empty or begins with the character U+0020. *)
Definition space_head (s : str) : Prop :=
  match s with c :: _ => c = 32%N | [] => True end.

(** Every whitespace character is a single U+0020. *)
Fixpoint single_spaced (s : str) : Prop :=
  match s with
  | [] => True
  | c :: r => (isspace c = true -> c = 32%N /\ nonspace_head r)
              /\ single_spaced r
  end.

(** Every bullet is followed by a space, or ends the text. *)
Fixpoint bullets_spaced (s : str) : Prop :=
  match s with
  | [] => True
  | c :: r => (c = 8226%N -> space_head r) /\ bullets_spaced r
  end.

(** Every dot after a digit is followed by a space, or ends the text;
    [pd] tells whether the character before the text is a digit. *)
Fixpoint numbers_spaced (pd : bool) (s : str) : Prop :=
  match s with
  | [] => True
  | c :: r => (pd = true -> c = 46%N -> space_head r)
              /\ numbers_spaced (isdecimal c) r
  end.

(** The run of digits at the start of the text is followed by a dot. *)
Definition dot_after_run (s : str) : Prop :=
  match drop (span isdecimal s) s with
  | c :: _ => c = 46%N
  | [] => False
  end.

(** The patterns [\s+], [•\s*] and [(\d+)\.\s*], compiled. *)
Definition spaces_pat : pattern :=
  Pattern false (RSeq cls_space (RStar true cls_space)).
Definition bullet_pat : pattern :=
  Pattern false (RSeq (RChar 8226) (RStar true cls_space)).
Definition number_pat : pattern := Pattern false number_re.

(** The template [\1. ], parsed. *)
Definition number_template : list titem := [TGroup 1; TLit 46%N; TLit 32%N].

(** The space that [•\s*] adds after a bullet at the end of the text. *)
Fixpoint bullet_tail (s : str) : str :=
  match s with
  | [] => []
  | c :: r =>
    match r with
    | [] => if (c =? 8226)%N then [32%N] else []
    | _ => bullet_tail r
    end
  end.

(** The space that [(\d+)\.\s*] adds after a digit and a dot at the end
    of the text. *)
Fixpoint number_tail (pd : bool) (s : str) : str :=
  match s with
  | [] => []
  | c :: r =>
    match r with
    | [] => if pd && (c =? 46)%N then [32%N] else []
    | _ => number_tail (isdecimal c) r
    end
  end.

(** The items of the class of step 3 of [clean_text], and the pattern,
    compiled. *)
Definition filter_items : list cset_item :=
  [CWord; CSpace; CRange 192 7929; CChar 10; CChar 46; CChar 44; CChar 33;
   CChar 63; CChar 45; CChar 8226; CChar 58; CChar 40; CChar 41]%N.

Definition filter_pat : pattern := Pattern false (RSet true filter_items).

(** The characters that the filter of step 3 keeps. *)
Definition allowed (c : char) : Prop :=
  set_matches F0 true filter_items c = false.

(** The items of the class [[\.!?\)\:]] of [remove_incomplete_lines]. *)
Definition punctuation_items : list cset_item :=
  [CChar 46; CChar 33; CChar 63; CChar 41; CChar 58]%N.

(** Step 3 of [clean_text]. *)
Definition filter_step (text : str) : str :=
  re_sub NOFLAGS (utf8 "[^\w\sÀ-ỹ\n\.\,\!\?\-\•\:\(\)]") (utf8 " ") text.

(** The normalized shape: what steps 3 to 6 establish. *)
Definition normalized (y : str) : Prop :=
  single_spaced y /\ bullets_spaced y /\ numbers_spaced false y
  /\ Forall allowed y /\ strip y = y /\ 10 <= length y.

End Shapes.

(** ** Progress of the matcher *)

(** The state [s1] is [n] characters after the state [s]. *)
Definition ahead (n : nat) (s s1 : mstate) : Prop :=
  ms_pos s1 = (ms_pos s + N.of_nat n)%N
  /\ ms_rest s1 = drop n (ms_rest s)
  /\ n <= length (ms_rest s).

(** The expression has no capturing group. *)
Fixpoint group_free (r : regex) : bool :=
  match r with
  | RSeq r1 r2 | RAlt r1 r2 => group_free r1 && group_free r2
  | RStar _ r1 => group_free r1
  | RGroup _ _ => false
  | _ => true
  end.

(** A letter class in group 1, white space, a vowel class in group 2:
    the shape of the generic rules of [fix_vietnamese_encoding]. *)
Definition spaced_pair (letters vowels : list cset_item) : regex :=
  RSeq (RGroup 1 (RSet false letters))
    (RSeq (RSeq cls_space (RStar true cls_space))
       (RGroup 2 (RSet false vowels))).

(** The characters of the lines, with one separator for each line. *)
Fixpoint lines_size (lines : list str) : nat :=
  match lines with
  | [] => 0
  | l :: rest => S (length l) + lines_size rest
  end.

(** ** Stripping *)

Section StringFacts.
Context {U : UnicodeDB}.

Lemma length_lstrip (s : str) : length (lstrip s) <= length s.
Proof.
  induction s as [|c s IH]; simpl; [lia|].
  destruct (isspace c); simpl; lia.
Qed.

Lemma length_strip (s : str) : length (strip s) <= length s.
Proof.
  unfold strip, rstrip.
  rewrite length_rev.
  etransitivity; [apply length_lstrip|].
  rewrite length_rev. apply length_lstrip.
Qed.

Lemma strip_nil : strip [] = [].
Proof. reflexivity. Qed.

End StringFacts.

(** ** The extractor never raises *)

Lemma lookup_config_known (name : string) (l : list (string * section_config)) :
  In name (map fst l) -> exists c, lookup_config name l = Ok c.
Proof.
  induction l as [|[k c] l IH]; simpl; [tauto|].
  intros [->|Hin].
  - rewrite String.eqb_refl. eauto.
  - destruct (String.eqb k name); eauto.
Qed.

Section NoRaise.
Context {U : UnicodeDB}.

Lemma find_section_boundaries_known (text : str) (name : string) :
  In name (map fst section_configs) ->
  exists b, find_section_boundaries text name = Ok b.
Proof.
  intros Hin. destruct (lookup_config_known _ _ Hin) as [c Hc].
  unfold find_section_boundaries. rewrite Hc. cbn [bind].
  destruct (find_start c (str_lower text)); eauto.
Qed.

Lemma extract_section_content_known (text : str) (name : string) :
  In name (map fst section_configs) ->
  exists s, extract_section_content text name = Ok s.
Proof.
  intros Hin.
  destruct (find_section_boundaries_known text name Hin) as [b Hb].
  destruct (lookup_config_known _ _ Hin) as [c Hc].
  unfold extract_section_content. rewrite Hb. cbn [bind].
  destruct b as [[start_pos end_pos]|]; [|eauto].
  rewrite Hc. cbn [bind]. eauto.
Qed.

Lemma raw_sections_loop_known (text : str) (names : list string) :
  (forall n, In n names -> In n (map fst section_configs)) ->
  forall acc, exists raw, raw_sections_loop text names acc = Ok raw.
Proof.
  induction names as [|n names IH]; intros Hall acc; simpl; [eauto|].
  destruct (extract_section_content_known text n) as [s Hs].
  { apply Hall. now left. }
  rewrite Hs. cbn [bind]. apply IH. intros n' Hn'. apply Hall. now right.
Qed.

(** The result of [extract_course_info], by cases on its guard. *)
Lemma extract_course_info_cases (text : str) :
  (length (strip text) < 100 /\ extract_course_info text = Ok ∅)
  \/ (100 <= length (strip text)
      /\ extract_course_info text
         = Ok (_create_fixed_sections (TextCleaner.clean_text text))).
Proof.
  unfold extract_course_info.
  destruct text as [|c text].
  - left. split; [simpl; lia|reflexivity].
  - destruct (Nat.ltb_spec (length (strip (c :: text))) 100) as [Hlt|Hge].
    + left. split; [exact Hlt|reflexivity].
    + right. split; [exact Hge|].
      destruct (raw_sections_loop_known (TextCleaner.clean_text (c :: text))
                  (map fst section_configs) (fun _ H => H) ∅) as [raw Hraw].
      rewrite Hraw. reflexivity.
Qed.

End NoRaise.

(** ** The three fixed sections *)

Section FixedSections.
Context {U : UnicodeDB}.

Lemma or_default_nonempty (result : str) (d : string) :
  utf8 d <> [] -> or_default result d <> [].
Proof. intros Hd. destruct result; simpl; [exact Hd|discriminate]. Qed.

Lemma section1_nonempty (t : str) : _extract_precise_section1 t <> [].
Proof.
  unfold _extract_precise_section1. cbv zeta.
  apply or_default_nonempty. vm_compute. discriminate.
Qed.

Lemma section2_nonempty (t : str) : _extract_precise_section2 t <> [].
Proof.
  unfold _extract_precise_section2. cbv zeta.
  apply or_default_nonempty. vm_compute. discriminate.
Qed.

Lemma section3_nonempty (t : str) : _extract_precise_section3 t <> [].
Proof.
  unfold _extract_precise_section3. cbv zeta.
  match goal with |- match ?x with _ => _ end <> _ => destruct x end.
  - vm_compute. discriminate.
  - intros H. apply (f_equal (@length char)) in H.
    rewrite !length_app in H. vm_compute in H. discriminate.
Qed.

Lemma create_fixed_sections_dom (t : str) :
  dom (_create_fixed_sections t) = section_keys.
Proof.
  unfold _create_fixed_sections, section_keys. cbv zeta.
  rewrite !dom_insert_L, dom_empty_L. set_solver.
Qed.

Lemma create_fixed_sections_three (t : str) :
  three_sections (_create_fixed_sections t).
Proof.
  split; [apply create_fixed_sections_dom|].
  unfold _create_fixed_sections. cbv zeta. intros k s Hk.
  apply lookup_insert_Some in Hk as [[_ <-]|[_ Hk]];
    [apply section3_nonempty|].
  apply lookup_insert_Some in Hk as [[_ <-]|[_ Hk]];
    [apply section2_nonempty|].
  apply lookup_insert_Some in Hk as [[_ <-]|[_ Hk]];
    [apply section1_nonempty|].
  rewrite lookup_empty in Hk. discriminate.
Qed.

Lemma section_keys_size : size section_keys = 3.
Proof. reflexivity. Qed.

End FixedSections.

Section Assembler.
Context {U : UnicodeDB}.

Lemma no_headers_section1 (t : str) :
  search_first SI intro_patterns t = None ->
  search_first SI duration_patterns t = None ->
  search_first SI meaningful_patterns t = None ->
  _extract_precise_section1 t
  = utf8 "Thông tin giới thiệu và thời lượng khóa học.".
Proof.
  intros Hi Hd Hm. unfold _extract_precise_section1.
  rewrite Hi, Hd. cbn [labelled app join too_short]. rewrite Hm.
  reflexivity.
Qed.

Lemma no_headers_section2 (t : str) :
  search_first SI objectives_patterns t = None ->
  search_first SI audience_patterns t = None ->
  search_first SI prereq_patterns t = None ->
  search_first SI fallback_patterns t = None ->
  _extract_precise_section2 t
  = utf8 "Thông tin mục tiêu và đối tượng khóa học.".
Proof.
  intros Ho Ha Hp Hf. unfold _extract_precise_section2, located.
  rewrite Ho, Ha, Hp. cbn [labelled app join too_short]. rewrite Hf.
  reflexivity.
Qed.

Lemma no_headers_section3 (t : str) :
  search_first SI content_patterns t = None ->
  search_first SI module_patterns t = None ->
  _extract_precise_section3 t
  = utf8 "Nội dung khóa học: Thông tin chi tiết về chương trình học.".
Proof.
  intros Hc Hm. unfold _extract_precise_section3.
  rewrite Hc. cbn [too_short]. rewrite Hm. reflexivity.
Qed.

(** Without any match each slot extractor returns its placeholder. *)
Lemma no_headers_placeholders (full_text : str) :
  no_headers (TextCleaner.clean_text full_text) = true ->
  _create_fixed_sections full_text = placeholder_sections.
Proof.
  unfold no_headers. cbn [forallb]. rewrite !andb_true_iff, !bool_decide_eq_true.
  intros (Hi & Hd & Hm & Ho & Ha & Hp & Hf & Hc & Hmod & _).
  unfold _create_fixed_sections, placeholder_sections. cbv zeta.
  rewrite (no_headers_section1 _ Hi Hd Hm),
          (no_headers_section2 _ Ho Ha Hp Hf),
          (no_headers_section3 _ Hc Hmod).
  reflexivity.
Qed.

(** [extract_course_info] returns the empty map for a text of fewer
    than 100 characters, and never raises. *)
Lemma extract_course_info_short (text : str) :
  length text < 100 -> extract_course_info text = Ok ∅.
Proof.
  intros Hlen. destruct (extract_course_info_cases text) as [[_ H]|[Hge _]].
  - exact H.
  - pose proof (length_strip text). lia.
Qed.

Lemma extract_course_info_total (text : str) :
  exists sections, extract_course_info text = Ok sections.
Proof.
  destruct (extract_course_info_cases text) as [[_ H]|[_ H]]; eauto.
Qed.

Lemma extract_course_info_long (text : str) :
  100 <= length (strip text) ->
  exists sections,
    extract_course_info text = Ok sections /\ three_sections sections.
Proof.
  intros Hlen. destruct (extract_course_info_cases text) as [[Hlt _]|[_ H]].
  - lia.
  - eexists. split; [exact H|]. apply create_fixed_sections_three.
Qed.

Lemma three_sections_size (m : gmap string str) :
  three_sections m -> size m = 3.
Proof.
  intros [Hdom _]. rewrite <- size_dom, Hdom. apply section_keys_size.
Qed.

Lemma extract_course_info_empty_or_three (text : str) (sections : gmap string str) :
  extract_course_info text = Ok sections ->
  sections = ∅ \/ three_sections sections.
Proof.
  intros H. destruct (extract_course_info_cases text) as [[_ H']|[_ H']];
    rewrite H' in H; injection H as <-.
  - now left.
  - right. apply create_fixed_sections_three.
Qed.

End Assembler.

(** ** Section boundaries *)

Section Boundaries.
Context {U : UnicodeDB}.

Lemma tighten_bounds (fl : re_flags) (text : str) (start_pos off lo : nat)
    (end_pos : nat) (p : str) :
  lo <= start_pos + off -> lo <= end_pos <= length text ->
  lo <= tighten fl text start_pos off end_pos p <= length text.
Proof.
  intros Hlo He. unfold tighten.
  destruct (re_search fl p (drop (start_pos + off) text)); lia.
Qed.

Lemma fold_tighten_bounds (fl : re_flags) (text : str) (start_pos off lo : nat)
    (ps : list str) (end_pos : nat) :
  lo <= start_pos + off -> lo <= end_pos <= length text ->
  lo <= fold_left (tighten fl text start_pos off) ps end_pos <= length text.
Proof.
  intros Hlo. revert end_pos.
  induction ps as [|p ps IH]; intros end_pos He; simpl; [exact He|].
  apply IH. now apply tighten_bounds.
Qed.

(** The end of a span is the length of the text or lies at least 50
    characters after its start. *)
Lemma find_section_boundaries_end (text : str) (name : string) (s e : nat) :
  find_section_boundaries text name = Ok (Some (s, e)) ->
  Nat.min (length text) (s + 50) <= e <= length text.
Proof.
  unfold find_section_boundaries.
  destruct (lookup_config name section_configs) as [c|]; cbn [bind];
    [|discriminate].
  destruct (find_start c (str_lower text)) as [start_pos|]; [|discriminate].
  match goal with
  | |- Ok (Some (_, ?x)) = _ -> _ =>
    assert (Hb : Nat.min (length text) (start_pos + 50) <= x <= length text)
      by (apply fold_tighten_bounds; [lia|];
          apply fold_tighten_bounds; lia);
    generalize dependent x
  end.
  intros x Hb H. injection H as -> ->. exact Hb.
Qed.

Lemma startswith_length (p s : str) :
  startswith p s = true -> length p <= length s.
Proof.
  revert s. induction p as [|a p IH]; intros [|b s]; simpl; try lia;
    try discriminate.
  rewrite andb_true_iff. intros [_ H]. apply IH in H. lia.
Qed.

End Boundaries.

(** ** Trimming *)

Section Trim.
Context {U : UnicodeDB}.

Lemma lstrip_idempotent (s : str) : lstrip (lstrip s) = lstrip s.
Proof.
  induction s as [|c s IH]; simpl; [reflexivity|].
  destruct (isspace c) eqn:E; [exact IH|]. simpl. now rewrite E.
Qed.

Lemma lstrip_app_nonspace (l : str) (c : char) :
  isspace c = false -> exists l1, lstrip (l ++ [c]) = l1 ++ [c].
Proof.
  intros Hc. induction l as [|a l IH]; simpl.
  - rewrite Hc. now exists [].
  - destruct (isspace a); [exact IH|]. now exists (a :: l).
Qed.

Lemma lstrip_head (s : str) :
  lstrip s = [] \/ exists c s1, lstrip s = c :: s1 /\ isspace c = false.
Proof.
  induction s as [|a s IH]; simpl; [now left|].
  destruct (isspace a) eqn:E; [exact IH|]. right. eauto.
Qed.

Lemma lstrip_nonspace (c : char) (s : str) :
  isspace c = false -> lstrip (c :: s) = c :: s.
Proof. intros Hc. simpl. now rewrite Hc. Qed.

Lemma strip_idempotent (s : str) : strip (strip s) = strip s.
Proof.
  unfold strip at 2 3.
  destruct (lstrip_head s) as [->|(c & s1 & -> & Hc)]; [reflexivity|].
  unfold rstrip. cbn [rev].
  destruct (lstrip_app_nonspace (rev s1) c Hc) as [l1 Hl1].
  rewrite Hl1, rev_app_distr. cbn [rev app].
  unfold strip. rewrite (lstrip_nonspace c (rev l1) Hc).
  unfold rstrip. cbn [rev]. rewrite rev_involutive.
  rewrite <- Hl1, lstrip_idempotent, Hl1, rev_app_distr. reflexivity.
Qed.

End Trim.

(** ** The document builder *)

Section Builder.
Context {U : UnicodeDB}.

Lemma section_document_keys (source course_name : str)
    (course_info : gmap string str) (entry : string * (string * string)) :
  dom (PDFLoader.metadata
         (PDFLoader.section_document source course_name course_info entry))
  = metadata_keys.
Proof.
  destruct entry as [k [t ty]].
  unfold PDFLoader.section_document, metadata_keys.
  cbn [PDFLoader.metadata]. rewrite !dom_insert_L, dom_empty_L. set_solver.
Qed.

End Builder.

(** ** The claims *)

(** ** Facts about the matcher *)

Lemma span_le (ok : char -> bool) (s : str) : span ok s <= length s.
Proof. induction s as [|c s IH]; simpl; [lia|]. destruct (ok c); simpl; lia. Qed.

Lemma span_drop (ok : char -> bool) (s : str) :
  match drop (span ok s) s with
  | c :: _ => ok c = false
  | [] => True
  end.
Proof.
  induction s as [|c s IH]; simpl; [exact I|].
  destruct (ok c) eqn:E; simpl; [exact IH|exact E].
Qed.

Lemma span_take (ok : char -> bool) (s : str) :
  Forall (fun c => ok c = true) (take (span ok s) s).
Proof.
  induction s as [|c s IH]; simpl; [constructor|].
  destruct (ok c) eqn:E; simpl; [constructor; assumption|constructor].
Qed.

Lemma eat_rest (n : nat) (s : mstate) : ms_rest (eat n s) = drop n (ms_rest s).
Proof.
  revert s. induction n as [|n IH]; intros s; simpl; [now rewrite drop_0|].
  destruct (ms_rest s) as [|c rest] eqn:E; [now rewrite E|].
  rewrite IH. reflexivity.
Qed.

Lemma eat_pos (n : nat) (s : mstate) :
  n <= length (ms_rest s) -> ms_pos (eat n s) = (ms_pos s + N.of_nat n)%N.
Proof.
  revert s. induction n as [|n IH]; intros s Hn; simpl; [lia|].
  destruct (ms_rest s) as [|c rest] eqn:E; simpl in Hn; [lia|].
  rewrite IH; simpl; lia.
Qed.

Lemma eat_caps (n : nat) (s : mstate) : ms_caps (eat n s) = ms_caps s.
Proof.
  revert s. induction n as [|n IH]; intros s; simpl; [reflexivity|].
  destruct (ms_rest s) as [|c rest]; [reflexivity|]. now rewrite IH.
Qed.

Lemma eat_set_cap (n i : nat) (span : N * N) (s : mstate) :
  eat n (set_cap i span s) = set_cap i span (eat n s).
Proof.
  revert s. induction n as [|n IH]; intros s; simpl; [reflexivity|].
  destruct (ms_rest s) as [|c rest]; [reflexivity|].
  rewrite <- IH. reflexivity.
Qed.

Lemma eat_add (n m : nat) (s : mstate) :
  n <= length (ms_rest s) -> eat (n + m) s = eat m (eat n s).
Proof.
  revert s. induction n as [|n IH]; intros s Hn; simpl; [reflexivity|].
  destruct (ms_rest s) as [|c rest] eqn:E; simpl in Hn; [lia|].
  apply IH. simpl. lia.
Qed.

Lemma eat_S (n : nat) (s : mstate) (c : char) (rest : str) :
  ms_rest s = c :: rest -> eat (S n) s = eat n (advance s c rest).
Proof. intros E. simpl. now rewrite E. Qed.

Lemma eat_nil (n : nat) (s : mstate) : ms_rest s = [] -> eat n s = s.
Proof. intros E. destruct n; simpl; [reflexivity|]. now rewrite E. Qed.

Section StarFacts.
Variable ok : char -> bool.
Variable body : mstate -> (mstate -> option mstate) -> option mstate.
Hypothesis body_step : forall s k, body s k = step_char ok s k.

(** A greedy repetition of a character class followed by [k] that
    succeeds after the longest run. *)
Lemma star_class_greedy_some (k : mstate -> option mstate) (res : mstate) :
  forall n s,
    length (ms_rest s) <= n ->
    k (eat (span ok (ms_rest s)) s) = Some res ->
    star_loop true body k n s = Some res.
Proof.
  induction n as [|n IH]; intros s Hn Hk.
  - destruct (ms_rest s) as [|c rest] eqn:E; simpl in Hn; [|lia].
    simpl in Hk. simpl. exact Hk.
  - cbn [star_loop]. rewrite body_step. unfold step_char.
    destruct (ms_rest s) as [|c rest] eqn:E.
    + simpl in Hk. exact Hk.
    + cbn [span] in Hk. destruct (ok c) eqn:Ec.
      * assert (Hp : (ms_pos s <? ms_pos (advance s c rest))%N = true)
          by (apply N.ltb_lt; simpl; lia).
        rewrite Hp. rewrite (IH (advance s c rest)); [reflexivity| |].
        -- simpl in Hn |- *. lia.
        -- rewrite (eat_S _ _ _ _ E) in Hk. exact Hk.
      * exact Hk.
Qed.

(** ... and followed by [k] that fails after every prefix of the run. *)
Lemma star_class_greedy_none (k : mstate -> option mstate) :
  forall n s,
    (forall j, j <= span ok (ms_rest s) -> k (eat j s) = None) ->
    star_loop true body k n s = None.
Proof.
  induction n as [|n IH]; intros s Hk.
  - simpl. apply (Hk 0). lia.
  - cbn [star_loop]. rewrite body_step. unfold step_char.
    destruct (ms_rest s) as [|c rest] eqn:E.
    + apply (Hk 0). lia.
    + cbn [span] in Hk. destruct (ok c) eqn:Ec.
      * assert (Hp : (ms_pos s <? ms_pos (advance s c rest))%N = true)
          by (apply N.ltb_lt; simpl; lia).
        rewrite Hp. rewrite (IH (advance s c rest)).
        -- apply (Hk 0). lia.
        -- intros j Hj. rewrite <- (eat_S _ _ _ _ E). apply Hk.
           simpl in Hj. lia.
      * apply (Hk 0). lia.
Qed.

End StarFacts.

Lemma span_ext (ok1 ok2 : char -> bool) (s : str) :
  (forall c, ok1 c = ok2 c) -> span ok1 s = span ok2 s.
Proof.
  intros H. induction s as [|c s IH]; simpl; [reflexivity|].
  rewrite H, IH. reflexivity.
Qed.

Section MatchFacts.
Context {U : UnicodeDB}.

Lemma set_space (t : char) : set_matches F0 false [CSpace] t = isspace t.
Proof. unfold set_matches, set_has. simpl. now rewrite orb_false_r. Qed.

Lemma set_digit (t : char) : set_matches F0 false [CDigit] t = isdecimal t.
Proof. unfold set_matches, set_has. simpl. now rewrite orb_false_r. Qed.

Lemma span_space (s : str) :
  span (set_matches F0 false [CSpace]) s = span isspace s.
Proof. apply span_ext, set_space. Qed.

Lemma span_digit (s : str) :
  span (set_matches F0 false [CDigit]) s = span isdecimal s.
Proof. apply span_ext, set_digit. Qed.

Lemma match_here_eq (fl : re_flags) (r : regex) (pos : nat)
    (prev : option char) (rest : str) :
  match_here fl (Pattern false r) pos prev rest
  = option_map (found pos)
      (rmatch (Flags (f_i fl || false) (f_m fl) (f_s fl)) r
         (init pos prev rest) Some).
Proof.
  unfold match_here, pat_flags, init. cbn [pat_i pat_re].
  destruct (rmatch _ r _ Some); reflexivity.
Qed.

(** [\s*] at the end of a pattern takes the whole run of spaces. *)
Lemma star_space_end (s : mstate) (n : nat) :
  length (ms_rest s) <= n ->
  star_loop true (rmatch F0 cls_space) Some n s
  = Some (eat (span isspace (ms_rest s)) s).
Proof.
  intros Hn.
  apply (star_class_greedy_some (set_matches F0 false [CSpace]));
    [reflexivity|exact Hn|].
  now rewrite span_space.
Qed.

(** [\s+] *)
Lemma match_here_spaces (pos : nat) (prev : option char) (rest : str) :
  match_here NOFLAGS
    (Pattern false (RSeq cls_space (RStar true cls_space))) pos prev rest
  = match span isspace rest with
    | O => None
    | S n => Some (Match pos (pos + S n) [])
    end.
Proof.
  rewrite match_here_eq. cbn [NOFLAGS f_i f_m f_s orb]. fold F0.
  cbn [rmatch cls_space]. unfold step_char at 1. cbn [init ms_rest].
  destruct rest as [|c rest]; [reflexivity|].
  rewrite set_space. cbn [span]. destruct (isspace c); [|reflexivity].
  fold cls_space. rewrite star_space_end by (simpl; lia).
  cbn [option_map]. unfold found. rewrite eat_caps.
  rewrite eat_pos by (apply span_le).
  cbn [advance init ms_pos ms_caps ms_rest]. do 2 f_equal. lia.
Qed.

End MatchFacts.

Section SubFacts.
Context {U : UnicodeDB}.

(** *** Other patterns of the normalizer *)

(** A bullet and the spaces after it: [•\s*] *)
Lemma match_here_bullet (pos : nat) (prev : option char) (rest : str) :
  match_here NOFLAGS
    (Pattern false (RSeq (RChar 8226) (RStar true cls_space))) pos prev rest
  = match rest with
    | c :: r =>
      if (c =? 8226)%N then Some (Match pos (pos + S (span isspace r)) [])
      else None
    | [] => None
    end.
Proof.
  rewrite match_here_eq. cbn [NOFLAGS f_i f_m f_s orb]. fold F0.
  cbn [rmatch]. unfold step_char at 1. cbn [init ms_rest].
  destruct rest as [|c r]; [reflexivity|].
  unfold lit_matches. cbn [F0 f_i].
  destruct (c =? 8226)%N; [|reflexivity].
  fold F0. rewrite star_space_end by (simpl; lia).
  cbn [option_map]. unfold found. rewrite eat_caps.
  rewrite eat_pos by (apply span_le).
  cbn [advance init ms_pos ms_caps ms_rest]. do 2 f_equal. lia.
Qed.

(** A character class alone *)
Lemma match_here_class (neg : bool) (items : list cset_item) (pos : nat)
    (prev : option char) (rest : str) :
  match_here NOFLAGS (Pattern false (RSet neg items)) pos prev rest
  = match rest with
    | c :: _ =>
      if set_matches F0 neg items c then Some (Match pos (S pos) []) else None
    | [] => None
    end.
Proof.
  rewrite match_here_eq. cbn [NOFLAGS f_i f_m f_s orb]. fold F0.
  cbn [rmatch]. unfold step_char. cbn [init ms_rest].
  destruct rest as [|c r]; [reflexivity|].
  destruct (set_matches F0 neg items c); [|reflexivity].
  cbn [option_map]. unfold found. cbn [advance init ms_pos ms_caps].
  do 2 f_equal. lia.
Qed.

(** A pattern that begins with a literal does not match where the text
    has another character. *)
Lemma match_here_literal (c0 : char) (r : regex) (pos : nat)
    (prev : option char) (rest : str) :
  match rest with c :: _ => c <> c0 | [] => True end ->
  match_here NOFLAGS (Pattern false (RSeq (RChar c0) r)) pos prev rest = None.
Proof.
  intros H. rewrite match_here_eq. cbn [NOFLAGS f_i f_m f_s orb].
  cbn [rmatch]. unfold step_char. cbn [init ms_rest].
  destruct rest as [|c rest]; [reflexivity|].
  unfold lit_matches. cbn [f_i].
  destruct (N.eqb_spec c c0); [contradiction|reflexivity].
Qed.

(** *** The loop of [re.sub] *)

Variable fl : re_flags.
Variable p : pattern.
Variable repl : rematch -> str.

Lemma sub_loop_skip (n : nat) : forall rest pos prev,
  n <= length rest ->
  exists prev1,
    sub_loop fl p repl n pos prev rest
    = sub_loop fl p repl 0 (pos + n) prev1 (drop n rest).
Proof.
  induction n as [|n IH]; intros rest pos prev Hn.
  - exists prev. rewrite Nat.add_0_r, drop_0. reflexivity.
  - destruct rest as [|c r]; simpl in Hn; [lia|].
    destruct (IH r (S pos) (Some c)) as [prev1 H1]; [lia|].
    exists prev1. cbn [sub_loop]. rewrite H1.
    replace (S pos + n) with (pos + S n) by lia. reflexivity.
Qed.

Lemma sub_loop_nil (pos : nat) (prev : option char) :
  match_here fl p pos prev [] = None ->
  sub_loop fl p repl 0 pos prev [] = [].
Proof. intros H. cbn [sub_loop]. now rewrite H. Qed.

Lemma sub_loop_none (pos : nat) (prev : option char) (c : char) (r : str) :
  match_here fl p pos prev (c :: r) = None ->
  sub_loop fl p repl 0 pos prev (c :: r)
  = c :: sub_loop fl p repl 0 (S pos) (Some c) r.
Proof. intros H. cbn [sub_loop]. now rewrite H. Qed.

Lemma sub_loop_some (pos : nat) (prev : option char) (rest : str)
    (m : rematch) (len : nat) :
  match_here fl p pos prev rest = Some m ->
  m_end m = pos + S len -> S len <= length rest ->
  exists prev1,
    sub_loop fl p repl 0 pos prev rest
    = repl m ++ sub_loop fl p repl 0 (pos + S len) prev1 (drop (S len) rest).
Proof.
  intros Hm He Hlen. destruct rest as [|c r]; simpl in Hlen; [lia|].
  destruct (sub_loop_skip len r (S pos) (Some c)) as [prev1 H1]; [lia|].
  exists prev1. cbn [sub_loop]. rewrite Hm, He.
  replace (pos + S len - pos) with (S len) by lia.
  rewrite H1. replace (S pos + len) with (pos + S len) by lia.
  reflexivity.
Qed.

End SubFacts.

Lemma span_inside (ok : char -> bool) (s : str) (j : nat) :
  j < span ok s -> exists c r, drop j s = c :: r /\ ok c = true.
Proof.
  revert j. induction s as [|a s IH]; intros j Hj; simpl in Hj; [lia|].
  destruct (ok a) eqn:E; [|lia].
  destruct j as [|j]; [exists a, s; now rewrite drop_0|].
  simpl. apply IH. lia.
Qed.

Section NumberFacts.
Context {U : UnicodeDB}.
Hypothesis dot_not_decimal : isdecimal 46 = false.

Lemma after_digits_dot (p0 : N) (sd : mstate) (r2 : str) :
  ms_rest sd = 46%N :: r2 ->
  after_digits p0 sd
  = Some (eat (span isspace r2)
            (advance (set_cap 1 (p0, ms_pos sd) sd) 46%N r2)).
Proof.
  intros E. unfold after_digits. cbn [rmatch]. unfold step_char.
  cbn [set_cap ms_rest]. rewrite E.
  unfold lit_matches. cbn [F0 f_i]. rewrite N.eqb_refl.
  fold F0. rewrite star_space_end by (simpl; lia). reflexivity.
Qed.

Lemma after_digits_other (p0 : N) (sd : mstate) :
  match ms_rest sd with c :: _ => c <> 46%N | [] => True end ->
  after_digits p0 sd = None.
Proof.
  intros H. unfold after_digits. cbn [rmatch]. unfold step_char.
  cbn [set_cap ms_rest]. destruct (ms_rest sd) as [|c r]; [reflexivity|].
  unfold lit_matches. cbn [F0 f_i].
  destruct (N.eqb_spec c 46); [contradiction|reflexivity].
Qed.

(** [(\d+)\.\s*]: the longest run of digits, a dot, the spaces after it. *)
Lemma match_here_number (pos : nat) (prev : option char) (rest : str) :
  match_here NOFLAGS (Pattern false number_re) pos prev rest
  = match span isdecimal rest with
    | O => None
    | S d =>
      match drop (S d) rest with
      | c :: r2 =>
        if (c =? 46)%N
        then Some (Match pos (pos + S d + S (span isspace r2))
                     [(1, (N.of_nat pos, N.of_nat (pos + S d)))])
        else None
      | [] => None
      end
    end.
Proof.
  rewrite match_here_eq. cbn [NOFLAGS f_i f_m f_s orb]. fold F0.
  unfold number_re. cbn [rmatch cls_digit]. unfold step_char at 1.
  cbn [init ms_rest]. destruct rest as [|c r]; [reflexivity|].
  rewrite set_digit. cbn [span]. destruct (isdecimal c) eqn:Ec; [|reflexivity].
  cbn [drop]. set (s1 := advance (init pos prev (c :: r)) c r).
  change (star_loop true (rmatch F0 cls_digit)
            (after_digits (N.of_nat pos)) (length (ms_rest s1)) s1)
    with (star_loop true (rmatch F0 cls_digit)
            (after_digits (N.of_nat pos)) (length r) s1).
  destruct (drop (span isdecimal r) r) as [|c2 r2] eqn:Ed.
  - rewrite (star_class_greedy_none (set_matches F0 false [CDigit]));
      [reflexivity|reflexivity|].
    intros j Hj. rewrite span_digit in Hj. apply after_digits_other.
    unfold s1 in Hj. cbn [advance ms_rest] in Hj.
    rewrite eat_rest. cbn [s1 advance ms_rest].
    destruct (Nat.eq_dec j (span isdecimal r)) as [->|Hne].
    + now rewrite Ed.
    + destruct (span_inside isdecimal r j) as (c' & r' & -> & Hc'); [lia|].
      intros ->. congruence.
  - destruct (N.eqb_spec c2 46) as [->|Hc2].
    + erewrite (star_class_greedy_some (set_matches F0 false [CDigit]));
        [|reflexivity|cbn [s1 advance ms_rest]; lia|].
      2:{ rewrite span_digit. cbn [s1 advance ms_rest].
          apply after_digits_dot. rewrite eat_rest. exact Ed. }
      cbn [option_map]. unfold found. rewrite eat_caps.
      rewrite eat_pos by (apply span_le).
      cbn [advance set_cap ms_pos ms_caps ms_rest]. rewrite eat_caps.
      rewrite eat_pos by (apply span_le).
      cbn [s1 advance init ms_pos ms_caps ms_rest].
      do 2 f_equal; [lia|]. do 3 f_equal. lia.
    + rewrite (star_class_greedy_none (set_matches F0 false [CDigit]));
        [reflexivity|reflexivity|].
      intros j Hj. rewrite span_digit in Hj. apply after_digits_other.
      unfold s1 in Hj. cbn [advance ms_rest] in Hj.
      rewrite eat_rest. cbn [s1 advance ms_rest].
      destruct (Nat.eq_dec j (span isdecimal r)) as [->|Hne].
      * now rewrite Ed.
      * destruct (span_inside isdecimal r j) as (c' & r' & -> & Hc'); [lia|].
        intros ->. congruence.
Qed.

End NumberFacts.

(** ** The shape of a normalized text *)

Section Shape.
Context {U : UnicodeDB}.

Lemma nonspace_head_hd (o r : str) :
  hd_error o = hd_error r -> nonspace_head r -> nonspace_head o.
Proof. destruct o, r; simpl; intros [=]; subst; auto. Qed.

Lemma space_head_hd (o r : str) :
  hd_error o = hd_error r -> space_head r -> space_head o.
Proof. destruct o, r; simpl; intros [=]; subst; auto. Qed.

Lemma single_spaced_drop (n : nat) (s : str) :
  single_spaced s -> single_spaced (drop n s).
Proof.
  revert s. induction n as [|n IH]; intros s H; [now rewrite drop_0|].
  destruct s as [|c r]; [exact H|]. simpl. apply IH, H.
Qed.

Lemma bullets_spaced_drop (n : nat) (s : str) :
  bullets_spaced s -> bullets_spaced (drop n s).
Proof.
  revert s. induction n as [|n IH]; intros s H; [now rewrite drop_0|].
  destruct s as [|c r]; [exact H|]. simpl. apply IH, H.
Qed.

Lemma single_spaced_app (l r : str) :
  Forall (fun c => isspace c = false) l -> single_spaced r ->
  single_spaced (l ++ r).
Proof.
  induction 1 as [|c l Hc _ IH]; intros Hr; simpl; [exact Hr|].
  split; [congruence|auto].
Qed.

Lemma bullets_spaced_app (l r : str) :
  Forall (fun c => c <> 8226%N) l -> bullets_spaced r ->
  bullets_spaced (l ++ r).
Proof.
  induction 1 as [|c l Hc _ IH]; intros Hr; simpl; [exact Hr|].
  split; [congruence|auto].
Qed.

Lemma numbers_spaced_digits (r : str) :
  isdecimal 46 = false ->
  forall (l : str) (pd : bool),
    Forall (fun c => isdecimal c = true) l ->
    numbers_spaced (match l with [] => pd | _ => true end) r ->
    numbers_spaced pd (l ++ r).
Proof.
  intros Hdot l. induction l as [|c l IH]; intros pd Hl Hr; [exact Hr|].
  inversion Hl as [|? ? Hc Hl']; subst. simpl. split.
  - intros _ ->. congruence.
  - rewrite Hc. apply IH; [exact Hl'|]. destruct l; exact Hr.
Qed.

(** *** The first run of the normalizer: what each substitution
    establishes *)

(** [re.sub(r'\s+', ' ', text)] *)
Lemma spaces_pass (repl : rematch -> str) :
  (forall m, repl m = [32%N]) ->
  forall n rest pos prev,
    length rest <= n ->
    let o := sub_loop NOFLAGS spaces_pat repl 0 pos prev rest in
    single_spaced o /\ (nonspace_head rest -> hd_error o = hd_error rest).
Proof.
  intros Hrepl. induction n as [|n IH]; intros rest pos prev Hn o.
  - destruct rest; simpl in Hn; [|lia]. subst o.
    rewrite sub_loop_nil by (apply match_here_spaces). simpl. auto.
  - destruct rest as [|c r].
    { subst o. rewrite sub_loop_nil by (apply match_here_spaces).
      simpl. auto. }
    pose proof (match_here_spaces pos prev (c :: r)) as Hm.
    cbn [span] in Hm. destruct (isspace c) eqn:Ec.
    + destruct (sub_loop_some NOFLAGS spaces_pat repl pos prev (c :: r) _
                  (span isspace r) Hm eq_refl) as [prev1 Hs].
      { simpl. pose proof (span_le isspace r). lia. }
      subst o. rewrite Hs, Hrepl. cbn [drop app].
      destruct (IH (drop (span isspace r) r) (pos + S (span isspace r)) prev1)
        as [Hss Hhd].
      { rewrite length_drop. simpl in Hn. lia. }
      pose proof (span_drop isspace r) as Hd.
      split; [|simpl; congruence].
      simpl. split; [|exact Hss].
      intros _. split; [reflexivity|].
      apply (nonspace_head_hd _ (drop (span isspace r) r)); [|exact Hd].
      apply Hhd. exact Hd.
    + subst o. rewrite (sub_loop_none _ _ _ _ _ _ _ Hm).
      destruct (IH r (S pos) (Some c)) as [Hss Hhd]; [simpl in Hn; lia|].
      split; [|reflexivity].
      simpl. split; [congruence|exact Hss].
Qed.

End Shape.

Section FirstRun.
Context {U : UnicodeDB}.
Hypothesis laws : unicode_laws U.

(** [re.sub(r'•\s*', '• ', text)] on a single-spaced text *)
Lemma bullet_pass (repl : rematch -> str) :
  (forall m, repl m = [8226; 32]%N) ->
  forall n rest pos prev,
    length rest <= n -> single_spaced rest ->
    let o := sub_loop NOFLAGS bullet_pat repl 0 pos prev rest in
    single_spaced o /\ bullets_spaced o /\ hd_error o = hd_error rest.
Proof.
  intros Hrepl. induction n as [|n IH]; intros rest pos prev Hn Hss o.
  - destruct rest; simpl in Hn; [|lia]. subst o.
    rewrite sub_loop_nil by (apply match_here_bullet). simpl. auto.
  - destruct rest as [|c r].
    { subst o. rewrite sub_loop_nil by (apply match_here_bullet).
      simpl. auto. }
    pose proof (match_here_bullet pos prev (c :: r)) as Hm.
    destruct Hss as [Hc Hss].
    destruct (N.eqb_spec c 8226) as [->|Hne].
    + destruct (sub_loop_some NOFLAGS bullet_pat repl pos prev (8226%N :: r) _
                  (span isspace r) Hm eq_refl) as [prev1 Hs].
      { simpl. pose proof (span_le isspace r). lia. }
      subst o. rewrite Hs, Hrepl. cbn [drop app].
      destruct (IH (drop (span isspace r) r) (pos + S (span isspace r)) prev1)
        as (Hss1 & Hbl1 & Hhd1).
      { rewrite length_drop. simpl in Hn. lia. }
      { now apply single_spaced_drop. }
      pose proof (span_drop isspace r) as Hd.
      split; [|split; [|reflexivity]].
      * simpl. split.
        { intros E. rewrite (law_bullet_space U laws) in E. discriminate. }
        split; [|exact Hss1]. intros _. split; [reflexivity|].
        apply (nonspace_head_hd _ (drop (span isspace r) r)); assumption.
      * simpl. split; [intros _; reflexivity|].
        split; [discriminate|exact Hbl1].
    + cbn iota in Hm. rewrite (proj2 (N.eqb_neq c 8226) Hne) in Hm.
      subst o. rewrite (sub_loop_none _ _ _ _ _ _ _ Hm).
      destruct (IH r (S pos) (Some c)) as (Hss1 & Hbl1 & Hhd1);
        [simpl in Hn; lia|exact Hss|].
      split; [|split; [|reflexivity]].
      * simpl. split; [|exact Hss1]. intros E.
        destruct (Hc E) as [-> Hh]. split; [reflexivity|].
        apply (nonspace_head_hd _ r); assumption.
      * simpl. split; [contradiction|exact Hbl1].
Qed.

End FirstRun.

Lemma drop_cons_next (text : str) (pos : nat) (c : char) (r : str) :
  c :: r = drop pos text -> r = drop (S pos) text.
Proof.
  intros H. replace (S pos) with (pos + 1) by lia.
  rewrite <- drop_drop, <- H. reflexivity.
Qed.

Section NumberPass.
Context {U : UnicodeDB}.
Hypothesis laws : unicode_laws U.

Lemma expand_number (text : str) (pos d e : nat) :
  expand number_template text
    (Match pos e [(1, (N.of_nat pos, N.of_nat (pos + S d)))])
  = take (S d) (drop pos text) ++ [46; 32]%N.
Proof.
  unfold expand, number_template. cbn [flat_map]. unfold group.
  cbn [m_caps cap_lookup Nat.eqb]. unfold slice.
  rewrite !Nat2N.id. replace (pos + S d - pos) with (S d) by lia.
  reflexivity.
Qed.

(** The two cases of [(\d+)\.\s*] at a position. *)
Lemma number_cases (pos : nat) (prev : option char) (rest : str) :
  (match_here NOFLAGS number_pat pos prev rest = None
   /\ (span isdecimal rest = 0 \/ ~ dot_after_run rest))
  \/ (exists d r2,
        span isdecimal rest = S d /\ drop (S d) rest = 46%N :: r2
        /\ match_here NOFLAGS number_pat pos prev rest
           = Some (Match pos (pos + S d + S (span isspace r2))
                     [(1, (N.of_nat pos, N.of_nat (pos + S d)))])).
Proof.
  pose proof (match_here_number (law_dot_digit U laws) pos prev rest) as Hm.
  fold number_pat in Hm. unfold dot_after_run.
  destruct (span isdecimal rest) as [|d] eqn:Esp; [left; auto|].
  destruct (drop (S d) rest) as [|c2 r2] eqn:Ed; [left; auto|].
  destruct (N.eqb_spec c2 46) as [->|Hne].
  - right. exists d, r2. auto.
  - left. split; [exact Hm|]. right. exact Hne.
Qed.

Lemma dot_after_run_cons (c : char) (r : str) :
  isdecimal c = true -> dot_after_run (c :: r) <-> dot_after_run r.
Proof. intros Hc. unfold dot_after_run. cbn [span]. rewrite Hc. reflexivity. Qed.

Lemma digit_not_space (c : char) : isdecimal c = true -> isspace c = false.
Proof.
  intros Hc. destruct (isspace c) eqn:E; [|reflexivity].
  rewrite (law_space_digit U laws c E) in Hc. discriminate.
Qed.

(** [re.sub(r'(\d+)\.\s*', r'\1. ', text)] on a single-spaced text with
    spaced bullets *)
Lemma number_pass (text : str) :
  forall n rest pos prev pd,
    length rest <= n -> rest = drop pos text ->
    single_spaced rest -> bullets_spaced rest ->
    (pd = true -> ~ dot_after_run rest) ->
    let o := sub_loop NOFLAGS number_pat (expand number_template text)
               0 pos prev rest in
    single_spaced o /\ bullets_spaced o /\ numbers_spaced pd o
    /\ hd_error o = hd_error rest.
Proof.
  induction n as [|n IH]; intros rest pos prev pd Hn Hrest Hss Hbl Hinv o.
  { destruct rest; simpl in Hn; [|lia]. subst o.
    rewrite sub_loop_nil; [simpl; auto|].
    destruct (number_cases pos prev []) as [[H _]|(d & r2 & H & _)];
      [exact H|discriminate]. }
  destruct (number_cases pos prev rest)
    as [[Hm Hno]|(d & r2 & Hsp & Hd & Hm)].
  - (* no match: the character is copied *)
    destruct rest as [|c r].
    { subst o. rewrite sub_loop_nil by exact Hm. simpl. auto. }
    subst o. rewrite (sub_loop_none _ _ _ _ _ _ _ Hm).
    destruct Hss as [Hc Hss]. destruct Hbl as [Hb Hbl].
    destruct (IH r (S pos) (Some c) (isdecimal c))
      as (Hss1 & Hbl1 & Hnm1 & Hhd1).
    + simpl in Hn. lia.
    + now apply (drop_cons_next text pos c).
    + exact Hss.
    + exact Hbl.
    + intros Hdc. destruct Hno as [H0|Hno].
      * cbn [span] in H0. rewrite Hdc in H0. discriminate.
      * intros H. apply Hno. now apply dot_after_run_cons.
    + split; [|split; [|split; [|reflexivity]]].
      * simpl. split; [|exact Hss1]. intros E.
        destruct (Hc E) as [-> Hh]. split; [reflexivity|].
        apply (nonspace_head_hd _ r); assumption.
      * simpl. split; [|exact Hbl1]. intros E.
        apply (space_head_hd _ r); auto.
      * simpl. split; [|exact Hnm1]. intros Hpd ->.
        exfalso. apply (Hinv Hpd). unfold dot_after_run. cbn [span].
        rewrite (law_dot_digit U laws). reflexivity.
  - (* a match: digits, dot and spaces are replaced *)
    set (w := span isspace r2) in *.
    assert (Hlen : S d + S (length r2) = length rest).
    { pose proof (f_equal (@length N) (take_drop (S d) rest)) as Hl.
      rewrite Hd, length_app, length_take in Hl. cbn [length] in Hl.
      pose proof (span_le isdecimal rest). rewrite Hsp in *. lia. }
    destruct (sub_loop_some NOFLAGS number_pat (expand number_template text)
                pos prev rest _ (d + S w) Hm) as [prev1 Hs].
    { simpl. lia. }
    { pose proof (span_le isspace r2). fold w in H. lia. }
    assert (Hrem : drop (S (d + S w)) rest = drop w r2).
    { replace (S (d + S w)) with (S d + S w) by lia.
      rewrite <- drop_drop, Hd. reflexivity. }
    subst o. rewrite Hs, expand_number, <- Hrest, Hrem.
    destruct (IH (drop w r2) (pos + S (d + S w)) prev1 false)
      as (Hss1 & Hbl1 & Hnm1 & Hhd1).
    + rewrite length_drop. lia.
    + rewrite <- Hrem, Hrest, drop_drop. reflexivity.
    + rewrite <- Hrem. now apply single_spaced_drop.
    + rewrite <- Hrem. now apply bullets_spaced_drop.
    + discriminate.
    + pose proof (span_take isdecimal rest) as Hdig. rewrite Hsp in Hdig.
      pose proof (span_drop isspace r2) as Hns. fold w in Hns.
      assert (Hne : exists c l, take (S d) rest = c :: l).
      { destruct rest as [|c r]; [simpl in Hlen; lia|].
        exists c, (take d r). reflexivity. }
      destruct Hne as (c0 & l0 & Htk).
      rewrite <- !app_assoc. cbn [app].
      split; [|split; [|split]].
      * apply single_spaced_app.
        { eapply Forall_impl; [exact Hdig|]. intros a Ha.
          now apply digit_not_space. }
        simpl. split.
        { intros E. rewrite (law_dot_space U laws) in E. discriminate. }
        split; [|exact Hss1]. intros _. split; [reflexivity|].
        apply (nonspace_head_hd _ (drop w r2)); assumption.
      * apply bullets_spaced_app.
        { eapply Forall_impl; [exact Hdig|]. intros a Ha ->.
          rewrite (law_bullet_digit U laws) in Ha. discriminate. }
        simpl. split; [discriminate|]. split; [discriminate|exact Hbl1].
      * apply numbers_spaced_digits;
          [exact (law_dot_digit U laws)|exact Hdig|].
        rewrite Htk. simpl. split; [intros _ _; reflexivity|].
        split; [rewrite (law_dot_digit U laws); discriminate|].
        rewrite (law_space_digit U laws 32%N (law_space U laws)).
        exact Hnm1.
      * rewrite Htk. rewrite <- (take_drop (S d) rest), Htk. reflexivity.
Qed.

End NumberPass.

(** *** The second run: what each substitution does to a text of the
    normalized shape *)

Section SecondRun.
Context {U : UnicodeDB}.
Hypothesis laws : unicode_laws U.

Lemma span_nonspace_head (r : str) : nonspace_head r -> span isspace r = 0.
Proof. destruct r as [|c r]; simpl; [reflexivity|]. now intros ->. Qed.

Lemma spaces_id (repl : rematch -> str) :
  (forall m, repl m = [32%N]) ->
  forall n rest pos prev,
    length rest <= n -> single_spaced rest ->
    sub_loop NOFLAGS spaces_pat repl 0 pos prev rest = rest.
Proof.
  intros Hrepl. induction n as [|n IH]; intros rest pos prev Hn Hss.
  { destruct rest; simpl in Hn; [|lia].
    apply sub_loop_nil, match_here_spaces. }
  destruct rest as [|c r]; [apply sub_loop_nil, match_here_spaces|].
  pose proof (match_here_spaces pos prev (c :: r)) as Hm.
  cbn [span] in Hm. destruct Hss as [Hc Hss].
  destruct (isspace c) eqn:Ec.
  - destruct (Hc eq_refl) as [-> Hh].
    rewrite (span_nonspace_head r Hh) in Hm.
    destruct (sub_loop_some NOFLAGS spaces_pat repl pos prev (32%N :: r) _ 0
                Hm eq_refl) as [prev1 Hs]; [simpl; lia|].
    rewrite Hs, Hrepl. cbn [drop app]. rewrite drop_0. f_equal.
    apply IH; [simpl in Hn; lia|exact Hss].
  - rewrite (sub_loop_none _ _ _ _ _ _ _ Hm). f_equal.
    apply IH; [simpl in Hn; lia|exact Hss].
Qed.

Lemma bullet_tail_cons (c : char) (r : str) :
  c <> 8226%N -> bullet_tail (c :: r) = bullet_tail r.
Proof.
  intros Hc. simpl. destruct r; [|reflexivity].
  now rewrite (proj2 (N.eqb_neq c 8226) Hc).
Qed.

Lemma bullet_id (repl : rematch -> str) :
  (forall m, repl m = [8226; 32]%N) ->
  forall n rest pos prev,
    length rest <= n -> single_spaced rest -> bullets_spaced rest ->
    sub_loop NOFLAGS bullet_pat repl 0 pos prev rest
    = rest ++ bullet_tail rest.
Proof.
  intros Hrepl. induction n as [|n IH]; intros rest pos prev Hn Hss Hbl.
  { destruct rest; simpl in Hn; [|lia].
    apply sub_loop_nil, match_here_bullet. }
  destruct rest as [|c r]; [apply sub_loop_nil, match_here_bullet|].
  pose proof (match_here_bullet pos prev (c :: r)) as Hm. cbn iota in Hm.
  destruct Hss as [Hc Hss]. destruct Hbl as [Hb Hbl].
  destruct (N.eqb_spec c 8226) as [->|Hne].
  - specialize (Hb eq_refl). destruct r as [|c1 r1].
    + cbn [span] in Hm.
      destruct (sub_loop_some NOFLAGS bullet_pat repl pos prev [8226%N] _ 0
                  Hm eq_refl) as [prev1 Hs]; [simpl; lia|].
      rewrite Hs, Hrepl. cbn [drop].
      rewrite sub_loop_nil by (apply match_here_bullet). reflexivity.
    + simpl in Hb. subst c1. destruct Hss as [Hc1 Hss1].
      destruct (Hc1 (law_space U laws)) as [_ Hh].
      assert (Hsp : span isspace (32%N :: r1) = 1).
      { cbn [span]. rewrite (law_space U laws).
        now rewrite (span_nonspace_head r1 Hh). }
      rewrite Hsp in Hm.
      destruct (sub_loop_some NOFLAGS bullet_pat repl pos prev
                  (8226%N :: 32%N :: r1) _ 1 Hm eq_refl) as [prev1 Hs];
        [simpl; lia|].
      rewrite Hs, Hrepl. cbn [drop]. rewrite drop_0.
      rewrite IH; [|simpl in Hn; lia|exact Hss1|apply Hbl].
      cbn [app]. do 2 f_equal.
      change (bullet_tail (8226%N :: 32%N :: r1))
        with (bullet_tail (32%N :: r1)).
      now rewrite bullet_tail_cons by discriminate.
  - rewrite (sub_loop_none _ _ _ _ _ _ _ Hm).
    rewrite IH; [|simpl in Hn; lia|exact Hss|exact Hbl].
    now rewrite (bullet_tail_cons c r Hne).
Qed.

Lemma numbers_spaced_after_digits (d : nat) : forall rest pd,
  span isdecimal rest = S d -> numbers_spaced pd rest ->
  numbers_spaced true (drop (S d) rest).
Proof.
  induction d as [|d IH]; intros rest pd Hsp Hnm;
    destruct rest as [|c r]; try discriminate;
    cbn [span] in Hsp; destruct (isdecimal c) eqn:Ec; try discriminate;
    destruct Hnm as [_ Hnm]; rewrite Ec in Hnm.
  - cbn [drop]. rewrite drop_0. exact Hnm.
  - cbn [drop]. apply (IH r true); [lia|exact Hnm].
Qed.

Lemma number_tail_cons2 (pd : bool) (a b : char) (r : str) :
  number_tail pd (a :: b :: r) = number_tail (isdecimal a) (b :: r).
Proof. reflexivity. Qed.

Lemma number_tail_skip (r3 : str) : forall l pd,
  number_tail pd (l ++ 46%N :: 32%N :: r3) = number_tail false r3.
Proof.
  assert (H32 : isdecimal 32 = false)
    by (apply (law_space_digit U laws), (law_space U laws)).
  induction l as [|c l IH]; intros pd.
  - cbn [app]. rewrite number_tail_cons2. destruct r3 as [|x r3].
    + cbn [number_tail]. destruct (isdecimal 46); reflexivity.
    + rewrite number_tail_cons2, H32. reflexivity.
  - destruct l as [|c1 l1].
    + cbn [app]. rewrite number_tail_cons2. apply (IH (isdecimal c)).
    + cbn [app]. rewrite number_tail_cons2. apply (IH (isdecimal c)).
Qed.

Lemma number_tail_end : forall l pd,
  Forall (fun c => isdecimal c = true) l -> l <> [] ->
  number_tail pd (l ++ [46%N]) = [32%N].
Proof.
  induction l as [|c l IH]; intros pd Hl Hne; [contradiction|].
  inversion Hl as [|? ? Hc Hl']; subst.
  destruct l as [|c1 l1].
  - cbn [app number_tail]. rewrite Hc. reflexivity.
  - cbn [app]. rewrite number_tail_cons2.
    apply (IH (isdecimal c)); [exact Hl'|discriminate].
Qed.

Lemma number_id (text : str) :
  forall n rest pos prev pd,
    length rest <= n -> rest = drop pos text ->
    single_spaced rest -> numbers_spaced pd rest ->
    (pd = true -> ~ dot_after_run rest) ->
    sub_loop NOFLAGS number_pat (expand number_template text) 0 pos prev rest
    = rest ++ number_tail pd rest.
Proof.
  induction n as [|n IH]; intros rest pos prev pd Hn Hrest Hss Hnm Hinv.
  { destruct rest; simpl in Hn; [|lia]. apply sub_loop_nil.
    destruct (number_cases laws pos prev []) as [[H _]|(d & r2 & H & _)];
      [exact H|discriminate]. }
  destruct (number_cases laws pos prev rest)
    as [[Hm Hno]|(d & r2 & Hsp & Hd & Hm)].
  - destruct rest as [|c r]; [now apply sub_loop_nil|].
    rewrite (sub_loop_none _ _ _ _ _ _ _ Hm).
    destruct Hss as [Hc Hss]. destruct Hnm as [Hdot Hnm].
    rewrite (IH r (S pos) (Some c) (isdecimal c)).
    + cbn [app]. f_equal. f_equal. destruct r as [|c1 r1]; [|reflexivity].
      cbn [number_tail]. destruct pd; [|reflexivity].
      destruct (N.eqb_spec c 46) as [->|]; [|reflexivity].
      exfalso. apply (Hinv eq_refl). unfold dot_after_run. cbn [span].
      rewrite (law_dot_digit U laws). reflexivity.
    + simpl in Hn. lia.
    + now apply (drop_cons_next text pos c).
    + exact Hss.
    + exact Hnm.
    + intros Hdc. destruct Hno as [H0|Hno].
      * cbn [span] in H0. rewrite Hdc in H0. discriminate.
      * intros H. apply Hno. now apply dot_after_run_cons.
  - pose proof (numbers_spaced_after_digits d rest pd Hsp Hnm) as Hnm2.
    rewrite Hd in Hnm2. destruct Hnm2 as [Hsh Hnm2].
    specialize (Hsh eq_refl eq_refl).
    pose proof (single_spaced_drop (S d) rest Hss) as Hss2.
    rewrite Hd in Hss2. destruct Hss2 as [_ Hss2].
    pose proof (span_take isdecimal rest) as Hdig. rewrite Hsp in Hdig.
    assert (Hsplit : rest = take (S d) rest ++ 46%N :: r2)
      by (now rewrite <- Hd, take_drop).
    assert (Hne : take (S d) rest <> []).
    { destruct rest as [|c r]; [discriminate|]. discriminate. }
    destruct r2 as [|c3 r3].
    + (* the dot ends the text *)
      cbn [span] in Hm.
      destruct (sub_loop_some NOFLAGS number_pat
                  (expand number_template text) pos prev rest _ (d + 1) Hm)
        as [prev1 Hs]; [cbn [m_end]; lia| |].
      { rewrite Hsplit, length_app. simpl. rewrite length_take.
        pose proof (span_le isdecimal rest). rewrite Hsp in *. lia. }
      rewrite Hs, (expand_number text pos d), <- Hrest.
      replace (S (d + 1)) with (S d + 1) by lia.
      rewrite <- drop_drop, Hd. cbn [drop].
      rewrite sub_loop_nil.
      2:{ destruct (number_cases laws (pos + (S d + 1)) prev1 [])
            as [[H _]|(d' & r' & H & _)]; [exact H|discriminate]. }
      rewrite app_nil_r. rewrite Hsplit at 2 3.
      rewrite (number_tail_end _ pd Hdig Hne).
      rewrite <- app_assoc. reflexivity.
    + (* the dot is followed by one space *)
      simpl in Hsh. subst c3. destruct Hss2 as [Hc3 Hss3].
      destruct (Hc3 (law_space U laws)) as [_ Hh].
      assert (Hw : span isspace (32%N :: r3) = 1).
      { cbn [span]. rewrite (law_space U laws).
        now rewrite (span_nonspace_head r3 Hh). }
      rewrite Hw in Hm.
      destruct (sub_loop_some NOFLAGS number_pat
                  (expand number_template text) pos prev rest _ (d + 2) Hm)
        as [prev1 Hs]; [cbn [m_end]; lia| |].
      { rewrite Hsplit, length_app. simpl. rewrite length_take.
        pose proof (span_le isdecimal rest). rewrite Hsp in *. lia. }
      assert (Hrem : drop (S (d + 2)) rest = r3).
      { replace (S (d + 2)) with (S d + 2) by lia.
        rewrite <- drop_drop, Hd. reflexivity. }
      rewrite Hs, (expand_number text pos d), <- Hrest, Hrem.
      rewrite (IH r3 (pos + S (d + 2)) prev1 false).
      * rewrite Hsplit at 2 3. rewrite number_tail_skip.
        rewrite <- !app_assoc. reflexivity.
      * rewrite <- Hrem, length_drop. lia.
      * rewrite <- Hrem, Hrest, drop_drop. reflexivity.
      * exact Hss3.
      * destruct Hnm2 as [_ Hnm3].
        now rewrite (law_space_digit U laws 32%N (law_space U laws)) in Hnm3.
      * discriminate.
Qed.

End SecondRun.

(** *** The character filter and the other substitutions *)

Section Filter.
Context {U : UnicodeDB}.
Hypothesis laws : unicode_laws U.

Lemma allowed_space : allowed 32%N.
Proof.
  unfold allowed, set_matches, set_has, filter_items.
  cbn [F0 f_i existsb item_has]. rewrite (law_space U laws).
  rewrite !orb_true_r. reflexivity.
Qed.

Lemma allowed_literal (c : char) :
  In (CChar c) filter_items -> allowed c.
Proof.
  intros Hin. unfold allowed, set_matches. cbn [F0 f_i].
  replace (set_has filter_items c) with true; [reflexivity|].
  symmetry. unfold set_has. apply existsb_exists.
  exists (CChar c). split; [exact Hin|]. simpl. apply N.eqb_refl.
Qed.

Lemma class_sub (neg : bool) (items : list cset_item) (repl : rematch -> str)
    (r0 : str) :
  (forall m, repl m = r0) ->
  forall rest pos prev,
    sub_loop NOFLAGS (Pattern false (RSet neg items)) repl 0 pos prev rest
    = flat_map (fun c => if set_matches F0 neg items c then r0 else [c]) rest.
Proof.
  intros Hrepl. induction rest as [|c r IH]; intros pos prev.
  - apply sub_loop_nil, match_here_class.
  - pose proof (match_here_class neg items pos prev (c :: r)) as Hm.
    cbn iota in Hm. cbn [flat_map].
    destruct (set_matches F0 neg items c).
    + destruct (sub_loop_some NOFLAGS _ repl pos prev (c :: r) _ 0 Hm)
        as [prev1 Hs]; [cbn [m_end]; lia|simpl; lia|].
      rewrite Hs, Hrepl. cbn [drop]. rewrite drop_0, IH. reflexivity.
    + rewrite (sub_loop_none _ _ _ _ _ _ _ Hm), IH. reflexivity.
Qed.

Lemma filter_allowed (t : str) :
  Forall allowed
    (flat_map (fun c => if set_matches F0 true filter_items c
                        then [32%N] else [c]) t).
Proof.
  induction t as [|c t IH]; cbn [flat_map]; [constructor|].
  destruct (set_matches F0 true filter_items c) eqn:E.
  - constructor; [apply allowed_space|exact IH].
  - constructor; [exact E|exact IH].
Qed.

Lemma filter_id (y : str) :
  Forall allowed y ->
  flat_map (fun c => if set_matches F0 true filter_items c
                     then [32%N] else [c]) y = y.
Proof.
  induction 1 as [|c y Hc _ IH]; cbn [flat_map]; [reflexivity|].
  unfold allowed in Hc. rewrite Hc, IH. reflexivity.
Qed.

(** A pattern that begins with a literal leaves a text without this
    character unchanged. *)
Lemma literal_sub_id (c0 : char) (r : regex) (repl : rematch -> str) :
  forall rest pos prev,
    Forall (fun c => c <> c0) rest ->
    sub_loop NOFLAGS (Pattern false (RSeq (RChar c0) r)) repl 0 pos prev rest
    = rest.
Proof.
  induction rest as [|c rest IH]; intros pos prev Hall.
  - now apply sub_loop_nil, match_here_literal.
  - inversion Hall as [|? ? Hc Hall']; subst.
    rewrite sub_loop_none by (now apply match_here_literal).
    now rewrite IH.
Qed.

(** The characters of the result of a substitution come from the text
    and from the template. *)
Lemma expand_chars (P : char -> Prop) (tpl : list titem) (text : str)
    (m : rematch) :
  Forall P text -> (forall c, In (TLit c) tpl -> P c) ->
  Forall P (expand tpl text m).
Proof.
  intros Ht Htpl. unfold expand. induction tpl as [|it tpl IH];
    cbn [flat_map]; [constructor|].
  apply Forall_app. split.
  - destruct it as [c|i]; [constructor; [|constructor]; apply Htpl; now left|].
    unfold group. destruct (cap_lookup i (m_caps m)) as [[a b]|];
      [|constructor].
    unfold slice. now apply Forall_take, Forall_drop.
  - apply IH. intros c Hc. apply Htpl. now right.
Qed.

Lemma sub_loop_chars (P : char -> Prop) (fl : re_flags) (p : pattern)
    (repl : rematch -> str) :
  (forall m, Forall P (repl m)) ->
  forall rest skip pos prev,
    Forall P rest -> Forall P (sub_loop fl p repl skip pos prev rest).
Proof.
  intros Hrepl. induction rest as [|c rest IH]; intros skip pos prev Hall.
  - destruct skip; cbn [sub_loop]; [|constructor].
    destruct (match_here fl p pos prev []) as [m|]; [|constructor].
    apply Forall_app. split; [apply Hrepl|].
    destruct (m_end m - pos); constructor.
  - inversion Hall as [|? ? Hc Hall']; subst.
    destruct skip as [|n]; cbn [sub_loop]; [|now apply IH].
    destruct (match_here fl p pos prev (c :: rest)) as [m|].
    + apply Forall_app. split; [apply Hrepl|].
      destruct (m_end m - pos); [constructor; [exact Hc|]|]; now apply IH.
    + constructor; [exact Hc|now apply IH].
Qed.

End Filter.

(** *** Lines and trimming *)

Lemma split_lines_acc_no_newline (s cur : str) :
  Forall (fun c => c <> nl) s -> split_lines_acc cur s = [rev cur ++ s].
Proof.
  intros H. revert cur. induction H as [|c s Hc _ IH]; intros cur.
  - simpl. now rewrite app_nil_r.
  - cbn [split_lines_acc]. rewrite (proj2 (N.eqb_neq c nl) Hc).
    rewrite IH. cbn [rev]. now rewrite <- app_assoc.
Qed.

Lemma split_lines_no_newline (s : str) :
  Forall (fun c => c <> nl) s -> split_lines s = [s].
Proof. intros H. unfold split_lines. now rewrite split_lines_acc_no_newline. Qed.

Section Trimmed.
Context {U : UnicodeDB}.
Hypothesis laws : unicode_laws U.

Lemma single_spaced_no_newline (s : str) :
  single_spaced s -> Forall (fun c => c <> nl) s.
Proof.
  induction s as [|c s IH]; intros H; [constructor|].
  destruct H as [Hc Hs]. constructor; [|auto].
  intros ->. destruct (Hc (law_newline U laws)) as [E _]. discriminate.
Qed.

Lemma lstrip_drop (s : str) : lstrip s = drop (span isspace s) s.
Proof.
  induction s as [|c s IH]; simpl; [reflexivity|].
  destruct (isspace c); [exact IH|reflexivity].
Qed.

Lemma rstrip_prefix (s : str) :
  exists b, s = rstrip s ++ b /\ Forall (fun c => isspace c = true) b.
Proof.
  unfold rstrip. rewrite lstrip_drop.
  exists (rev (take (span isspace (rev s)) (rev s))). split.
  - rewrite <- rev_app_distr, take_drop. now rewrite rev_involutive.
  - apply Forall_rev, span_take.
Qed.

Lemma numbers_spaced_lstrip (s : str) :
  numbers_spaced false s -> numbers_spaced false (lstrip s).
Proof.
  induction s as [|c s IH]; intros H; [exact H|]. simpl.
  destruct (isspace c) eqn:E; [|exact H].
  apply IH. destruct H as [_ H].
  now rewrite (law_space_digit U laws c E) in H.
Qed.

Lemma single_spaced_prefix (a b : str) :
  single_spaced (a ++ b) -> single_spaced a.
Proof.
  induction a as [|c a IH]; intros H; [exact I|].
  destruct H as [Hc H]. split; [|auto].
  intros E. destruct (Hc E) as [-> Hh]. split; [reflexivity|].
  destruct a; [exact I|exact Hh].
Qed.

Lemma bullets_spaced_prefix (a b : str) :
  bullets_spaced (a ++ b) -> bullets_spaced a.
Proof.
  induction a as [|c a IH]; intros H; [exact I|].
  destruct H as [Hc H]. split; [|auto].
  intros E. specialize (Hc E). destruct a; [exact I|exact Hc].
Qed.

Lemma numbers_spaced_prefix (a b : str) : forall pd,
  numbers_spaced pd (a ++ b) -> numbers_spaced pd a.
Proof.
  induction a as [|c a IH]; intros pd H; [exact I|].
  destruct H as [Hc H]. split; [|auto].
  intros Hpd E. specialize (Hc Hpd E). destruct a; [exact I|exact Hc].
Qed.

(** The shape of a text is kept by [strip]. *)
Lemma strip_shape (z : str) :
  single_spaced z -> bullets_spaced z -> numbers_spaced false z ->
  single_spaced (strip z) /\ bullets_spaced (strip z)
  /\ numbers_spaced false (strip z).
Proof.
  intros Hss Hbl Hnm. unfold strip.
  destruct (rstrip_prefix (lstrip z)) as (b & Hb & _).
  assert (H1 : single_spaced (lstrip z))
    by (rewrite lstrip_drop; now apply single_spaced_drop).
  assert (H2 : bullets_spaced (lstrip z))
    by (rewrite lstrip_drop; now apply bullets_spaced_drop).
  assert (H3 : numbers_spaced false (lstrip z))
    by (now apply numbers_spaced_lstrip).
  rewrite Hb in H1, H2, H3.
  split; [|split].
  - eapply single_spaced_prefix, H1.
  - eapply bullets_spaced_prefix, H2.
  - eapply numbers_spaced_prefix, H3.
Qed.

Lemma strip_chars (P : char -> Prop) (z : str) :
  Forall P z -> Forall P (strip z).
Proof.
  intros H. unfold strip.
  destruct (rstrip_prefix (lstrip z)) as (b & Hb & _).
  assert (H1 : Forall P (lstrip z))
    by (rewrite lstrip_drop; now apply Forall_drop).
  rewrite Hb in H1. now apply Forall_app in H1 as [H1 _].
Qed.

(** A trimmed text that is not empty begins and ends with a character
    that is not a space. *)
Lemma trimmed_head (y : str) :
  strip y = y -> y <> [] ->
  exists c y1, y = c :: y1 /\ isspace c = false /\ rstrip y = y.
Proof.
  intros Hy Hne.
  destruct (lstrip_head y) as [E|(c & s1 & E & Hc)].
  - unfold strip, rstrip in Hy. rewrite E in Hy. simpl in Hy. congruence.
  - assert (Hy' := Hy). unfold strip in Hy'. rewrite E in Hy'.
    unfold rstrip in Hy'. cbn [rev] in Hy'.
    destruct (lstrip_app_nonspace (rev s1) c Hc) as [l1 Hl1].
    rewrite Hl1, rev_app_distr in Hy'. cbn [rev app] in Hy'.
    exists c, (rev l1). split; [now symmetry|]. split; [exact Hc|].
    assert (El : lstrip y = y).
    { rewrite <- Hy'. now apply lstrip_nonspace. }
    unfold strip in Hy. now rewrite El in Hy.
Qed.

Lemma strip_app_space (y : str) :
  strip y = y -> y <> [] -> strip (y ++ [32%N]) = y.
Proof.
  intros Hy Hne.
  destruct (trimmed_head y Hy Hne) as (c & y1 & -> & Hc & Hr).
  unfold strip. cbn [app]. rewrite lstrip_nonspace by exact Hc.
  unfold rstrip in *.
  change (c :: y1 ++ [32%N]) with ((c :: y1) ++ [32%N]).
  rewrite rev_app_distr. cbn [rev app lstrip].
  rewrite (law_space U laws). exact Hr.
Qed.

End Trimmed.

(** *** The patterns and templates of steps 3 to 6, compiled *)

Lemma compile_filter :
  re_compile (utf8 "[^\w\sÀ-ỹ\n\.\,\!\?\-\•\:\(\)]") = filter_pat.
Proof. vm_compute. reflexivity. Qed.

Lemma compile_spaces : re_compile (utf8 "\s+") = spaces_pat.
Proof. vm_compute. reflexivity. Qed.

Lemma compile_blank_lines :
  exists r, re_compile (utf8 "\n\s*\n\s*\n+") = Pattern false (RSeq (RChar nl) r).
Proof. eexists. vm_compute. reflexivity. Qed.

Lemma compile_line_start :
  exists r, re_compile (utf8 "\n\s+") = Pattern false (RSeq (RChar nl) r).
Proof. eexists. vm_compute. reflexivity. Qed.

Lemma compile_bullet : re_compile (utf8 "•\s*") = bullet_pat.
Proof. vm_compute. reflexivity. Qed.

Lemma compile_number : re_compile (utf8 "(\d+)\.\s*") = number_pat.
Proof. vm_compute. reflexivity. Qed.

Lemma compile_punctuation :
  re_compile (utf8 "[\.!?\)\:]$")
  = Pattern false (RSeq (RSet false punctuation_items) REol).
Proof. vm_compute. reflexivity. Qed.

Section Steps.
Context {U : UnicodeDB}.
Hypothesis laws : unicode_laws U.

Import TextCleaner.

Lemma filter_step_eq (t : str) :
  filter_step t
  = flat_map (fun c => if set_matches F0 true filter_items c
                       then [32%N] else [c]) t.
Proof.
  unfold filter_step, re_sub, re_sub_fn. rewrite compile_filter.
  apply class_sub. reflexivity.
Qed.

(** Step 4: only the first substitution of [normalize_whitespace]
    changes the text, and its result is single-spaced. *)
Lemma normalize_whitespace_eq (t : str) :
  normalize_whitespace t = re_sub NOFLAGS (utf8 "\s+") (utf8 " ") t
  /\ single_spaced (normalize_whitespace t).
Proof.
  unfold normalize_whitespace.
  set (w := re_sub NOFLAGS (utf8 "\s+") (utf8 " ") t).
  assert (Hw : single_spaced w).
  { unfold w, re_sub, re_sub_fn. rewrite compile_spaces.
    apply (spaces_pass _ (fun _ => eq_refl) (length t)). lia. }
  pose proof (single_spaced_no_newline laws w Hw) as Hnl.
  destruct compile_blank_lines as [r2 E2].
  destruct compile_line_start as [r3 E3].
  assert (H2 : re_sub NOFLAGS (utf8 "\n\s*\n\s*\n+") [nl; nl] w = w).
  { unfold re_sub, re_sub_fn. rewrite E2. now apply literal_sub_id. }
  rewrite H2.
  assert (H3 : re_sub NOFLAGS (utf8 "\n\s+") [nl] w = w).
  { unfold re_sub, re_sub_fn. rewrite E3. now apply literal_sub_id. }
  rewrite H3. auto.
Qed.

Lemma normalize_whitespace_id (y : str) :
  single_spaced y -> normalize_whitespace y = y.
Proof.
  intros Hy. rewrite (proj1 (normalize_whitespace_eq y)).
  unfold re_sub, re_sub_fn. rewrite compile_spaces.
  apply (spaces_id _ (fun _ => eq_refl) (length y)); [lia|exact Hy].
Qed.

(** Step 5 *)
Lemma standardize_formatting_shape (w : str) :
  single_spaced w ->
  let z := standardize_formatting w in
  single_spaced z /\ bullets_spaced z /\ numbers_spaced false z.
Proof.
  intros Hw. unfold standardize_formatting.
  set (v := re_sub NOFLAGS (utf8 "•\s*") (utf8 "• ") w).
  assert (Hv : single_spaced v /\ bullets_spaced v).
  { unfold v, re_sub, re_sub_fn. rewrite compile_bullet.
    destruct (bullet_pass laws _ (fun _ => eq_refl) (length w) w 0 None)
      as (H1 & H2 & _); [lia|exact Hw|]. auto. }
  destruct Hv as [Hv1 Hv2].
  unfold re_sub, re_sub_fn. rewrite compile_number.
  destruct (number_pass laws v (length v) v 0 None false)
    as (H1 & H2 & H3 & _); auto. discriminate.
Qed.

Lemma bullet_tail_cases (y : str) :
  bullet_tail y = []
  \/ (bullet_tail y = [32%N] /\ exists l, y = l ++ [8226%N]).
Proof.
  induction y as [|c y IH]; [now left|].
  destruct y as [|c1 y1].
  - cbn [bullet_tail]. destruct (N.eqb_spec c 8226) as [->|]; [|now left].
    right. split; [reflexivity|]. now exists [].
  - change (bullet_tail (c :: c1 :: y1)) with (bullet_tail (c1 :: y1)).
    destruct IH as [IH|[IH [l Hl]]]; [now left|].
    right. split; [exact IH|]. exists (c :: l). now rewrite Hl.
Qed.

Lemma number_tail_cases (y : str) : forall pd,
  number_tail pd y = [] \/ number_tail pd y = [32%N].
Proof.
  induction y as [|c y IH]; intros pd; [now left|].
  destruct y as [|c1 y1].
  - cbn [number_tail]. destruct (pd && (c =? 46)%N); auto.
  - rewrite number_tail_cons2. apply IH.
Qed.

Lemma number_tail_snoc_space (l : str) : forall pd,
  number_tail pd (l ++ [32%N]) = [].
Proof.
  induction l as [|c l IH]; intros pd.
  - cbn [app number_tail]. now rewrite andb_false_r.
  - destruct l as [|c1 l1].
    + cbn [app]. rewrite number_tail_cons2. apply (IH (isdecimal c)).
    + cbn [app]. rewrite number_tail_cons2. apply (IH (isdecimal c)).
Qed.

Lemma single_spaced_snoc (l : str) (c : char) :
  isspace c = false -> single_spaced (l ++ [c]) ->
  single_spaced ((l ++ [c]) ++ [32%N]).
Proof.
  intros Hc. induction l as [|a l IH]; intros H.
  - simpl. split; [congruence|]. split; [|exact I].
    intros _. split; [reflexivity|exact I].
  - destruct H as [Ha H]. cbn [app]. split; [|now apply IH].
    intros E. destruct (Ha E) as [-> Hh]. split; [reflexivity|].
    destruct l; exact Hh.
Qed.

Lemma numbers_spaced_snoc (l : str) : forall pd,
  numbers_spaced pd l -> numbers_spaced pd (l ++ [32%N]).
Proof.
  induction l as [|a l IH]; intros pd H.
  - simpl. split; [|exact I]. intros _ [=].
  - destruct H as [Ha H]. cbn [app]. split; [|now apply IH].
    intros Hpd E. specialize (Ha Hpd E).
    destruct l; [reflexivity|exact Ha].
Qed.

(** On a text of the normalized shape step 5 changes nothing, or adds
    one space at the end. *)
Lemma standardize_formatting_id (y : str) :
  single_spaced y -> bullets_spaced y -> numbers_spaced false y ->
  standardize_formatting y = y \/ standardize_formatting y = y ++ [32%N].
Proof.
  intros Hss Hbl Hnm. unfold standardize_formatting.
  set (v := re_sub NOFLAGS (utf8 "•\s*") (utf8 "• ") y).
  assert (Hv : v = y ++ bullet_tail y).
  { unfold v, re_sub, re_sub_fn. rewrite compile_bullet.
    apply (bullet_id laws _ (fun _ => eq_refl) (length y)); auto. }
  assert (Hn : forall v0, single_spaced v0 -> numbers_spaced false v0 ->
             re_sub NOFLAGS (utf8 "(\d+)\.\s*") (utf8 "\1. ") v0
             = v0 ++ number_tail false v0).
  { intros v0 H1 H2. unfold re_sub, re_sub_fn. rewrite compile_number.
    apply (number_id laws v0 (length v0) v0 0 None false); auto.
    discriminate. }
  destruct (bullet_tail_cases y) as [E|[E [l Hl]]]; rewrite E in Hv.
  - rewrite app_nil_r in Hv. rewrite Hv, (Hn y Hss Hnm).
    destruct (number_tail_cases y false) as [->| ->]; [left|right];
      [now rewrite app_nil_r|reflexivity].
  - right. rewrite Hv, Hn.
    + now rewrite number_tail_snoc_space, app_nil_r.
    + rewrite Hl in Hss |- *.
      apply single_spaced_snoc; [exact (law_bullet_space U laws)|exact Hss].
    + now apply numbers_spaced_snoc.
Qed.

(** Step 6 *)
Lemma search_from_last (fl : re_flags) (p : pattern) (c : char) :
  (forall pos prev, is_Some (match_here fl p pos prev [c])) ->
  forall l pos prev, is_Some (search_from fl p pos prev (l ++ [c])).
Proof.
  intros Hm. induction l as [|a l IH]; intros pos prev; cbn [app search_from].
  - destruct (Hm pos prev) as [m ->]. eauto.
  - destruct (match_here fl p pos prev (a :: l ++ [c])); [eauto|apply IH].
Qed.

Lemma ellipsis_has_punctuation (line : str) :
  endswith (utf8 "...") line = true ->
  is_Some (re_search NOFLAGS (utf8 "[\.!?\)\:]$") line).
Proof.
  unfold endswith. intros H.
  destruct (rev line) as [|c r] eqn:E; [discriminate|].
  change (rev (utf8 "...")) with [46; 46; 46]%N in H.
  cbn [startswith] in H. apply andb_true_iff in H as [Hc _].
  apply N.eqb_eq in Hc. subst c.
  assert (Hl : line = rev r ++ [46%N]).
  { rewrite <- (rev_involutive line), E. reflexivity. }
  rewrite Hl. unfold re_search. rewrite compile_punctuation.
  apply search_from_last. intros pos prev.
  rewrite match_here_eq. cbn. eauto.
Qed.

Lemma complete_lines_single (l : str) :
  complete_lines [l] = []
  \/ (complete_lines [l] = [strip l] /\ 10 <= length (strip l)).
Proof.
  cbn [complete_lines]. destruct (strip l) as [|c s] eqn:E; [now left|].
  destruct (Nat.ltb_spec (length (c :: s)) 10); [now left|].
  match goal with |- context [if ?b then _ else _] => destruct b end;
    [now left|right; auto].
Qed.

Lemma complete_lines_kept (v y : str) :
  strip v = y -> 10 <= length y -> complete_lines [v] = [y].
Proof.
  intros Hv Hlen. cbn [complete_lines]. rewrite Hv.
  destruct y as [|c s]; [simpl in Hlen; lia|].
  destruct (Nat.ltb_spec (length (c :: s)) 10); [lia|].
  destruct (endswith (utf8 "...") (c :: s)) eqn:Ee.
  - rewrite (bool_decide_eq_true_2 _ (ellipsis_has_punctuation _ Ee)).
    now rewrite andb_false_r.
  - now rewrite andb_false_r.
Qed.

End Steps.

Section Idempotence.
Context {U : UnicodeDB}.
Hypothesis laws : unicode_laws U.

Import TextCleaner.

Lemma clean_text_nonempty (t : str) :
  t <> [] ->
  clean_text t
  = strip (remove_incomplete_lines (standardize_formatting
      (normalize_whitespace (filter_step
        (remove_company_noise (fix_vietnamese_encoding t)))))).
Proof.
  destruct t; [contradiction|]. unfold clean_text, filter_step. reflexivity.
Qed.

Lemma template_space_chars (c : char) :
  In (TLit c) (parse_template (utf8 " ")) -> allowed c.
Proof.
  replace (parse_template (utf8 " ")) with [TLit 32%N]
    by (vm_compute; reflexivity).
  intros [H|[]]; injection H as <-. apply (allowed_space laws).
Qed.

Lemma template_bullet_chars (c : char) :
  In (TLit c) (parse_template (utf8 "• ")) -> allowed c.
Proof.
  replace (parse_template (utf8 "• ")) with [TLit 8226%N; TLit 32%N]
    by (vm_compute; reflexivity).
  intros [H|[H|[]]]; injection H as <-.
  - apply allowed_literal. unfold filter_items.
    do 9 right. left. reflexivity.
  - apply (allowed_space laws).
Qed.

Lemma template_number_chars (c : char) :
  In (TLit c) (parse_template (utf8 "\1. ")) -> allowed c.
Proof.
  replace (parse_template (utf8 "\1. ")) with [TGroup 1; TLit 46%N; TLit 32%N]
    by (vm_compute; reflexivity).
  intros [H|[H|[H|[]]]]; [discriminate H| |]; injection H as <-.
  - apply allowed_literal. unfold filter_items.
    do 4 right. left. reflexivity.
  - apply (allowed_space laws).
Qed.

Lemma re_sub_chars (fl : re_flags) (p repl text : str) :
  (forall c, In (TLit c) (parse_template repl) -> allowed c) ->
  Forall allowed text -> Forall allowed (re_sub fl p repl text).
Proof.
  intros Hr Ht. unfold re_sub, re_sub_fn.
  apply sub_loop_chars; [|exact Ht].
  intros m. apply expand_chars; [exact Ht|exact Hr].
Qed.

Lemma steps_shape (t : str) :
  let z := standardize_formatting (normalize_whitespace (filter_step t)) in
  single_spaced z /\ bullets_spaced z /\ numbers_spaced false z
  /\ Forall allowed z.
Proof.
  intros z.
  assert (Hf : Forall allowed (filter_step t))
    by (rewrite filter_step_eq; apply (filter_allowed laws)).
  destruct (normalize_whitespace_eq laws (filter_step t)) as [Ew Hw].
  assert (Hwa : Forall allowed (normalize_whitespace (filter_step t))).
  { rewrite Ew. apply re_sub_chars; [exact template_space_chars|exact Hf]. }
  destruct (standardize_formatting_shape laws _ Hw) as (H1 & H2 & H3).
  split; [exact H1|]. split; [exact H2|]. split; [exact H3|].
  unfold z, standardize_formatting.
  apply re_sub_chars; [exact template_number_chars|].
  apply re_sub_chars; [exact template_bullet_chars|exact Hwa].
Qed.

Lemma clean_text_normalized (x : str) :
  clean_text x = [] \/ normalized (clean_text x).
Proof.
  destruct x as [|c x]; [left; reflexivity|].
  rewrite clean_text_nonempty by discriminate.
  set (t := remove_company_noise (fix_vietnamese_encoding (c :: x))).
  destruct (steps_shape t) as (H1 & H2 & H3 & H4).
  set (z := standardize_formatting (normalize_whitespace (filter_step t))) in *.
  unfold remove_incomplete_lines.
  rewrite (split_lines_no_newline z (single_spaced_no_newline laws z H1)).
  destruct (complete_lines_single z) as [-> |[-> Hlen]]; [left; reflexivity|].
  right. cbn [join]. rewrite strip_idempotent.
  destruct (strip_shape laws z H1 H2 H3) as (S1 & S2 & S3).
  unfold normalized.
  split; [exact S1|]. split; [exact S2|]. split; [exact S3|].
  split; [apply strip_chars; exact H4|].
  split; [apply strip_idempotent|exact Hlen].
Qed.

(** Steps 3 to 6 leave a text of the normalized shape unchanged. *)
Lemma steps_normalized (y : str) :
  normalized y ->
  strip (remove_incomplete_lines (standardize_formatting
    (normalize_whitespace (filter_step y)))) = y.
Proof.
  intros (H1 & H2 & H3 & H4 & H5 & H6).
  rewrite filter_step_eq, (filter_id y H4).
  rewrite (normalize_whitespace_id laws y H1).
  assert (Hne : y <> []) by (intros ->; cbn [length] in H6; lia).
  pose proof (single_spaced_no_newline laws y H1) as Hnl.
  unfold remove_incomplete_lines.
  destruct (standardize_formatting_id laws y H1 H2 H3) as [-> | ->].
  - rewrite (split_lines_no_newline y Hnl).
    rewrite (complete_lines_kept y y H5 H6). cbn [join]. exact H5.
  - rewrite split_lines_no_newline.
    + rewrite (complete_lines_kept _ y (strip_app_space laws y H5 Hne) H6).
      cbn [join]. exact H5.
    + apply Forall_app. split; [exact Hnl|]. repeat constructor. discriminate.
Qed.

End Idempotence.

(** *** The laws hold of Python's tables *)

Lemma py_space_not_decimal (c : char) :
  py_isspace c = true -> py_isdecimal c = false.
Proof.
  intros Hs. destruct (py_isdecimal c) eqn:Hd; [exfalso|reflexivity].
  apply existsb_exists in Hd as (r & Hin & Hr).
  unfold py_isspace, in_rng in Hs. unfold in_rng in Hr.
  rewrite ?orb_true_iff, ?andb_true_iff, ?N.leb_le, ?N.eqb_eq in Hs.
  rewrite andb_true_iff, !N.leb_le in Hr.
  unfold decimal_runs in Hin.
  repeat (destruct Hin as [<-|Hin]; [cbn [fst snd] in Hr; lia|]).
  destruct Hin.
Qed.

Lemma py_unicode_laws : unicode_laws py_unicode.
Proof.
  split; try reflexivity. exact py_space_not_decimal.
Qed.

Section Claims.
Context {U : UnicodeDB}.

(** C1 (amended).  [extract_course_info] normalizes the text, and
    [_create_fixed_sections] normalizes the result once more before the
    three slot extractors read it.  For a text of at least 100
    characters after trimming such that no candidate pattern of any of
    the three slots matches the text normalized twice,
    [clean_text (clean_text text)], [extract_course_info] returns the
    three fixed placeholder texts, one per slot.  It does not split the
    text into thirds. *)
Theorem extract_course_info_no_headers (text : str) :
  100 <= length (strip text) ->
  no_headers (TextCleaner.clean_text (TextCleaner.clean_text text)) = true ->
  extract_course_info text = Ok placeholder_sections.
Proof.
  intros Hlen Hno.
  destruct (extract_course_info_cases text) as [[Hlt _]|[_ H]]; [lia|].
  rewrite H. f_equal. now apply no_headers_placeholders.
Qed.

(** C2 (amended).  For every text whose length after trimming is at
    least 100, [extract_course_info] returns exactly the three sections,
    each with a non-empty text. *)
Theorem extract_course_info_three_sections (text : str) :
  100 <= length (strip text) ->
  exists sections,
    extract_course_info text = Ok sections /\ three_sections sections.
Proof. apply extract_course_info_long. Qed.

(** C5 (amended).  When [find_section_boundaries] returns a span for
    the duration section and "III. Hình thức" begins 40 characters after
    the start of the span, the span ends strictly after the position
    where "III. Hình thức" begins: the end is never moved below 50
    characters after the start. *)
Theorem duration_span_covers_format_heading (text : str) (s e : nat) :
  find_section_boundaries text "duration" = Ok (Some (s, e)) ->
  startswith (utf8 "III. Hình thức") (drop (s + 40) text) = true ->
  s + 40 < e.
Proof.
  intros Hb Hh. apply find_section_boundaries_end in Hb.
  apply startswith_length in Hh. rewrite length_drop in Hh.
  change (length (utf8 "III. Hình thức")) with 14 in Hh. lia.
Qed.

(** C6 (amended).  [clean_text] is idempotent on the texts that its own
    first two steps leave alone: if encoding repair and noise removal do
    not change [clean_text x], then normalizing [clean_text x] again
    gives [clean_text x].  (Steps 3 to 6 never change a text that
    [clean_text] has returned; steps 1 and 2 can.) *)
Theorem clean_text_idempotent_when (x : str) :
  unicode_laws U ->
  TextCleaner.remove_company_noise
    (TextCleaner.fix_vietnamese_encoding (TextCleaner.clean_text x))
  = TextCleaner.clean_text x ->
  TextCleaner.clean_text (TextCleaner.clean_text x) = TextCleaner.clean_text x.
Proof.
  intros laws Hfix.
  destruct (clean_text_normalized laws x) as [E|Hn].
  - rewrite E. reflexivity.
  - assert (Hne : TextCleaner.clean_text x <> []).
    { destruct Hn as (_ & _ & _ & _ & _ & Hlen).
      intros E. rewrite E in Hlen. cbn [length] in Hlen. lia. }
    rewrite (clean_text_nonempty (TextCleaner.clean_text x) Hne), Hfix.
    exact (steps_normalized laws _ Hn).
Qed.

(** C7.  For a text of fewer than 100 characters (the empty text
    included) [extract_course_info] returns the empty map; and for every
    text it returns a map: no exception is raised. *)
Theorem extract_course_info_no_input (text : str) :
  (length text < 100 -> extract_course_info text = Ok ∅)
  /\ exists sections, extract_course_info text = Ok sections.
Proof.
  split; [apply extract_course_info_short|apply extract_course_info_total].
Qed.

(** C8.  When the extraction returns a non-empty map, [load_pdf_file]
    returns exactly three documents, for the keys
    section1_intro_duration, section2_objectives_audience and
    section3_content in this order, each with the title of its slot, the
    text of its section, and metadata with exactly the keys source,
    course_name, section, section_title and section_type. *)
Theorem load_pdf_file_three_documents (source course_name : str)
    (pages : list str) (chunks : list PDFLoader.Document)
    (sections : gmap string str) :
  extract_course_info (join [nl] pages) = Ok sections ->
  sections <> ∅ ->
  exists d1 d2 d3,
    PDFLoader.load_pdf_file source course_name pages chunks = [d1; d2; d3]
    /\ map section_of [d1; d2; d3]
       = [Some (utf8 "section1_intro_duration");
          Some (utf8 "section2_objectives_audience");
          Some (utf8 "section3_content")]
    /\ map title_of [d1; d2; d3]
       = [Some (utf8 "Giới thiệu và Thời lượng");
          Some (utf8 "Mục tiêu và Đối tượng");
          Some (utf8 "Nội dung Khóa học")]
    /\ map (fun d => Some (PDFLoader.page_content d)) [d1; d2; d3]
       = [sections !! "section1_intro_duration"%string;
          sections !! "section2_objectives_audience"%string;
          sections !! "section3_content"%string]
    /\ Forall (fun d => dom (PDFLoader.metadata d) = metadata_keys)
         [d1; d2; d3].
Proof.
  intros Hex Hne. unfold PDFLoader.load_pdf_file. rewrite Hex.
  apply extract_course_info_empty_or_three in Hex as [->|H3]; [congruence|].
  pose proof (three_sections_size _ H3) as Hsize.
  unfold PDFLoader.build_documents.
  rewrite Hsize, bool_decide_eq_true_2 by exact Hne.
  cbn [andb Nat.leb PDFLoader.section_configs map].
  do 3 eexists. split; [reflexivity|].
  destruct H3 as [Hdom _].
  assert (Hk : forall k, k ∈ section_keys -> exists s, sections !! k = Some s).
  { intros k Hk. rewrite <- Hdom in Hk.
    apply elem_of_dom in Hk as [s Hs]. eauto. }
  destruct (Hk "section1_intro_duration"%string) as [s1 Hs1];
    [unfold section_keys; set_solver|].
  destruct (Hk "section2_objectives_audience"%string) as [s2 Hs2];
    [unfold section_keys; set_solver|].
  destruct (Hk "section3_content"%string) as [s3 Hs3];
    [unfold section_keys; set_solver|].
  split; [reflexivity|]. split; [reflexivity|]. split.
  - unfold PDFLoader.section_document. cbn [map PDFLoader.page_content].
    rewrite Hs1, Hs2, Hs3. reflexivity.
  - repeat constructor; apply section_document_keys.
Qed.

(** C10.  The result of [extract_course_info] is the empty map or a map
    with exactly the three section keys, so that it has at least two
    entries exactly when it is not empty. *)
Theorem extract_course_info_all_or_nothing (text : str)
    (sections : gmap string str) :
  extract_course_info text = Ok sections ->
  (sections = ∅ \/ dom sections = section_keys)
  /\ (2 <= size sections <-> sections <> ∅).
Proof.
  intros H. apply extract_course_info_empty_or_three in H as [->|H3].
  - split; [now left|]. rewrite map_size_empty. split; [lia|congruence].
  - pose proof (three_sections_size _ H3) as Hsize.
    split; [right; apply H3|]. split; [|lia].
    intros _ ->. rewrite map_size_empty in Hsize. discriminate.
Qed.

End Claims.

(** ** The program on concrete texts

    The statements below run the program with the tables [py_unicode]. *)

(** Every pattern of the program is accepted by [re_parse]. *)
Example patterns_compile :
  forallb (fun p => bool_decide (is_Some (re_parse p)))
    (TextCleaner.company_noise_patterns ++ TextCleaner.generic_fixes
     ++ TextCleaner.company_blocks ++ TextCleaner.course_content_patterns
     ++ TextCleaner.course_structure_keywords
     ++ TextCleaner.isolated_patterns
     ++ map utf8 ["\s+"; "\n\s*\n\s*\n+"; "\n\s+"; "•\s*"; "(\d+)\.\s*";
                  "[^\w\sÀ-ỹ\n\.\,\!\?\-\•\:\(\)]"; "[\.!?\)\:]$";
                  "^[ivx]+\.\s*"; "^\d+\.\s*";
                  "(\d+)\s*(giờ|ngày|tuần|tháng)"; "Module\s*(\d+)";
                  "Chương\s*(\d+)"; "(?:^|\n)([^•\n])"]%string
     ++ flat_map (fun c =>
          patterns (snd c) ++ stop_patterns (snd c)
          ++ map keyword_pattern (keywords (snd c))
          ++ [re_escape (title (snd c)) ++ utf8 ":?"]) section_configs
     ++ generic_stops
     ++ map utf8 (intro_patterns ++ duration_patterns ++ meaningful_patterns
                  ++ objectives_patterns ++ audience_patterns
                  ++ prereq_patterns ++ fallback_patterns
                  ++ content_patterns ++ module_patterns))
  = true.
Proof. vm_cast_no_check (eq_refl true). Qed.

Example clean_text_prose : TextCleaner.clean_text prose = prose.
Proof. vm_cast_no_check (eq_refl prose). Qed.

(** C1, counterexample.  The prose has no section header; its three
    sections are the placeholders, and their concatenation is not the
    normalized text. *)
Lemma equal_thirds_counterexample :
  no_headers (TextCleaner.clean_text prose) = true
  /\ extract_course_info prose = Ok placeholder_sections
  /\ sections_concat placeholder_sections <> TextCleaner.clean_text prose.
Proof.
  split; [vm_cast_no_check (eq_refl true)|].
  split; [vm_cast_no_check (eq_refl (Ok placeholder_sections))|].
  rewrite clean_text_prose. intros H.
  apply (f_equal (@length char)) in H. vm_compute in H. discriminate.
Qed.

Lemma extract_course_info_no_headers_witness :
  100 <= length (strip prose)
  /\ no_headers (TextCleaner.clean_text (TextCleaner.clean_text prose)) = true
  /\ extract_course_info prose = Ok placeholder_sections.
Proof.
  assert (H1 : 100 <= length (strip prose)) by (vm_compute; lia).
  assert (H2 : no_headers (TextCleaner.clean_text
                             (TextCleaner.clean_text prose)) = true)
    by (vm_compute; reflexivity).
  split; [exact H1|]. split; [exact H2|].
  exact (extract_course_info_no_headers prose H1 H2).
Defined.

(** C2, counterexample.  A text of 100 spaces has length 100, and the
    result for it is the empty map, not three sections. *)
Lemma three_sections_counterexample :
  100 <= length blank
  /\ ~ exists sections,
         extract_course_info blank = Ok sections /\ three_sections sections.
Proof.
  split; [vm_compute; lia|].
  assert (He : extract_course_info blank = Ok ∅)
    by vm_cast_no_check (eq_refl (Ok (∅ : gmap string str))).
  intros (sections & H & Hdom & _).
  rewrite He in H. injection H as <-.
  rewrite dom_empty_L in Hdom.
  assert (Hin : "section3_content"%string ∈ section_keys)
    by (unfold section_keys; set_solver).
  rewrite <- Hdom in Hin. set_solver.
Qed.

Lemma extract_course_info_three_sections_witness :
  100 <= length (strip prose)
  /\ exists sections,
       extract_course_info prose = Ok sections /\ three_sections sections.
Proof.
  assert (H1 : 100 <= length (strip prose)) by (vm_compute; lia).
  split; [exact H1|]. exact (extract_course_info_three_sections prose H1).
Defined.

(** C3.  The line "Module 3 — Tầng 5, Quận 1" has a module reference
    and an address.  The first pass of [remove_company_noise] collects
    the whole line as course content to preserve, but the collection is
    never read: the third pass removes "Tầng 5, Quận 1", whose matched
    text has no course keyword, and [clean_text] returns the empty
    text.  For the line "Tầng 5 Module 3 nâng cao"
    [remove_company_noise] itself returns the empty text, though the
    line has a module reference. *)
Theorem course_line_not_preserved :
  is_Some (re_search (IGNORECASE ||| MULTILINE)
             (utf8 "Tầng \d+.*?(?=\n[A-ZÀÁẢÃẠ]|\n\n|$)") module_address_line)
  /\ TextCleaner.has_course_content module_address_line = true
  /\ TextCleaner.preserved_content module_address_line = [module_address_line]
  /\ TextCleaner.remove_company_noise module_address_line = utf8 "Module 3 —"
  /\ TextCleaner.clean_text module_address_line = []
  /\ TextCleaner.has_course_content address_then_module = true
  /\ TextCleaner.preserved_content address_then_module
     = [utf8 "Module 3 nâng cao"]
  /\ TextCleaner.remove_company_noise address_then_module = [].
Proof.
  split; [vm_compute; eauto|].
  split; [vm_cast_no_check (eq_refl true)|].
  split; [vm_cast_no_check (eq_refl [module_address_line])|].
  split; [vm_cast_no_check (eq_refl (utf8 "Module 3 —"))|].
  split; [vm_cast_no_check (eq_refl (@nil char))|].
  split; [vm_cast_no_check (eq_refl true)|].
  split; [vm_cast_no_check (eq_refl [utf8 "Module 3 nâng cao"])|].
  vm_cast_no_check (eq_refl (@nil char)).
Qed.

(** C4.  A duration statement followed by the heading "Hình thức đào
    tạo" and its body: the text is already normalized, and section 1 is
    the body of the training format, taken by the last group of patterns
    of [_extract_precise_section1]. *)
Theorem training_format_in_intro_duration :
  TextCleaner.clean_text duration_then_format = duration_then_format
  /\ _extract_precise_section1 duration_then_format
     = utf8 "Tổng quan khóa học:" ++ [nl] ++ training_format_body
  /\ exists sections,
       extract_course_info duration_then_format = Ok sections
       /\ sections !! "section1_intro_duration"%string
          = Some (utf8 "Tổng quan khóa học:" ++ [nl] ++ training_format_body).
Proof.
  split; [|split].
  - vm_cast_no_check (eq_refl duration_then_format).
  - vm_cast_no_check
      (eq_refl (utf8 "Tổng quan khóa học:" ++ [nl] ++ training_format_body)).
  - exists (_create_fixed_sections
              (TextCleaner.clean_text duration_then_format)).
    split.
    + vm_cast_no_check
        (eq_refl (Ok (_create_fixed_sections
                        (TextCleaner.clean_text duration_then_format)))).
    + vm_cast_no_check
        (eq_refl (Some (utf8 "Tổng quan khóa học:" ++ [nl]
                        ++ training_format_body))).
Qed.

(** C5, counterexample.  "II. Thời lượng" begins at offset 0 and "III.
    Hình thức" at offset 40; the duration span is (0, 66), which does
    not end before offset 40. *)
Lemma boundary_tie_break_counterexample :
  startswith (utf8 "II. Thời lượng") duration_format_headings = true
  /\ startswith (utf8 "III. Hình thức") (drop 40 duration_format_headings)
     = true
  /\ find_section_boundaries duration_format_headings "duration"
     = Ok (Some (0, 66))
  /\ ~ 66 < 40.
Proof.
  split; [vm_cast_no_check (eq_refl true)|].
  split; [vm_cast_no_check (eq_refl true)|].
  split; [|lia].
  vm_cast_no_check (eq_refl (Ok (Some (0, 66)) : result (option (nat * nat)))).
Qed.

Lemma duration_span_covers_format_heading_witness :
  find_section_boundaries duration_format_headings "duration"
  = Ok (Some (0, 66))
  /\ startswith (utf8 "III. Hình thức")
       (drop (0 + 40) duration_format_headings) = true
  /\ 0 + 40 < 66.
Proof.
  assert (H1 : find_section_boundaries duration_format_headings "duration"
               = Ok (Some (0, 66))) by (vm_compute; reflexivity).
  assert (H2 : startswith (utf8 "III. Hình thức")
                 (drop (0 + 40) duration_format_headings) = true)
    by (vm_compute; reflexivity).
  split; [exact H1|]. split; [exact H2|].
  exact (duration_span_covers_format_heading _ _ _ H1 H2).
Defined.

(** C6, counterexample.  "gi  ờ abcdefghijk" is normalized to "gi ờ
    abcdefghijk", and that to "giờ abcdefghijk". *)
Lemma idempotence_counterexample :
  TextCleaner.clean_text split_syllable = utf8 "gi ờ abcdefghijk"
  /\ TextCleaner.clean_text (TextCleaner.clean_text split_syllable)
     = utf8 "giờ abcdefghijk"
  /\ TextCleaner.clean_text (TextCleaner.clean_text split_syllable)
     <> TextCleaner.clean_text split_syllable.
Proof.
  assert (H1 : TextCleaner.clean_text split_syllable = utf8 "gi ờ abcdefghijk")
    by vm_cast_no_check (eq_refl (utf8 "gi ờ abcdefghijk")).
  assert (H2 : TextCleaner.clean_text (utf8 "gi ờ abcdefghijk")
               = utf8 "giờ abcdefghijk")
    by vm_cast_no_check (eq_refl (utf8 "giờ abcdefghijk")).
  rewrite H1, H2. repeat split. intros H.
  apply (f_equal (@length char)) in H. vm_compute in H. discriminate.
Qed.

(** C6, witness: the prose is normalized to a text that the first two
    steps leave alone. *)
Lemma clean_text_idempotent_when_witness :
  unicode_laws py_unicode
  /\ TextCleaner.remove_company_noise
       (TextCleaner.fix_vietnamese_encoding (TextCleaner.clean_text prose))
     = TextCleaner.clean_text prose
  /\ TextCleaner.clean_text (TextCleaner.clean_text prose)
     = TextCleaner.clean_text prose.
Proof.
  assert (H2 : TextCleaner.remove_company_noise
       (TextCleaner.fix_vietnamese_encoding (TextCleaner.clean_text prose))
     = TextCleaner.clean_text prose) by (vm_compute; reflexivity).
  split; [exact py_unicode_laws|]. split; [exact H2|].
  exact (clean_text_idempotent_when prose py_unicode_laws H2).
Defined.

Lemma extract_course_info_no_input_witness :
  length short_text < 100 /\ extract_course_info short_text = Ok ∅.
Proof.
  assert (H1 : length short_text < 100) by (vm_compute; lia).
  split; [exact H1|].
  exact (proj1 (extract_course_info_no_input short_text) H1).
Defined.

Lemma load_pdf_file_three_documents_witness :
  extract_course_info (join [nl] [prose]) = Ok placeholder_sections
  /\ placeholder_sections <> ∅
  /\ exists d1 d2 d3,
    PDFLoader.load_pdf_file (utf8 "prose.pdf") (utf8 "prose") [prose] []
    = [d1; d2; d3]
    /\ map section_of [d1; d2; d3]
       = [Some (utf8 "section1_intro_duration");
          Some (utf8 "section2_objectives_audience");
          Some (utf8 "section3_content")]
    /\ map title_of [d1; d2; d3]
       = [Some (utf8 "Giới thiệu và Thời lượng");
          Some (utf8 "Mục tiêu và Đối tượng");
          Some (utf8 "Nội dung Khóa học")]
    /\ map (fun d => Some (PDFLoader.page_content d)) [d1; d2; d3]
       = [placeholder_sections !! "section1_intro_duration"%string;
          placeholder_sections !! "section2_objectives_audience"%string;
          placeholder_sections !! "section3_content"%string]
    /\ Forall (fun d => dom (PDFLoader.metadata d) = metadata_keys)
         [d1; d2; d3].
Proof.
  assert (H1 : extract_course_info (join [nl] [prose])
               = Ok placeholder_sections) by (vm_compute; reflexivity).
  assert (H2 : placeholder_sections <> ∅).
  { unfold placeholder_sections. apply insert_non_empty. }
  split; [exact H1|]. split; [exact H2|].
  exact (load_pdf_file_three_documents (utf8 "prose.pdf") (utf8 "prose")
           [prose] [] placeholder_sections H1 H2).
Defined.

(** C9.  For twenty capital I with dot above followed by "tổng quan"
    the span of the overview section is (40, 29) in a text of 29
    characters: its start lies after its end and after the end of the
    text. *)
Theorem span_outside_text :
  length dotted_capitals = 29
  /\ find_section_boundaries dotted_capitals "overview" = Ok (Some (40, 29)).
Proof.
  split; [reflexivity|].
  vm_cast_no_check (eq_refl (Ok (Some (40, 29)) : result (option (nat * nat)))).
Qed.

Lemma extract_course_info_all_or_nothing_witness :
  extract_course_info prose = Ok placeholder_sections
  /\ (placeholder_sections = ∅ \/ dom placeholder_sections = section_keys)
  /\ (2 <= size placeholder_sections <-> placeholder_sections <> ∅).
Proof.
  assert (H1 : extract_course_info prose = Ok placeholder_sections)
    by (vm_compute; reflexivity).
  split; [exact H1|].
  exact (extract_course_info_all_or_nothing prose placeholder_sections H1).
Defined.

(** * Further properties of the code *)

(** ** Lines *)

Lemma split_lines_acc_lines (s cur : str) :
  Forall (fun c => c <> nl) cur ->
  Forall (Forall (fun c => c <> nl)) (split_lines_acc cur s).
Proof.
  revert cur. induction s as [|c s IH]; intros cur Hcur; cbn [split_lines_acc].
  - constructor; [|constructor]. apply Forall_rev. exact Hcur.
  - destruct (N.eqb_spec c nl) as [->|Hc].
    + constructor; [apply Forall_rev; exact Hcur|]. apply IH. constructor.
    + apply IH. constructor; assumption.
Qed.

Lemma split_lines_lines (s : str) :
  Forall (Forall (fun c => c <> nl)) (split_lines s).
Proof. apply split_lines_acc_lines. constructor. Qed.

Lemma split_lines_acc_app (l rest cur : str) :
  Forall (fun c => c <> nl) l ->
  split_lines_acc cur (l ++ nl :: rest)
  = (rev cur ++ l) :: split_lines_acc [] rest.
Proof.
  revert cur. induction l as [|c l IH]; intros cur Hl; cbn [app split_lines_acc].
  - rewrite N.eqb_refl, app_nil_r. reflexivity.
  - inversion Hl as [|? ? Hc Hl']; subst.
    destruct (N.eqb_spec c nl) as [->|_]; [contradiction|].
    rewrite IH by exact Hl'. cbn [rev]. rewrite <- app_assoc. reflexivity.
Qed.

(** Splitting what was joined gives the lines back. *)
Lemma split_lines_join (x : str) (ls : list str) :
  Forall (Forall (fun c => c <> nl)) (x :: ls) ->
  split_lines (join [nl] (x :: ls)) = x :: ls.
Proof.
  revert x. induction ls as [|y ls IH]; intros x Hall.
  - cbn [join]. apply split_lines_no_newline.
    inversion Hall; assumption.
  - inversion Hall as [|? ? Hx Hrest]; subst.
    change (join [nl] (x :: y :: ls))
      with (x ++ nl :: join [nl] (y :: ls)).
    unfold split_lines. rewrite split_lines_acc_app by exact Hx.
    cbn [rev app]. f_equal. apply (IH y Hrest).
Qed.

Section CleanerFacts.
Context {U : UnicodeDB}.
Import TextCleaner.

Lemma filter_lines_trimmed (ls : list str) :
  Forall (Forall (fun c => c <> nl)) ls ->
  Forall (fun l => (l <> [] /\ strip l = l) /\ Forall (fun c => c <> nl) l)
    (filter_lines ls).
Proof.
  induction ls as [|l ls IH]; intros Hall; cbn [filter_lines]; [constructor|].
  inversion Hall as [|? ? Hl Hls]; subst. specialize (IH Hls).
  pose proof (strip_idempotent l) as Hs.
  pose proof (strip_chars _ l Hl) as Hn.
  destruct (strip l) as [|c s] eqn:E; [exact IH|].
  assert (Hkeep : (c :: s <> [] /\ strip (c :: s) = c :: s)
                  /\ Forall (fun c => c <> nl) (c :: s))
    by (split; [split; [discriminate|exact Hs]|exact Hn]).
  destruct (has_course_content (c :: s)); [constructor; assumption|].
  destruct (skip_line (c :: s)); [exact IH|constructor; assumption].
Qed.

(** The lines of [complete_lines] are the stripped lines of at least ten
    characters: the test for a cut-off line never holds. *)
Lemma complete_lines_filter (ls : list str) :
  complete_lines ls
  = List.filter (fun l => 10 <=? length l) (map strip ls).
Proof.
  induction ls as [|l ls IH]; cbn [complete_lines map List.filter];
    [reflexivity|].
  destruct (strip l) as [|c s] eqn:E; [exact IH|].
  destruct (Nat.ltb_spec (length (c :: s)) 10) as [Hlt|Hge].
  - destruct (Nat.leb_spec 10 (length (c :: s))); [lia|exact IH].
  - destruct (Nat.leb_spec 10 (length (c :: s))); [|lia].
    destruct (endswith (utf8 "...") (c :: s)) eqn:Ee.
    + apply ellipsis_has_punctuation in Ee.
      rewrite (bool_decide_eq_true_2 _ Ee).
      rewrite andb_false_r. cbn [andb]. f_equal. exact IH.
    + rewrite andb_false_r. f_equal. exact IH.
Qed.

End CleanerFacts.

Section CleanerProperties.
Context {U : UnicodeDB}.
Import TextCleaner.

Lemma single_spaced_spaces (s : str) :
  single_spaced s -> Forall (fun c => isspace c = true -> c = 32%N) s.
Proof.
  induction s as [|c s IH]; intros Hs; [constructor|].
  destruct Hs as [Hc Hs]. constructor; [|exact (IH Hs)].
  intros Hsp. exact (proj1 (Hc Hsp)).
Qed.

Lemma allowed_cases (c : char) :
  allowed c ->
  isalnum c = true \/ c = 95%N \/ isspace c = true
  \/ (192 <= c <= 7929)%N
  \/ In c [10; 46; 44; 33; 63; 45; 8226; 58; 40; 41]%N.
Proof.
  unfold allowed, set_matches. cbn [F0 f_i]. intros H.
  destruct (set_has filter_items c) eqn:E; [clear H|discriminate H].
  unfold set_has, filter_items in E. cbn [existsb item_has] in E.
  unfold in_rng in E.
  rewrite ?orb_true_iff, ?andb_true_iff, ?N.eqb_eq, ?N.leb_le in E.
  cbn [In]. decompose [or and] E; clear E; try discriminate; subst; auto 20.
Qed.

(** X1.  [remove_incomplete_lines] keeps exactly the lines that have at
    least ten characters once stripped, in their order and stripped.
    The third test of the loop (a long line that ends with an ellipsis
    and has no final punctuation) never holds, since an ellipsis ends
    with a dot. *)
Theorem remove_incomplete_lines_by_length (text : str) :
  remove_incomplete_lines text
  = join [nl]
      (List.filter (fun l => 10 <=? length l) (map strip (split_lines text))).
Proof.
  unfold remove_incomplete_lines. rewrite complete_lines_filter. reflexivity.
Qed.

(** X2.  Every line of the result of [remove_company_noise] is non-empty
    and has no white space at either end, unless the result is the empty
    text. *)
Theorem remove_company_noise_lines (text : str) :
  remove_company_noise text = []
  \/ Forall (fun l => l <> [] /\ strip l = l)
       (split_lines (remove_company_noise text)).
Proof.
  unfold remove_company_noise.
  set (cleaned := fold_left _ company_noise_patterns _).
  pose proof (filter_lines_trimmed (split_lines cleaned)
                (split_lines_lines cleaned)) as H.
  destruct (filter_lines (split_lines cleaned)) as [|x ls]; [left; reflexivity|].
  right. rewrite split_lines_join.
  - eapply Forall_impl; [exact H|]. intros l [Hl _]. exact Hl.
  - eapply Forall_impl; [exact H|]. intros l [_ Hl]. exact Hl.
Qed.

(** X3.  [normalize_whitespace] is its first substitution: every run of
    white space becomes one space, so the result has no line break and
    the two substitutions for line breaks change nothing. *)
Theorem normalize_whitespace_one_line (text : str) :
  unicode_laws U ->
  normalize_whitespace text = re_sub NOFLAGS (utf8 "\s+") (utf8 " ") text
  /\ single_spaced (normalize_whitespace text)
  /\ Forall (fun c => c <> nl) (normalize_whitespace text).
Proof.
  intros laws. destruct (normalize_whitespace_eq laws text) as [E Hs].
  split; [exact E|]. split; [exact Hs|].
  exact (single_spaced_no_newline laws _ Hs).
Qed.

(** X4.  [normalize_whitespace] is idempotent. *)
Theorem normalize_whitespace_idempotent (text : str) :
  unicode_laws U ->
  normalize_whitespace (normalize_whitespace text) = normalize_whitespace text.
Proof.
  intros laws. apply (normalize_whitespace_id laws).
  exact (proj2 (normalize_whitespace_eq laws text)).
Qed.

(** X5.  The result of [clean_text] is one line without white space at
    either end, in which every white-space character is a single space
    between two other characters. *)
Theorem clean_text_one_line (text : str) :
  unicode_laws U ->
  Forall (fun c => c <> nl) (clean_text text)
  /\ single_spaced (clean_text text)
  /\ strip (clean_text text) = clean_text text.
Proof.
  intros laws. destruct (clean_text_normalized laws text) as [-> |Hn].
  - split; [constructor|]. split; [exact I|]. apply strip_nil.
  - destruct Hn as (H1 & _ & _ & _ & H5 & _).
    split; [exact (single_spaced_no_newline laws _ H1)|].
    split; [exact H1|exact H5].
Qed.

(** X6.  [clean_text] returns the empty text or a text of at least ten
    characters. *)
Theorem clean_text_empty_or_ten (text : str) :
  unicode_laws U ->
  clean_text text = [] \/ 10 <= length (clean_text text).
Proof.
  intros laws. destruct (clean_text_normalized laws text) as [E|Hn].
  - left. exact E.
  - right. exact (proj2 (proj2 (proj2 (proj2 (proj2 Hn))))).
Qed.

(** X7.  Every character of the result of [clean_text] is a word
    character (alphanumeric or underscore), a space, a character from
    U+00C0 to U+1EF9, or one of . , ! ? - • : ( ). *)
Theorem clean_text_characters (text : str) :
  unicode_laws U ->
  Forall (fun c =>
    isalnum c = true \/ c = 95%N \/ c = 32%N \/ (192 <= c <= 7929)%N
    \/ In c [46; 44; 33; 63; 45; 8226; 58; 40; 41]%N) (clean_text text).
Proof.
  intros laws. destruct (clean_text_normalized laws text) as [-> |Hn];
    [constructor|].
  destruct Hn as (H1 & _ & _ & H4 & _ & _).
  pose proof (single_spaced_spaces _ H1) as Hsp.
  pose proof (single_spaced_no_newline laws _ H1) as Hnl.
  revert H4 Hsp Hnl. generalize (clean_text text) as y.
  induction y as [|c y IH]; intros H4 Hsp Hnl; [constructor|].
  inversion H4; inversion Hsp; inversion Hnl; subst.
  constructor; [|apply IH; assumption].
  destruct (allowed_cases c) as [H|[H|[H|[H|H]]]]; [assumption|tauto..| |tauto|].
  - right. right. left. auto.
  - destruct H as [<-|H]; [contradiction|]. tauto.
Qed.

End CleanerProperties.

(** ** Spans and labels *)

Lemma startswith_app (p r : str) : startswith p (p ++ r) = true.
Proof.
  induction p as [|c p IH]; cbn [startswith app]; [reflexivity|].
  rewrite N.eqb_refl. exact IH.
Qed.

Lemma first_some_In {A B : Type} (f : A -> option B) (l : list A) (y : B) :
  first_some f l = Some y -> exists x, In x l /\ f x = Some y.
Proof.
  induction l as [|x l IH]; cbn [first_some]; [discriminate|].
  destruct (f x) as [z|] eqn:E.
  - intros [= <-]. exists x. split; [left; reflexivity|exact E].
  - intros H. destruct (IH H) as (x' & Hin & Hx').
    exists x'. split; [right; exact Hin|exact Hx'].
Qed.

Section ExtractorFacts.
Context {U : UnicodeDB}.

Lemma match_here_start (fl : re_flags) (p : pattern) (pos : nat)
    (prev : option char) (rest : str) (m : rematch) :
  match_here fl p pos prev rest = Some m -> m_start m = pos.
Proof.
  unfold match_here. destruct (rmatch _ _ _ _); [|discriminate].
  intros [= <-]. reflexivity.
Qed.

Lemma search_from_start (fl : re_flags) (p : pattern) (rest : str) :
  forall pos prev m,
    search_from fl p pos prev rest = Some m ->
    pos <= m_start m <= pos + length rest.
Proof.
  induction rest as [|c rest IH]; intros pos prev m; cbn [search_from].
  - destruct (match_here fl p pos prev []) as [m'|] eqn:E; [|discriminate].
    intros [= <-]. apply match_here_start in E. cbn [length]. lia.
  - destruct (match_here fl p pos prev (c :: rest)) as [m'|] eqn:E.
    + intros [= <-]. apply match_here_start in E. cbn [length]. lia.
    + intros H. apply IH in H. cbn [length]. lia.
Qed.

Lemma re_search_start (fl : re_flags) (p text : str) (m : rematch) :
  re_search fl p text = Some m -> m_start m <= length text.
Proof.
  unfold re_search. intros H. apply search_from_start in H. lia.
Qed.

Lemma find_start_bound (config : section_config) (text_lower : str)
    (s : nat) :
  find_start config text_lower = Some s -> s <= length text_lower.
Proof.
  unfold find_start.
  destruct (first_some _ (patterns config)) as [m|] eqn:E1.
  - intros [= <-]. apply first_some_In in E1 as (p & _ & Hp).
    exact (re_search_start _ _ _ _ Hp).
  - destruct (first_some _ (keywords config)) as [m|] eqn:E2; [|discriminate].
    intros [= <-]. apply first_some_In in E2 as (p & _ & Hp).
    exact (re_search_start _ _ _ _ Hp).
Qed.

Lemma lookup_config_unknown (name : string)
    (l : list (string * section_config)) :
  ~ In name (map fst l) -> lookup_config name l = Raise (KeyError name).
Proof.
  induction l as [|[k c] l IH]; cbn [lookup_config map fst In];
    [reflexivity|].
  intros Hn. destruct (String.eqb_spec k name) as [->|_]; [tauto|].
  apply IH. tauto.
Qed.

End ExtractorFacts.

Section ExtractorProperties.
Context {U : UnicodeDB}.

(** X8.  [find_section_boundaries] and [extract_section_content] raise
    [KeyError] for a section name that is not one of overview, duration,
    objectives, audience and content, and return for these five. *)
Theorem section_name_key_error (text : str) (name : string) :
  (In name ["overview"; "duration"; "objectives"; "audience"; "content"]%string
   -> (exists b, find_section_boundaries text name = Ok b)
      /\ (exists c, extract_section_content text name = Ok c))
  /\ (~ In name
        ["overview"; "duration"; "objectives"; "audience"; "content"]%string
      -> find_section_boundaries text name = Raise (KeyError name)
         /\ extract_section_content text name = Raise (KeyError name)).
Proof.
  change ["overview"; "duration"; "objectives"; "audience"; "content"]%string
    with (map fst section_configs).
  split; intros Hin.
  - split; [exact (find_section_boundaries_known text name Hin)
           |exact (extract_section_content_known text name Hin)].
  - assert (E : find_section_boundaries text name = Raise (KeyError name)).
    { unfold find_section_boundaries.
      rewrite (lookup_config_unknown name section_configs Hin).
      reflexivity. }
    split; [exact E|].
    unfold extract_section_content. rewrite E. reflexivity.
Qed.

(** X9.  A span [(start, end)] returned by [find_section_boundaries] has
    its start inside the lower-cased copy of the text, its end inside
    the text, and the end is the end of the text or at least 50
    characters after the start. *)
Theorem find_section_boundaries_span (text : str) (name : string)
    (s e : nat) :
  find_section_boundaries text name = Ok (Some (s, e)) ->
  s <= length (str_lower text)
  /\ e <= length text
  /\ (e = length text \/ s + 50 <= e).
Proof.
  intros H. pose proof (find_section_boundaries_end text name s e H) as He.
  split; [|lia].
  unfold find_section_boundaries in H.
  destruct (lookup_config name section_configs) as [config|err];
    cbn [bind] in H; [|discriminate H].
  destruct (find_start config (str_lower text)) as [s0|] eqn:Es;
    [|discriminate H].
  apply find_start_bound in Es.
  assert (s0 = s) by congruence. subst s0. exact Es.
Qed.

(** X10.  The text returned by [extract_section_content] has no white
    space at either end, and is empty when no start of the section is
    found. *)
Theorem extract_section_content_trimmed (text : str) (name : string)
    (c : str) :
  extract_section_content text name = Ok c ->
  strip c = c
  /\ (find_section_boundaries text name = Ok None -> c = []).
Proof.
  unfold extract_section_content.
  destruct (find_section_boundaries text name) as [[[s e]|]|err];
    cbn [bind]; [| |discriminate].
  - destruct (lookup_config name section_configs) as [config|err];
      cbn [bind]; [|discriminate].
    intros [= <-]. split; [apply strip_idempotent|discriminate].
  - intros [= <-]. split; [apply strip_nil|reflexivity].
Qed.

(** X11.  [post_process_section] returns a text without white space at
    either end, for every section type, and the empty text for the empty
    text. *)
Theorem post_process_section_trimmed (content : str) (section_type : string) :
  strip (post_process_section content section_type)
  = post_process_section content section_type
  /\ post_process_section [] section_type = [].
Proof.
  split; [|reflexivity].
  unfold post_process_section. destruct content as [|c content];
    [apply strip_nil|]. cbv zeta. apply strip_idempotent.
Qed.

End ExtractorProperties.

Section SectionLabels.
Context {U : UnicodeDB}.

Lemma startswith_label (label : string) (a b : str) :
  startswith (utf8 label) ((utf8 label ++ a) ++ b) = true.
Proof. rewrite <- app_assoc. apply startswith_app. Qed.

(** The joined parts begin with the label of the first part. *)
Lemma join_labelled (label : string) (body : str) (rest : list str) :
  body <> [] ->
  startswith (utf8 label)
    (join [nl; nl] (labelled label body ++ rest)) = true.
Proof.
  intros Hb. destruct body as [|c body]; [contradiction|].
  cbn [labelled app]. destruct rest as [|r rest]; cbn [join].
  - apply startswith_app.
  - apply startswith_label.
Qed.

Lemma labelled_nil (label : string) : labelled label [] = [].
Proof. reflexivity. Qed.

(** X12.  The text of section 1 begins with "Tổng quan khóa học:" or with
    "Thời lượng:", or it is the placeholder of the section. *)
Theorem section1_label (text : str) :
  let r := _extract_precise_section1 text in
  startswith (utf8 "Tổng quan khóa học:") r = true
  \/ startswith (utf8 "Thời lượng:") r = true
  \/ r = utf8 "Thông tin giới thiệu và thời lượng khóa học.".
Proof.
  unfold _extract_precise_section1. cbv zeta.
  set (i := match search_first SI intro_patterns text with
            | Some m => _ | None => [] end).
  set (d := match search_first SI duration_patterns text with
            | Some m => _ | None => [] end).
  set (f := search_first SI meaningful_patterns text).
  set (parts := labelled "Tổng quan khóa học:" i ++ labelled "Thời lượng:" d).
  assert (Hf : forall m, startswith (utf8 "Tổng quan khóa học:")
     (or_default (utf8 "Tổng quan khóa học:" ++ [nl] ++ strip (group0 text m))
        "Thông tin giới thiệu và thời lượng khóa học.") = true).
  { intros m. unfold or_default.
    destruct (utf8 "Tổng quan khóa học:" ++ [nl] ++ strip (group0 text m))
      eqn:E; [discriminate E|]. rewrite <- E. apply startswith_app. }
  assert (Hj : startswith (utf8 "Tổng quan khóa học:")
                 (join [nl; nl] parts) = true
               \/ startswith (utf8 "Thời lượng:")
                    (join [nl; nl] parts) = true
               \/ join [nl; nl] parts = []).
  { unfold parts. destruct i as [|ci i].
    - rewrite labelled_nil. cbn [app]. destruct d as [|cd d].
      + right. right. reflexivity.
      + right. left. rewrite <- (app_nil_r (labelled _ _)).
        apply join_labelled. discriminate.
    - left. apply join_labelled. discriminate. }
  assert (Hd : forall r : str,
    startswith (utf8 "Tổng quan khóa học:") r = true
    \/ startswith (utf8 "Thời lượng:") r = true \/ r = [] ->
    startswith (utf8 "Tổng quan khóa học:")
      (or_default r "Thông tin giới thiệu và thời lượng khóa học.") = true
    \/ startswith (utf8 "Thời lượng:")
         (or_default r "Thông tin giới thiệu và thời lượng khóa học.") = true
    \/ or_default r "Thông tin giới thiệu và thời lượng khóa học."
       = utf8 "Thông tin giới thiệu và thời lượng khóa học.").
  { intros r [H|[H|H]].
    - destruct r; [discriminate H|]. left. exact H.
    - destruct r; [discriminate H|]. right. left. exact H.
    - subst r. right. right. reflexivity. }
  destruct (too_short (join [nl; nl] parts) 50).
  - destruct f as [m|]; [left; apply Hf|apply Hd, Hj].
  - apply Hd, Hj.
Qed.

End SectionLabels.

Section MoreLabels.
Context {U : UnicodeDB}.

Lemma or_default_keeps (r : str) (d : string) (p : str) :
  startswith p r = true -> p <> [] -> startswith p (or_default r d) = true.
Proof.
  intros H Hp. destruct r; [|exact H].
  destruct p; [contradiction|discriminate H].
Qed.

(** X13.  The text of section 2 begins with "Mục tiêu khóa học:", "Đối
    tượng tham gia:", "Điều kiện tiên quyết:" or "Đối tượng và yêu
    cầu:", or it is the placeholder of the section. *)
Theorem section2_label (text : str) :
  let r := _extract_precise_section2 text in
  startswith (utf8 "Mục tiêu khóa học:") r = true
  \/ startswith (utf8 "Đối tượng tham gia:") r = true
  \/ startswith (utf8 "Điều kiện tiên quyết:") r = true
  \/ startswith (utf8 "Đối tượng và yêu cầu:") r = true
  \/ r = utf8 "Thông tin mục tiêu và đối tượng khóa học.".
Proof.
  unfold _extract_precise_section2. cbv zeta.
  set (o := located objectives_patterns _ text).
  set (a := located audience_patterns _ text).
  set (p := located prereq_patterns _ text).
  set (f := search_first SI fallback_patterns text).
  set (parts := labelled "Mục tiêu khóa học:" o
                ++ labelled "Đối tượng tham gia:" a
                ++ labelled "Điều kiện tiên quyết:" p).
  set (dflt := "Thông tin mục tiêu và đối tượng khóa học."%string).
  assert (Hne : forall l : string, utf8 l <> [] ->
            forall r, startswith (utf8 l) r = true ->
            startswith (utf8 l) (or_default r dflt) = true).
  { intros l Hl r H. apply or_default_keeps; assumption. }
  assert (Hj : startswith (utf8 "Mục tiêu khóa học:")
                 (or_default (join [nl; nl] parts) dflt) = true
    \/ startswith (utf8 "Đối tượng tham gia:")
         (or_default (join [nl; nl] parts) dflt) = true
    \/ startswith (utf8 "Điều kiện tiên quyết:")
         (or_default (join [nl; nl] parts) dflt) = true
    \/ startswith (utf8 "Đối tượng và yêu cầu:")
         (or_default (join [nl; nl] parts) dflt) = true
    \/ or_default (join [nl; nl] parts) dflt = utf8 dflt).
  { unfold parts. destruct o as [|co o].
    - rewrite labelled_nil. cbn [app]. destruct a as [|ca a].
      + rewrite labelled_nil. cbn [app]. destruct p as [|cp p].
        * do 4 right. reflexivity.
        * right. right. left. apply Hne; [discriminate|].
          rewrite <- (app_nil_r (labelled _ _)).
          apply join_labelled. discriminate.
      + right. left. apply Hne; [discriminate|].
        apply join_labelled. discriminate.
    - left. apply Hne; [discriminate|]. apply join_labelled. discriminate. }
  destruct (too_short (join [nl; nl] parts) 50); [|exact Hj].
  destruct f as [m|]; [|exact Hj].
  do 3 right. left. apply Hne; [discriminate|]. apply startswith_app.
Qed.

(** X14.  The text of section 3 always begins with "Nội dung khóa học:". *)
Theorem section3_label (text : str) :
  startswith (utf8 "Nội dung khóa học:") (_extract_precise_section3 text)
  = true.
Proof.
  unfold _extract_precise_section3. cbv zeta.
  match goal with
  | |- context [match ?c with [] => utf8 ?d | _ :: _ => _ end] =>
    destruct c as [|c0 c1]
  end.
  - vm_compute. reflexivity.
  - apply startswith_app.
Qed.

(** X15.  None of the three [_extract_fallback_section] methods returns
    the empty text. *)
Theorem fallback_sections_nonempty (text : str) :
  _extract_fallback_section1 text <> []
  /\ _extract_fallback_section2 text <> []
  /\ _extract_fallback_section3 text <> [].
Proof.
  assert (Hp : forall (l : string) ps, utf8 l <> [] ->
            Forall (fun s : str => s <> []) (fallback_part l ps text)).
  { intros l ps Hl. unfold fallback_part.
    destruct (search_first DOTALL ps text); constructor; [|constructor].
    destruct (utf8 l); [contradiction|discriminate]. }
  assert (Hj : forall (parts : list str) (d : string),
            utf8 d <> [] -> Forall (fun s : str => s <> []) parts ->
            joined_or parts d <> []).
  { intros parts d Hd Hall. unfold joined_or.
    destruct parts as [|x parts]; [exact Hd|].
    inversion Hall as [|? ? Hx _]; subst.
    destruct x as [|c x]; [contradiction|].
    destruct parts; cbn [join app]; discriminate. }
  split; [|split].
  - apply Hj; [vm_compute; discriminate|].
    apply Forall_app. split; apply Hp; vm_compute; discriminate.
  - apply Hj; [vm_compute; discriminate|].
    apply Forall_app. split; apply Hp; vm_compute; discriminate.
  - unfold _extract_fallback_section3.
    destruct (search_first DOTALL _ text); [|vm_compute; discriminate].
    intros E. apply (f_equal (@length char)) in E.
    rewrite length_app in E.
    change (length (utf8 "Nội dung khóa học:")) with 18 in E.
    cbn [length] in E. lia.
Qed.

End MoreLabels.

Section LoaderProperties.
Context {U : UnicodeDB}.

Lemma extract_course_info_eq (text : str) :
  extract_course_info text
  = Ok (if length (strip text) <? 100 then ∅
        else _create_fixed_sections (TextCleaner.clean_text text)).
Proof.
  destruct (extract_course_info_cases text) as [[Hlt ->]|[Hge ->]].
  - destruct (Nat.ltb_spec (length (strip text)) 100); [reflexivity|lia].
  - destruct (Nat.ltb_spec (length (strip text)) 100); [lia|reflexivity].
Qed.

Lemma load_pdf_file_eq (source course_name : str) (pages : list str)
    (chunks : list PDFLoader.Document) :
  PDFLoader.load_pdf_file source course_name pages chunks
  = if length (strip (join [nl] pages)) <? 100 then chunks
    else
      map (PDFLoader.section_document source course_name
             (_create_fixed_sections
                (TextCleaner.clean_text (join [nl] pages))))
          PDFLoader.section_configs.
Proof.
  unfold PDFLoader.load_pdf_file.
  rewrite extract_course_info_eq.
  destruct (Nat.ltb_spec (length (strip (join [nl] pages))) 100)
    as [Hlt|Hge].
  - unfold PDFLoader.build_documents.
    rewrite bool_decide_eq_false_2 by (intros H; apply H; reflexivity).
    reflexivity.
  - set (sections := _create_fixed_sections _).
    pose proof (create_fixed_sections_three
                  (TextCleaner.clean_text (join [nl] pages))) as H3.
    fold sections in H3.
    pose proof (three_sections_size _ H3) as Hsize.
    unfold PDFLoader.build_documents. rewrite Hsize.
    rewrite bool_decide_eq_true_2
      by (intros E; rewrite E, map_size_empty in Hsize; discriminate).
    reflexivity.
Qed.

(** X17.  [load_pdf_file] returns the chunks of the fallback exactly when
    the text of the pages has fewer than 100 characters after trimming;
    otherwise it returns the three section documents made from the
    fixed sections.  The empty list of the exception handler is never
    returned because of the extraction. *)
Theorem load_pdf_file_cases (source course_name : str) (pages : list str)
    (chunks : list PDFLoader.Document) :
  let full_text := join [nl] pages in
  PDFLoader.load_pdf_file source course_name pages chunks
  = if length (strip full_text) <? 100 then chunks
    else
      map (PDFLoader.section_document source course_name
             (_create_fixed_sections (TextCleaner.clean_text full_text)))
          PDFLoader.section_configs.
Proof. exact (load_pdf_file_eq source course_name pages chunks). Qed.

End LoaderProperties.

(** ** Cutting a text into three parts *)

Lemma three_parts (a b : nat) (s : str) :
  a <= b -> take a s ++ slice a b s ++ drop b s = s.
Proof.
  intros Hab. unfold slice.
  replace (drop b s) with (drop (b - a) (drop a s))
    by (rewrite drop_drop; f_equal; lia).
  rewrite app_assoc, <- (app_assoc (take a s)).
  rewrite (take_drop (b - a) (drop a s)). apply take_drop.
Qed.

Lemma find_not_in (c : char) (s : str) :
  (str_find c s = -1)%Z <-> ~ In c s.
Proof.
  induction s as [|d s IH]; cbn [str_find In]; [tauto|].
  destruct (N.eqb_spec d c) as [->|Hd].
  - split; [discriminate|tauto].
  - destruct (Z.ltb_spec (str_find c s) 0) as [Hlt|Hge].
    + split; [|reflexivity]. intros _ [H|H]; [contradiction|].
      assert (Hm : (-1 <= str_find c s)%Z).
      { clear. induction s as [|e s IH]; cbn [str_find]; [lia|].
        destruct (e =? c)%N; [lia|].
        destruct (Z.ltb_spec (str_find c s) 0); lia. }
      apply IH in H; [exact H|lia].
    + split; [lia|]. intros H. exfalso.
      assert (E : (str_find c s = -1)%Z) by (apply IH; tauto). lia.
Qed.

Section Processor.
Import AICourseProcessor.

(** X18.  [_fallback_processing] cuts the content into three consecutive
    parts: overview, objectives_audience and detailed_content, one after
    the other, give the content back; the first two have a third of the
    length (rounded down) and the last has the rest, at most two
    characters more. *)
Theorem fallback_processing_partition (content : str) :
  let r := _fallback_processing content in
  let third := length content / 3 in
  exists a b c,
    course_sections r !! "overview"%string = Some a
    /\ course_sections r !! "objectives_audience"%string = Some b
    /\ course_sections r !! "detailed_content"%string = Some c
    /\ a ++ b ++ c = content
    /\ length a = third /\ length b = third
    /\ third <= length c <= third + 2
    /\ language_detected r = utf8 "vi".
Proof.
  cbv zeta. unfold _fallback_processing. cbn [course_sections language_detected].
  set (third := length content / 3).
  assert (H3 : 3 * third <= length content < 3 * third + 3).
  { unfold third. pose proof (Nat.div_mod_eq (length content) 3).
    pose proof (Nat.mod_upper_bound (length content) 3). lia. }
  exists (take third content), (slice third (2 * third) content),
    (drop (2 * third) content).
  split; [reflexivity|]. split; [reflexivity|]. split; [reflexivity|].
  split; [apply three_parts; lia|].
  unfold slice. rewrite !length_take, !length_drop.
  repeat split; lia.
Qed.

Variable json : Type.
Variable json_loads : str -> option json.

(** X19.  [_parse_ai_response] calls the parser only when the response
    contains an opening brace, on the text from the first opening brace
    to the last closing brace; in every other case, and when the parser
    fails, the result is built from the response itself, whose first 500
    characters, next 500 characters and remaining characters are the
    three sections. *)
Theorem parse_ai_response_cases (response_text : str) :
  (~ In (ch "{") response_text ->
   exists d, _parse_ai_response json json_loads response_text = Sliced json d)
  /\ (forall d,
        _parse_ai_response json json_loads response_text = Sliced json d ->
        language_detected d = utf8 "vi"
        /\ course_sections d !! "overview"%string
           = Some (take 500 response_text)
        /\ course_sections d !! "objectives_audience"%string
           = Some (slice 500 1000 response_text)
        /\ course_sections d !! "detailed_content"%string
           = Some (drop 1000 response_text)
        /\ take 500 response_text ++ slice 500 1000 response_text
           ++ drop 1000 response_text = response_text)
  /\ (forall value,
        _parse_ai_response json json_loads response_text = Parsed json value ->
        In (ch "{") response_text
        /\ json_loads
             (zslice (str_find (ch "{") response_text)
                (str_rfind (ch "}") response_text + 1) response_text)
           = Some value).
Proof.
  unfold _parse_ai_response. cbv zeta.
  set (fb := Processed _ _).
  set (start_idx := str_find (ch "{") response_text).
  set (end_idx := (str_rfind (ch "}") response_text + 1)%Z).
  split; [|split].
  - intros Hn. apply find_not_in in Hn. fold start_idx in Hn.
    rewrite Hn. cbn [Z.eqb negb andb]. eauto.
  - intros d Hd.
    assert (E : d = fb).
    { destruct (negb (start_idx =? -1)%Z && negb (end_idx =? -1)%Z);
        [destruct (json_loads _)|]; congruence. }
    subst d. unfold fb. cbn [language_detected course_sections].
    split; [reflexivity|]. split; [reflexivity|]. split; [reflexivity|].
    split; [reflexivity|]. apply three_parts. lia.
  - intros value Hv.
    destruct (Z.eqb_spec start_idx (-1)) as [E|E]; cbn [negb andb] in Hv;
      [discriminate Hv|].
    split.
    + destruct (in_dec N.eq_dec (ch "{") response_text) as [Hin|Hn];
        [exact Hin|]. apply find_not_in in Hn. contradiction.
    + destruct (negb (end_idx =? -1)%Z); [|discriminate Hv].
      destruct (json_loads _) as [v|]; [|discriminate Hv]. congruence.
Qed.

End Processor.

Section Blank.
Context {U : UnicodeDB}.



End Blank.

Section Topic.
Context {U : UnicodeDB}.
Import PDFLoader TopicVectorDB.





(** The loop of the quality check. *)
Lemma quality_loop (documents : list Document) :
  forall h s h' s',
    fold_left quality_step documents (h, s) = (h', s') ->
    s' <= s + length documents.
Proof.
  induction documents as [|d ds IH]; intros h s h' s' H; cbn [fold_left] in H.
  - injection H as _ <-. cbn [length]. lia.
  - unfold quality_step at 2 in H.
    destruct (50 <? length (strip (page_content d))).
    + destruct (startswith (utf8 "Thông tin") (strip (page_content d))
                && (length (strip (page_content d)) <? 200));
        apply IH in H; cbn [length]; lia.
    + apply IH in H. cbn [length]. lia.
Qed.

Lemma should_process_length3 (documents : list Document) :
  length documents = 3 -> should_process documents = true.
Proof.
  intros H3. unfold should_process.
  destruct (fold_left quality_step documents (false, 0)) as [h s] eqn:E.
  apply quality_loop in E. rewrite H3.
  destruct (Nat.leb_spec s 3); [|lia].
  cbn [Nat.eqb andb]. apply orb_true_r.
Qed.

(** X21.  The quality check of [_process_topic_folder] accepts every list
    of exactly three documents: the count of short sections never
    exceeds the number of documents. *)
Theorem should_process_three (documents : list Document) :
  length documents = 3 -> should_process documents = true.
Proof. exact (should_process_length3 documents). Qed.

(** X22.  The documents that [load_pdf_file] makes from a text of at
    least 100 characters after trimming always pass the quality check
    of [_process_topic_folder], so that [_create_fallback_sections] is
    not used for them. *)
Theorem structured_documents_accepted (source course_name : str)
    (pages : list str) (chunks : list Document) :
  100 <= length (strip (join [nl] pages)) ->
  should_process (load_pdf_file source course_name pages chunks) = true.
Proof.
  intros Hlen. apply should_process_length3.
  rewrite load_pdf_file_eq.
  destruct (Nat.ltb_spec (length (strip (join [nl] pages))) 100);
    [lia|].
  rewrite length_map. reflexivity.
Qed.

End Topic.

(** ** The course summary *)

Lemma str_rfind_spec (c : char) (s : str) :
  (-1 <= str_rfind c s < Z.of_nat (length s))%Z
  /\ ((0 <= str_rfind c s)%Z -> s !! Z.to_nat (str_rfind c s) = Some c).
Proof.
  induction s as [|d s [IH1 IH2]]; cbn [str_rfind length].
  - split; [lia|]. lia.
  - destruct (Z.ltb_spec (str_rfind c s) 0) as [Hlt|Hge].
    + destruct (N.eqb_spec d c) as [->|Hd].
      * split; [lia|]. intros _. reflexivity.
      * split; [lia|]. lia.
    + split; [lia|]. intros _.
      replace (Z.to_nat (str_rfind c s + 1)) with (S (Z.to_nat (str_rfind c s)))
        by lia.
      cbn [lookup list_lookup]. apply IH2. exact Hge.
Qed.

(** The last occurrence: no later index holds the character. *)
Lemma str_rfind_last (c : char) (s : str) (j : nat) :
  (str_rfind c s < Z.of_nat j)%Z -> s !! j <> Some c.
Proof.
  revert j. induction s as [|d s IH]; intros j; cbn [str_rfind].
  - intros _. rewrite lookup_nil. discriminate.
  - destruct (Z.ltb_spec (str_rfind c s) 0) as [Hlt|Hge].
    + destruct (N.eqb_spec d c) as [->|Hd]; intros Hj.
      * destruct j as [|j]; [lia|]. cbn [lookup list_lookup]. apply IH. lia.
      * destruct j as [|j]; cbn [lookup list_lookup]; [congruence|].
        apply IH. lia.
    + intros Hj. destruct j as [|j]; [lia|].
      cbn [lookup list_lookup]. apply IH. lia.
Qed.

Section SummaryFacts.
Context {U : UnicodeDB}.

Lemma summary_loop_app (course_info : gmap string str)
    (names1 names2 : list string) :
  forall acc,
    PDFLoader.summary_loop course_info (names1 ++ names2) acc
    = bind (PDFLoader.summary_loop course_info names1 acc)
        (fun acc1 => PDFLoader.summary_loop course_info names2 acc1).
Proof.
  induction names1 as [|n names1 IH]; intros acc; cbn [app PDFLoader.summary_loop];
    [reflexivity|].
  destruct (course_info !! n) as [content|]; [|apply IH].
  destruct (lookup_config n section_configs) as [config|err]; cbn [bind];
    [apply IH|reflexivity].
Qed.

Lemma summary_loop_known (course_info : gmap string str)
    (names : list string) :
  (forall n, In n names ->
     In n (map fst section_configs) \/ course_info !! n = None) ->
  forall acc, exists r, PDFLoader.summary_loop course_info names acc = Ok r.
Proof.
  induction names as [|n names IH]; intros Hall acc; cbn [PDFLoader.summary_loop];
    [eauto|].
  assert (Hrest : forall n', In n' names ->
            In n' (map fst section_configs) \/ course_info !! n' = None)
    by (intros n' Hn'; apply Hall; right; exact Hn').
  destruct (course_info !! n) as [content|] eqn:E; [|apply IH, Hrest].
  destruct (Hall n (or_introl eq_refl)) as [Hin|Hnone]; [|congruence].
  destruct (lookup_config_known n section_configs Hin) as [config Hc].
  rewrite Hc. cbn [bind]. apply IH, Hrest.
Qed.

Lemma prerequisites_unknown :
  ~ In "prerequisites"%string (map fst section_configs).
Proof.
  cbn [map fst section_configs In]. intros H.
  decompose [or] H; try discriminate; assumption.
Qed.

Lemma summary_names_known (n : string) :
  In n ["overview"; "objectives"; "duration"; "audience"]%string
  \/ n = "content"%string ->
  In n (map fst section_configs).
Proof.
  intros [H| ->]; cbn [map fst section_configs In]; [|auto 10].
  cbn [In] in H. decompose [or] H; try contradiction; subst; auto 10.
Qed.

(** X23.  [PDFLoader.create_course_summary] raises [KeyError] exactly when the
    course information has the key prerequisites, which is in the
    priority list but not in [section_configs]; otherwise it returns a
    summary. *)
Theorem create_course_summary_key_error (course_name : str)
    (course_info : gmap string str) :
  (is_Some (course_info !! "prerequisites"%string) ->
   PDFLoader.create_course_summary course_name course_info
   = Raise (KeyError "prerequisites"))
  /\ (course_info !! "prerequisites"%string = None ->
      exists summary,
        PDFLoader.create_course_summary course_name course_info = Ok summary).
Proof.
  unfold PDFLoader.create_course_summary. split.
  - intros [content Hc].
    change PDFLoader.priority_sections
      with (["overview"; "objectives"; "duration"; "audience"]%string
            ++ ["prerequisites"; "content"]%string)%list.
    rewrite summary_loop_app.
    destruct (summary_loop_known course_info
                ["overview"; "objectives"; "duration"; "audience"]%string)
      with (acc := [utf8 "Khóa học: " ++ course_name ++ [nl]]) as [r ->].
    { intros n Hn. left. apply summary_names_known. left. exact Hn. }
    cbn [bind PDFLoader.summary_loop]. rewrite Hc.
    rewrite (lookup_config_unknown _ _ prerequisites_unknown).
    reflexivity.
  - intros Hnone.
    destruct (summary_loop_known course_info PDFLoader.priority_sections)
      with (acc := [utf8 "Khóa học: " ++ course_name ++ [nl]]) as [r ->].
    { intros n Hn. unfold PDFLoader.priority_sections in Hn. cbn [In] in Hn.
      destruct (String.eqb_spec n "prerequisites") as [->|Hd];
        [right; exact Hnone|].
      left. apply summary_names_known.
      decompose [or] Hn; try contradiction; subst; cbn [In]; auto 10. }
    cbn [bind]. eauto.
Qed.

(** The index computed as [sentence_end]: below the length, a sentence
    end when it is not negative, and no sentence end comes after it. *)
Lemma sentence_end_spec (st : str) :
  let se := Z.max (Z.max (str_rfind 46 st) (str_rfind 33 st))
              (str_rfind 63 st) in
  (-1 <= se < Z.of_nat (length st))%Z
  /\ ((0 <= se)%Z ->
      exists c, st !! Z.to_nat se = Some c /\ In c [46; 33; 63]%N)
  /\ (forall j c, (se < Z.of_nat j)%Z -> In c [46; 33; 63]%N ->
        st !! j <> Some c).
Proof.
  cbv zeta.
  destruct (str_rfind_spec 46 st) as [P1 P2].
  destruct (str_rfind_spec 33 st) as [E1 E2].
  destruct (str_rfind_spec 63 st) as [Q1 Q2].
  split; [lia|]. split.
  - destruct (Z.max_spec (Z.max (str_rfind 46 st) (str_rfind 33 st))
                (str_rfind 63 st)) as [[_ ->]|[_ ->]].
    + intros H. exists 63%N. cbn [In]. split; [exact (Q2 H)|tauto].
    + destruct (Z.max_spec (str_rfind 46 st) (str_rfind 33 st))
        as [[_ ->]|[_ ->]]; intros H.
      * exists 33%N. cbn [In]. split; [exact (E2 H)|tauto].
      * exists 46%N. cbn [In]. split; [exact (P2 H)|tauto].
  - intros j c Hj Hc. cbn [In] in Hc.
    destruct Hc as [<-|[<-|[<-|[]]]]; apply str_rfind_last; lia.
Qed.

(** X24.  The text of a section in the summary has at most 203
    characters.  A content of at most 200 characters is kept as it is.
    For a longer content: when its last sentence end (a dot, exclamation
    mark or question mark) among the first 200 characters is at an index
    [e] beyond 100, the text is the content up to and including that
    character; when no sentence end lies beyond index 100 among the
    first 200 characters, the text is the first 200 characters followed
    by an ellipsis. *)
Theorem summary_text_bounds (content : str) :
  let is_end (j : nat) :=
    exists c, content !! j = Some c /\ In c [46; 33; 63]%N in
  length (PDFLoader.summary_text content) <= 203
  /\ (length content <= 200 -> PDFLoader.summary_text content = content)
  /\ (200 < length content ->
      forall e, 100 < e < 200 -> is_end e ->
        (forall j, e < j < 200 -> ~ is_end j) ->
        PDFLoader.summary_text content = take (e + 1) content)
  /\ (200 < length content ->
      (forall j, 100 < j < 200 -> ~ is_end j) ->
      PDFLoader.summary_text content = take 200 content ++ utf8 "...").
Proof.
  cbv zeta. unfold PDFLoader.summary_text. cbv zeta.
  destruct (Nat.ltb_spec 200 (length content)) as [Hlong|Hshort].
  - set (st := take 200 content).
    assert (Hst : length st = 200) by (unfold st; rewrite length_take; lia).
    change (ch ".") with 46%N. change (ch "!") with 33%N.
    change (ch "?") with 63%N.
    destruct (sentence_end_spec st) as (B & Hin & Hlast). cbv zeta in *.
    set (se := Z.max (Z.max (str_rfind 46 st) (str_rfind 33 st))
                 (str_rfind 63 st)) in *.
    rewrite Hst in B.
    assert (Hst_look : forall j c, st !! j = Some c -> content !! j = Some c)
      by (intros j c H; unfold st in H; apply lookup_take_Some in H;
          exact (proj1 H)).
    assert (Hcontent_look : forall j c, j < 200 -> content !! j = Some c ->
                            st !! j = Some c)
      by (intros j c Hj H; unfold st; apply lookup_take_Some; auto).
    assert (Hcut : (100 < se)%Z ->
              zslice 0 (se + 1) st = take (Z.to_nat se + 1) content).
    { intros Hc. unfold zslice, slice. change (Z.to_nat 0) with 0.
      rewrite drop_0, Nat.sub_0_r. unfold st. rewrite take_take.
      f_equal. lia. }
    split; [|split; [lia|split]].
    + destruct (Z.ltb_spec 100 se) as [Hc|Hc].
      * rewrite (Hcut Hc), length_take. lia.
      * rewrite length_app, Hst. change (length (utf8 "...")) with 3. lia.
    + intros _ e He (c & Hc & Hcin) Hnone.
      assert (Ese : se = Z.of_nat e).
      { destruct (Z.lt_trichotomy se (Z.of_nat e)) as [Hlt|[Heq|Hgt]];
          [|exact Heq|].
        - exfalso. apply (Hlast e c Hlt Hcin).
          apply Hcontent_look; [lia|exact Hc].
        - exfalso. destruct (Hin ltac:(lia)) as (c' & Hc' & Hcin').
          apply (Hnone (Z.to_nat se)); [lia|].
          exists c'. split; [apply Hst_look, Hc'|exact Hcin']. }
      destruct (Z.ltb_spec 100 se) as [Hc'|Hc']; [|lia].
      rewrite (Hcut Hc'). f_equal. lia.
    + intros _ Hnone.
      destruct (Z.ltb_spec 100 se) as [Hc|Hc]; [|reflexivity].
      exfalso. destruct (Hin ltac:(lia)) as (c' & Hc' & Hcin').
      apply (Hnone (Z.to_nat se)); [lia|].
      exists c'. split; [apply Hst_look, Hc'|exact Hcin'].
  - split; [rewrite length_take; lia|]. split; [|split; lia].
    intros _. apply take_ge. lia.
Qed.

End SummaryFacts.

(** ** Progress of the matcher *)

Lemma ahead_refl (s : mstate) : ahead 0 s s.
Proof.
  unfold ahead. rewrite N.add_0_r, drop_0. split; [reflexivity|].
  split; [reflexivity|lia].
Qed.

Lemma ahead_trans (n1 n2 : nat) (s s1 s2 : mstate) :
  ahead n1 s s1 -> ahead n2 s1 s2 -> ahead (n1 + n2) s s2.
Proof.
  intros (P1 & R1 & L1) (P2 & R2 & L2). unfold ahead.
  rewrite R1, length_drop in L2. rewrite R1, drop_drop in R2.
  split; [lia|]. split; [exact R2|lia].
Qed.

Lemma ahead_set_cap (n i : nat) (span : N * N) (s s1 : mstate) :
  ahead n s s1 -> ahead n s (set_cap i span s1).
Proof. intros H. exact H. Qed.

Lemma ahead_advance (s : mstate) (t : char) (rest : str) :
  ms_rest s = t :: rest -> ahead 1 s (advance s t rest).
Proof.
  intros E. unfold ahead, advance. cbn [ms_pos ms_rest]. rewrite E.
  split; [lia|]. split; [reflexivity|cbn [length]; lia].
Qed.

Section Progress.
Context {U : UnicodeDB}.
Variable fl : re_flags.

Lemma step_char_ahead (ok : char -> bool) (s : mstate)
    (k : mstate -> option mstate) (res : mstate) :
  step_char ok s k = Some res ->
  exists t rest,
    ms_rest s = t :: rest /\ ok t = true
    /\ k (advance s t rest) = Some res.
Proof.
  unfold step_char. destruct (ms_rest s) as [|t rest]; [discriminate|].
  destruct (ok t) eqn:Eok; [|discriminate]. intros H. exists t, rest. auto.
Qed.

(** A successful match is a success of the continuation at a state
    further on; without capturing groups the groups are unchanged. *)
Lemma rmatch_ahead (r : regex) :
  forall s k res,
    rmatch fl r s k = Some res ->
    exists n s1,
      ahead n s s1 /\ k s1 = Some res
      /\ (group_free r = true -> ms_caps s1 = ms_caps s).
Proof.
  induction r as [| c | | neg items | | | r1 IH1 r2 IH2 | r1 IH1 r2 IH2
                 | greedy r1 IH1 | i r1 IH1 | r1 IH1];
    intros s k res H; cbn [rmatch] in H.
  - exists 0, s. split; [apply ahead_refl|]. split; [exact H|reflexivity].
  - apply step_char_ahead in H as (t & rest & E & _ & Hk).
    exists 1, (advance s t rest).
    split; [apply ahead_advance, E|]. split; [exact Hk|reflexivity].
  - apply step_char_ahead in H as (t & rest & E & _ & Hk).
    exists 1, (advance s t rest).
    split; [apply ahead_advance, E|]. split; [exact Hk|reflexivity].
  - apply step_char_ahead in H as (t & rest & E & _ & Hk).
    exists 1, (advance s t rest).
    split; [apply ahead_advance, E|]. split; [exact Hk|reflexivity].
  - destruct (at_bol (f_m fl) s); [|discriminate].
    exists 0, s. split; [apply ahead_refl|]. split; [exact H|reflexivity].
  - destruct (at_eol (f_m fl) s); [|discriminate].
    exists 0, s. split; [apply ahead_refl|]. split; [exact H|reflexivity].
  - apply IH1 in H as (n1 & s1 & A1 & H & C1).
    apply IH2 in H as (n2 & s2 & A2 & H & C2).
    exists (n1 + n2), s2. split; [exact (ahead_trans _ _ _ _ _ A1 A2)|].
    split; [exact H|]. cbn [group_free]. intros G.
    apply andb_true_iff in G as [G1 G2]. rewrite (C2 G2). exact (C1 G1).
  - cbn [group_free].
    destruct (rmatch fl r1 s k) as [res1|] eqn:E1.
    + injection H as <-. apply IH1 in E1 as (n1 & s1 & A1 & H & C1).
      exists n1, s1. split; [exact A1|]. split; [exact H|].
      intros G. apply andb_true_iff in G as [G1 _]. exact (C1 G1).
    + apply IH2 in H as (n2 & s2 & A2 & H & C2).
      exists n2, s2. split; [exact A2|]. split; [exact H|].
      intros G. apply andb_true_iff in G as [_ G2]. exact (C2 G2).
  - cbn [group_free]. revert H. generalize (length (ms_rest s)) as n.
    intros n. revert s res.
    induction n as [|n IHn]; intros s res H; cbn [star_loop] in H.
    + destruct greedy.
      * exists 0, s. split; [apply ahead_refl|]. split; [exact H|reflexivity].
      * destruct (k s) as [res0|] eqn:Ek; [|discriminate].
        injection H as <-.
        exists 0, s. split; [apply ahead_refl|]. split; [exact Ek|reflexivity].
    + assert (Hagain : forall res0,
        rmatch fl r1 s (fun s1 =>
          if (ms_pos s <? ms_pos s1)%N
          then star_loop greedy (rmatch fl r1) k n s1 else None) = Some res0 ->
        exists m s1, ahead m s s1 /\ k s1 = Some res0
          /\ (group_free r1 = true -> ms_caps s1 = ms_caps s)).
      { intros res0 Hr. apply IH1 in Hr as (n1 & s1 & A1 & Hr & C1).
        destruct (ms_pos s <? ms_pos s1)%N; [|discriminate].
        apply IHn in Hr as (n2 & s2 & A2 & Hr & C2).
        exists (n1 + n2), s2. split; [exact (ahead_trans _ _ _ _ _ A1 A2)|].
        split; [exact Hr|]. intros G. rewrite (C2 G). exact (C1 G). }
      destruct greedy.
      * destruct (rmatch fl r1 s _) as [res0|] eqn:E.
        -- injection H as <-. apply Hagain. reflexivity.
        -- exists 0, s. split; [apply ahead_refl|].
           split; [exact H|reflexivity].
      * destruct (k s) as [res0|] eqn:Ek.
        -- injection H as <-. exists 0, s. split; [apply ahead_refl|].
           split; [exact Ek|reflexivity].
        -- apply Hagain. exact H.
  - apply IH1 in H as (n1 & s1 & A1 & H & _).
    exists n1, (set_cap i (ms_pos s, ms_pos s1) s1).
    split; [exact A1|]. split; [exact H|]. cbn [group_free]. discriminate.
  - destruct (rmatch fl r1 s Some); [|discriminate].
    exists 0, s. split; [apply ahead_refl|]. split; [exact H|reflexivity].
Qed.

End Progress.

Section MatchBounds.
Context {U : UnicodeDB}.

(** A match found at [pos] starts there and ends inside the text. *)
Lemma match_here_bounds (fl : re_flags) (p : pattern) (pos : nat)
    (prev : option char) (rest : str) (m : rematch) :
  match_here fl p pos prev rest = Some m ->
  m_start m = pos /\ pos <= m_end m <= pos + length rest.
Proof.
  unfold match_here.
  destruct (rmatch _ _ _ _) as [s|] eqn:E; [|discriminate].
  intros [= <-]. cbn [m_start m_end]. split; [reflexivity|].
  apply rmatch_ahead in E as (n & s1 & (P & _ & L) & [= ->] & _).
  cbn [ms_pos ms_rest] in P, L. rewrite P. lia.
Qed.

(** A substitution whose replacements are not longer than the matches
    does not lengthen the text. *)
Lemma sub_loop_length (fl : re_flags) (p : pattern) (repl : rematch -> str) :
  (forall pos prev rest m,
     match_here fl p pos prev rest = Some m ->
     length (repl m) <= m_end m - pos) ->
  forall rest skip pos prev,
    length (sub_loop fl p repl skip pos prev rest) + Nat.min skip (length rest)
    <= length rest.
Proof.
  intros Hrepl. induction rest as [|c rest IH]; intros skip pos prev.
  - destruct skip as [|skip]; cbn [sub_loop length]; [|lia].
    destruct (match_here fl p pos prev []) as [m|] eqn:E; cbn [length];
      [|lia].
    pose proof (Hrepl _ _ _ _ E) as H1.
    apply match_here_bounds in E as [_ H2]. cbn [length] in H2.
    destruct (m_end m - pos) eqn:En; rewrite length_app; cbn [length]; lia.
  - destruct skip as [|skip]; cbn [sub_loop].
    + destruct (match_here fl p pos prev (c :: rest)) as [m|] eqn:E.
      * pose proof (Hrepl _ _ _ _ E) as H1.
        apply match_here_bounds in E as [_ H2]. cbn [length] in H2.
        rewrite length_app.
        destruct (m_end m - pos) as [|n] eqn:En; cbn [length].
        -- specialize (IH 0 (S pos) (Some c)). lia.
        -- specialize (IH n (S pos) (Some c)). lia.
      * cbn [length]. specialize (IH 0 (S pos) (Some c)). lia.
    + cbn [length]. specialize (IH skip (S pos) (Some c)). lia.
Qed.

Lemma re_sub_fn_length (fl : re_flags) (p : str) (repl : rematch -> str)
    (text : str) :
  (forall pos prev rest m,
     match_here fl (re_compile p) pos prev rest = Some m ->
     length (repl m) <= m_end m - pos) ->
  length (re_sub_fn fl p repl text) <= length text.
Proof.
  intros H. unfold re_sub_fn.
  pose proof (sub_loop_length fl (re_compile p) repl H text 0 0 None). lia.
Qed.

(** Removing the matches does not lengthen the text. *)
Lemma re_sub_nil_length (fl : re_flags) (p text : str) :
  length (re_sub fl p [] text) <= length text.
Proof.
  unfold re_sub. apply re_sub_fn_length. intros pos prev rest m _.
  cbn [parse_template expand flat_map length]. lia.
Qed.

Lemma length_slice (a b : nat) (s : str) : length (slice a b s) <= b - a.
Proof. unfold slice. rewrite length_take. lia. Qed.

End MatchBounds.

(** ** Steps that do not lengthen the text *)

Lemma replace_loop_length (old new : str) :
  length new <= length old ->
  forall s skip,
    length (replace_loop old new skip s) + Nat.min skip (length s)
    <= length s.
Proof.
  intros Hlen. induction s as [|c s IH]; intros skip; cbn [replace_loop length].
  - lia.
  - destruct skip as [|skip].
    + destruct (startswith old (c :: s)) eqn:E.
      * apply startswith_length in E. cbn [length] in E.
        rewrite length_app. specialize (IH (length old - 1)). lia.
      * cbn [length]. specialize (IH 0). lia.
    + specialize (IH skip). lia.
Qed.

Lemma replace_length (old new s : str) :
  length new <= length old -> length (replace old new s) <= length s.
Proof.
  intros H. unfold replace.
  pose proof (replace_loop_length old new H s 0). lia.
Qed.

Lemma fold_left_shrinks {A : Type} (f : str -> A -> str) (l : list A) :
  Forall (fun a => forall t, length (f t a) <= length t) l ->
  forall t, length (fold_left f l t) <= length t.
Proof.
  induction 1 as [|a l Ha _ IH]; intros t; cbn [fold_left]; [lia|].
  specialize (IH (f t a)). specialize (Ha t). lia.
Qed.

Lemma length_join_lines (ls : list str) :
  length (join [nl] ls) <= lines_size ls - 1.
Proof.
  induction ls as [|x ls IH]; [cbn [join lines_size length]; lia|].
  destruct ls as [|y ls].
  - cbn [join lines_size]. lia.
  - change (join [nl] (x :: y :: ls))
      with (x ++ [nl] ++ join [nl] (y :: ls)).
    rewrite !length_app. change (length [nl]) with 1.
    cbn [lines_size] in IH |- *. lia.
Qed.

Lemma lines_size_split_acc (s cur : str) :
  lines_size (split_lines_acc cur s) = S (length cur + length s).
Proof.
  revert cur.
  induction s as [|c s IH]; intros cur; cbn [split_lines_acc].
  - cbn [lines_size length]. rewrite length_rev. lia.
  - destruct (c =? nl)%N.
    + cbn [lines_size]. rewrite IH, length_rev. cbn [length]. lia.
    + rewrite IH. cbn [length]. lia.
Qed.

Lemma lines_size_split (s : str) : lines_size (split_lines s) = S (length s).
Proof. unfold split_lines. rewrite lines_size_split_acc. reflexivity. Qed.

Section Shrinking.
Context {U : UnicodeDB}.
Import TextCleaner.

Lemma lines_size_filter (ls : list str) :
  lines_size (filter_lines ls) <= lines_size ls.
Proof.
  induction ls as [|l ls IH]; cbn [filter_lines lines_size]; [lia|].
  pose proof (length_strip l) as Hl.
  destruct (strip l) as [|c s]; [lia|].
  destruct (has_course_content (c :: s)); [cbn [lines_size]; lia|].
  destruct (skip_line (c :: s)); [lia|cbn [lines_size]; lia].
Qed.

Lemma fixes_shrink :
  Forall (fun wc : str * str => length (snd wc) <= length (fst wc)) fixes.
Proof.
  apply List.Forall_forall. intros wc Hin.
  assert (H : forallb (fun wc : str * str =>
                length (snd wc) <=? length (fst wc)) fixes = true)
    by (vm_compute; reflexivity).
  rewrite forallb_forall in H. apply Nat.leb_le, H, Hin.
Qed.

(** A match of a generic rule has at least the two characters of its
    groups. *)
Lemma spaced_pair_groups (letters vowels : list cset_item)
    (text : str) (pos : nat) (prev : option char) (rest : str)
    (m : rematch) :
  match_here NOFLAGS (Pattern false (spaced_pair letters vowels))
    pos prev rest = Some m ->
  length (expand [TGroup 1; TGroup 2] text m) <= m_end m - pos.
Proof.
  unfold match_here.
  change (pat_flags NOFLAGS (Pattern false (spaced_pair letters vowels)))
    with F0.
  change (pat_re (Pattern false (spaced_pair letters vowels)))
    with (spaced_pair letters vowels).
  destruct (rmatch _ _ _ _) as [s|] eqn:E; [|discriminate].
  intros [= <-]. unfold spaced_pair in E. cbn [rmatch] in E.
  apply step_char_ahead in E as (t1 & r1 & E1 & _ & E).
  apply (rmatch_ahead F0 cls_space) in E as (n2 & s2 & A2 & E & C2).
  apply (rmatch_ahead F0 (RStar true cls_space))
    in E as (n3 & s3 & A3 & E & C3).
  apply step_char_ahead in E as (t4 & r4 & E4 & _ & E).
  injection E as <-.
  specialize (C2 eq_refl). specialize (C3 eq_refl).
  destruct A2 as (P2 & _ & _). destruct A3 as (P3 & _ & _).
  cbn [set_cap advance ms_pos ms_rest ms_caps] in *.
  unfold expand, group. cbn [flat_map m_caps m_end ms_caps set_cap advance
    ms_pos cap_lookup Nat.eqb].
  rewrite C3, C2. cbn [cap_lookup Nat.eqb].
  rewrite app_nil_r, length_app.
  pose proof (length_slice (N.to_nat (N.of_nat pos))
                (N.to_nat (N.succ (N.of_nat pos))) text).
  pose proof (length_slice (N.to_nat (ms_pos s3))
                (N.to_nat (N.succ (ms_pos s3))) text).
  lia.
Qed.

Lemma generic_fixes_shape :
  Forall (fun p => exists letters vowels,
            re_compile p = Pattern false (spaced_pair letters vowels))
    generic_fixes.
Proof.
  unfold generic_fixes. cbn [map].
  repeat (constructor;
    [match goal with
     | |- exists _ _, re_compile ?p = _ =>
       let c := eval vm_compute in (re_compile p) in
       match c with
       | Pattern false (RSeq (RGroup 1 (RSet false ?l))
           (RSeq _ (RGroup 2 (RSet false ?v)))) =>
         exists l, v; vm_compute; reflexivity
       end
     end|]).
  constructor.
Qed.

End Shrinking.

Section ShrinkingProperties.
Context {U : UnicodeDB}.
Import TextCleaner.

(** X25.  [fix_vietnamese_encoding] never lengthens the text: every entry
    of the table replaces a word by a shorter one, and every generic
    rule replaces a letter, white space and a vowel by the letter and
    the vowel. *)
Theorem fix_vietnamese_encoding_length (text : str) :
  length (fix_vietnamese_encoding text) <= length text.
Proof.
  unfold fix_vietnamese_encoding. destruct text as [|c text]; [reflexivity|].
  cbv zeta. generalize (c :: text) as t. intros t.
  etransitivity; [apply fold_left_shrinks|apply fold_left_shrinks].
  - eapply Forall_impl; [exact generic_fixes_shape|].
    intros p (letters & vowels & Ep) t0. unfold re_sub.
    apply re_sub_fn_length. rewrite Ep.
    change (parse_template (utf8 "\1\2")) with [TGroup 1; TGroup 2].
    intros pos prev rest m. apply spaced_pair_groups.
  - eapply Forall_impl; [exact fixes_shrink|].
    intros wc Hwc t0. apply replace_length, Hwc.
Qed.

(** X26.  [remove_company_noise] never lengthens the text: the first two
    passes remove matches or keep them, and the pass over the lines
    strips lines and drops some of them. *)
Theorem remove_company_noise_length (text : str) :
  length (remove_company_noise text) <= length text.
Proof.
  unfold remove_company_noise. cbv zeta.
  set (c1 := fold_left _ company_blocks text).
  set (c2 := fold_left _ company_noise_patterns c1).
  assert (H1 : length c1 <= length text).
  { apply fold_left_shrinks. apply List.Forall_forall. intros p _ t.
    apply re_sub_nil_length. }
  assert (H2 : length c2 <= length c1).
  { apply fold_left_shrinks. apply List.Forall_forall. intros p _ t.
    apply re_sub_fn_length. intros pos prev rest m Hm.
    apply match_here_bounds in Hm as [Hs _].
    unfold replace_if_not_course.
    destruct (existsb _ course_keywords); [|cbn [length]; lia].
    unfold group0. rewrite <- Hs. apply length_slice. }
  pose proof (length_join_lines (filter_lines (split_lines c2))) as H3.
  pose proof (lines_size_filter (split_lines c2)) as H4.
  rewrite lines_size_split in H4. lia.
Qed.

(** X27.  After [normalize_whitespace] and [standardize_formatting] every
    white-space character of the text is a single space, every bullet
    and every dot after a digit is followed by a space or ends the
    text. *)
Theorem standardize_formatting_spacing (text : str) :
  unicode_laws U ->
  let z := standardize_formatting (normalize_whitespace text) in
  single_spaced z /\ bullets_spaced z /\ numbers_spaced false z.
Proof.
  intros laws. apply (standardize_formatting_shape laws).
  exact (proj2 (normalize_whitespace_eq laws text)).
Qed.

End ShrinkingProperties.

Section FixedSectionsProperties.
Context {U : UnicodeDB}.

(** X28.  [_create_fixed_sections] returns exactly the keys
    section1_intro_duration, section2_objectives_audience and
    section3_content, each with a non-empty text, for every text. *)
Theorem create_fixed_sections_keys (full_text : str) :
  dom (_create_fixed_sections full_text)
  = {[ "section1_intro_duration"; "section2_objectives_audience";
       "section3_content" ]}%string
  /\ forall k s, _create_fixed_sections full_text !! k = Some s -> s <> [].
Proof. exact (create_fixed_sections_three full_text). Qed.

End FixedSectionsProperties.


(** ** Instances of the further properties *)

Lemma normalize_whitespace_one_line_witness :
  unicode_laws py_unicode
  /\ (TextCleaner.normalize_whitespace duration_then_format
      = re_sub NOFLAGS (utf8 "\s+") (utf8 " ") duration_then_format
      /\ single_spaced (TextCleaner.normalize_whitespace duration_then_format)
      /\ Forall (fun c => c <> nl)
           (TextCleaner.normalize_whitespace duration_then_format)).
Proof.
  split; [exact py_unicode_laws|].
  exact (normalize_whitespace_one_line duration_then_format py_unicode_laws).
Defined.

Lemma normalize_whitespace_idempotent_witness :
  unicode_laws py_unicode
  /\ TextCleaner.normalize_whitespace
       (TextCleaner.normalize_whitespace duration_then_format)
     = TextCleaner.normalize_whitespace duration_then_format.
Proof.
  split; [exact py_unicode_laws|].
  exact (normalize_whitespace_idempotent duration_then_format py_unicode_laws).
Defined.

Lemma clean_text_one_line_witness :
  unicode_laws py_unicode
  /\ (Forall (fun c => c <> nl) (TextCleaner.clean_text duration_then_format)
      /\ single_spaced (TextCleaner.clean_text duration_then_format)
      /\ strip (TextCleaner.clean_text duration_then_format)
         = TextCleaner.clean_text duration_then_format).
Proof.
  split; [exact py_unicode_laws|].
  exact (clean_text_one_line duration_then_format py_unicode_laws).
Defined.

Lemma clean_text_empty_or_ten_witness :
  unicode_laws py_unicode
  /\ (TextCleaner.clean_text short_text = []
      \/ 10 <= length (TextCleaner.clean_text short_text)).
Proof.
  split; [exact py_unicode_laws|].
  exact (clean_text_empty_or_ten short_text py_unicode_laws).
Defined.

Lemma clean_text_characters_witness :
  unicode_laws py_unicode
  /\ Forall (fun c =>
       isalnum c = true \/ c = 95%N \/ c = 32%N \/ (192 <= c <= 7929)%N
       \/ In c [46; 44; 33; 63; 45; 8226; 58; 40; 41]%N)
       (TextCleaner.clean_text module_address_line).
Proof.
  split; [exact py_unicode_laws|].
  exact (clean_text_characters module_address_line py_unicode_laws).
Defined.

Lemma find_section_boundaries_span_witness :
  find_section_boundaries duration_format_headings "duration"
  = Ok (Some (0, 66))
  /\ 0 <= length (str_lower duration_format_headings)
  /\ 66 <= length duration_format_headings
  /\ (66 = length duration_format_headings \/ 0 + 50 <= 66).
Proof.
  assert (H : find_section_boundaries duration_format_headings "duration"
              = Ok (Some (0, 66))) by (vm_compute; reflexivity).
  split; [exact H|].
  exact (find_section_boundaries_span duration_format_headings "duration"
           0 66 H).
Defined.

Lemma extract_section_content_trimmed_witness :
  extract_section_content duration_format_headings "duration"
  = Ok (utf8 "Thời lượng: 40 giờ trong 5 ngày học.III. Hình thức: trực tuyến")
  /\ strip (utf8 "Thời lượng: 40 giờ trong 5 ngày học.III. Hình thức: trực tuyến")
     = utf8 "Thời lượng: 40 giờ trong 5 ngày học.III. Hình thức: trực tuyến"
  /\ (find_section_boundaries duration_format_headings "duration" = Ok None ->
      utf8 "Thời lượng: 40 giờ trong 5 ngày học.III. Hình thức: trực tuyến"
      = []).
Proof.
  assert (H : extract_section_content duration_format_headings "duration"
              = Ok (utf8 "Thời lượng: 40 giờ trong 5 ngày học.III. Hình thức: trực tuyến"))
    by (vm_compute; reflexivity).
  split; [exact H|].
  exact (extract_section_content_trimmed duration_format_headings "duration"
           _ H).
Defined.

Lemma should_process_three_witness :
  length (map (PDFLoader.section_document (utf8 "course.pdf") (utf8 "course")
                 placeholder_sections) PDFLoader.section_configs) = 3
  /\ TopicVectorDB.should_process
       (map (PDFLoader.section_document (utf8 "course.pdf") (utf8 "course")
               placeholder_sections) PDFLoader.section_configs) = true.
Proof.
  assert (H : length (map (PDFLoader.section_document (utf8 "course.pdf")
                             (utf8 "course") placeholder_sections)
                        PDFLoader.section_configs) = 3) by reflexivity.
  split; [exact H|].
  exact (should_process_three _ H).
Defined.

Lemma structured_documents_accepted_witness :
  100 <= length (strip (join [nl] [prose]))
  /\ TopicVectorDB.should_process
       (PDFLoader.load_pdf_file (utf8 "prose.pdf") (utf8 "prose") [prose] [])
     = true.
Proof.
  assert (H : 100 <= length (strip (join [nl] [prose])))
    by (vm_compute; lia).
  split; [exact H|].
  exact (structured_documents_accepted (utf8 "prose.pdf") (utf8 "prose")
           [prose] [] H).
Defined.

Lemma standardize_formatting_spacing_witness :
  unicode_laws py_unicode
  /\ (single_spaced
        (TextCleaner.standardize_formatting
           (TextCleaner.normalize_whitespace module_address_line))
      /\ bullets_spaced
           (TextCleaner.standardize_formatting
              (TextCleaner.normalize_whitespace module_address_line))
      /\ numbers_spaced false
           (TextCleaner.standardize_formatting
              (TextCleaner.normalize_whitespace module_address_line))).
Proof.
  split; [exact py_unicode_laws|].
  exact (standardize_formatting_spacing module_address_line py_unicode_laws).
Defined.
